(** * Rate-gated claim pipeline: limiter, normaliser, trigger detector,
      response parsers and the message handlers that sequence them.

    The development embeds the Python sources
      utils/rate_limiter.py, bot/fact_checker.py, bot/discord_bot.py,
      bot/commands.py and config/settings.py
    as Rocq functions and states the properties of the specification over
    them.

    Modelling conventions.
    - [time.time()] is an explicit argument [current_time : Z] of every
      operation that reads the clock; timestamps are integers (seconds), so
      comparisons and subtractions are exact.
    - A [defaultdict(deque)] is a [gmap string (list Z)] together with the
      insertion that a subscript on a missing key performs.
    - Python [str] values are lists of 8-bit characters read as code points
      0..255; character classes follow Python's for that range.
    - [int] of a run of decimal digits raises ValueError when the run has
      more than 4300 digits, the default limit of the interpreter; the
      conversion returns an [option], and the [except] branches of the
      parsers are part of their definitions. *)

From Stdlib Require Import ZArith Lia List Ascii String Bool Sorted.
From stdpp Require Import base gmap strings list fin_maps.

Local Open Scope Z_scope.

(** ** utils/rate_limiter.py *)

(** The loop
    [while user_requests and user_requests[0] <= threshold: popleft()]. *)
Fixpoint popleft_while (threshold : Z) (user_requests : list Z) : list Z :=
  match user_requests with
  | t :: rest =>
      if t <=? threshold then popleft_while threshold rest else user_requests
  | [] => []
  end.

(** Timestamps in insertion order are non-decreasing when the clock is. *)
Fixpoint ascending (q : list Z) : bool :=
  match q with
  | a :: (b :: _) as q' => (a <=? b) && ascending q'
  | _ => true
  end.

Module RateLimiter.

Record t := mk {
  max_requests : Z;
  time_window : Z;
  requests : gmap string (list Z)
}.

(** [RateLimiter(max_requests, time_window)] *)
Definition init (max_requests time_window : Z) : t :=
  mk max_requests time_window ∅.

Definition with_requests (self : t) (m : gmap string (list Z)) : t :=
  mk (max_requests self) (time_window self) m.

(** [self.requests[identifier]]: the deque stored for the key, a fresh
    empty one when the key is missing. *)
Definition window (self : t) (identifier : string) : list Z :=
  default [] (requests self !! identifier).

(** The write-back of the deque obtained by the subscript: the key is
    present afterwards in every case. *)
Definition store (self : t) (identifier : string) (q : list Z) : t :=
  with_requests self (<[identifier := q]> (requests self)).

Definition check_rate_limit (self : t) (identifier : string)
    (current_time : Z) : bool * t :=
  let user_requests :=
    popleft_while (current_time - time_window self) (window self identifier) in
  if max_requests self <=? Z.of_nat (length user_requests)
  then (false, store self identifier user_requests)
  else (true, store self identifier (user_requests ++ [current_time])).

Definition get_remaining_requests (self : t) (identifier : string)
    (current_time : Z) : Z * t :=
  let user_requests :=
    popleft_while (current_time - time_window self) (window self identifier) in
  (Z.max 0 (max_requests self - Z.of_nat (length user_requests)),
   store self identifier user_requests).

(** [user_requests[0]] raises IndexError on an empty deque: [None]. *)
Definition get_reset_time (self : t) (identifier : string)
    (current_time : Z) : option Z * t :=
  match window self identifier with
  | [] => (Some 0, store self identifier [])
  | (_ :: _) as q =>
      let user_requests := popleft_while (current_time - time_window self) q in
      if Z.of_nat (length user_requests) <? max_requests self
      then (Some 0, store self identifier user_requests)
      else (match user_requests with
            | oldest :: _ => Some (oldest + time_window self - current_time)
            | [] => None
            end, store self identifier user_requests)
  end.

Definition reset_user (self : t) (identifier : string) : t :=
  with_requests self (delete identifier (requests self)).

Record stats := mk_stats {
  total_users_tracked : nat;
  active_users : nat;
  total_recent_requests : nat;
  max_requests_per_window : Z;
  stats_time_window : Z
}.

(** [sum(1 for req_time in user_requests if req_time > threshold)] *)
Definition recent_requests (threshold : Z) (user_requests : list Z) : nat :=
  length (List.filter (fun req_time => threshold <? req_time) user_requests).

Definition get_stats (self : t) (current_time : Z) : stats :=
  let '(active, total) :=
    map_fold (fun (_ : string) user_requests '(active, total) =>
                let n := recent_requests (current_time - time_window self)
                           user_requests in
                if (0 <? n)%nat then (S active, (total + n)%nat)
                else (active, total))
             (0%nat, 0%nat) (requests self) in
  mk_stats (size (requests self)) active total
           (max_requests self) (time_window self).

(** Both loops of [cleanup_old_entries]: every deque is trimmed against
    [current_time - 2 * time_window], and the keys whose deque came out
    empty are deleted. *)
Definition cleanup_old_entries (self : t) (current_time : Z) : t :=
  let cleanup_threshold := current_time - time_window self * 2 in
  with_requests self
    (omap (fun user_requests =>
             match popleft_while cleanup_threshold user_requests with
             | [] => None
             | q => Some q
             end) (requests self)).

End RateLimiter.

Module GlobalRateLimiter.

Record t := mk {
  max_requests_per_minute : Z;
  requests : list Z
}.

Definition init (max_requests_per_minute : Z) : t :=
  mk max_requests_per_minute [].

Definition check_global_rate_limit (self : t) (current_time : Z) : bool * t :=
  let q := popleft_while (current_time - 60) (requests self) in
  if max_requests_per_minute self <=? Z.of_nat (length q)
  then (false, mk (max_requests_per_minute self) q)
  else (true, mk (max_requests_per_minute self) (q ++ [current_time])).

Definition get_global_remaining_requests (self : t) (current_time : Z)
    : Z * t :=
  let q := popleft_while (current_time - 60) (requests self) in
  (Z.max 0 (max_requests_per_minute self - Z.of_nat (length q)),
   mk (max_requests_per_minute self) q).

End GlobalRateLimiter.

(** The operations of the per-identifier limiter as one transition system;
    [get_stats] only reads. *)
Inductive limiter_op :=
| OpAdmit (identifier : string)
| OpRemaining (identifier : string)
| OpResetIn (identifier : string)
| OpSweep
| OpStats.

Definition limiter_step (op : limiter_op) (rl : RateLimiter.t)
    (current_time : Z) : RateLimiter.t :=
  match op with
  | OpAdmit i => snd (RateLimiter.check_rate_limit rl i current_time)
  | OpRemaining i => snd (RateLimiter.get_remaining_requests rl i current_time)
  | OpResetIn i => snd (RateLimiter.get_reset_time rl i current_time)
  | OpSweep => RateLimiter.cleanup_old_entries rl current_time
  | OpStats => rl
  end.

(** The identifiers whose window an operation reads. *)
Definition touches (op : limiter_op) (identifier : string) : Prop :=
  match op with
  | OpAdmit i | OpRemaining i | OpResetIn i => i = identifier
  | OpSweep | OpStats => True
  end.

(** The threshold an operation evicts against. *)
Definition eviction_bound (op : limiter_op) (rl : RateLimiter.t)
    (current_time : Z) : Z :=
  match op with
  | OpSweep => current_time - 2 * RateLimiter.time_window rl
  | _ => current_time - RateLimiter.time_window rl
  end.

(** Successive [check_rate_limit] calls for one identifier at the given
    times; the answers in call order and the final limiter. *)
Fixpoint check_rate_limit_at (rl : RateLimiter.t) (identifier : string) (times : list Z)
    : list bool * RateLimiter.t :=
  match times with
  | [] => ([], rl)
  | now :: rest =>
      let '(ok, rl') := RateLimiter.check_rate_limit rl identifier now in
      let '(oks, rl'') := check_rate_limit_at rl' identifier rest in
      (ok :: oks, rl'')
  end.

(** A run of limiter operations, each with the clock reading it is made at. *)
Fixpoint limiter_run (rl : RateLimiter.t) (ops : list (limiter_op * Z))
    : RateLimiter.t :=
  match ops with
  | [] => rl
  | (op, now) :: rest => limiter_run (limiter_step op rl now) rest
  end.

(** A window in insertion order with no timestamp later than [now]. *)
Definition ordered_until (now : Z) (q : list Z) : Prop :=
  ascending q = true /\ Forall (fun t => t <= now) q.

(** ** Text

    [str] values are lists of characters; a character is its code point. *)

Abbreviation str := (list ascii).

Definition txt (s : string) : str := list_ascii_of_string s.

Definition ord (c : ascii) : N := N_of_ascii c.

Definition LF : ascii := ascii_of_N 10.

(** [str.isspace] on one character, which is also the class [\s]. *)
Definition is_space (c : ascii) : bool :=
  match ord c with
  | 9 | 10 | 11 | 12 | 13 | 28 | 29 | 30 | 31 | 32 | 133 | 160 => true
  | _ => false
  end%N.

(** The class [\d]: the decimal digits. *)
Definition is_digit (c : ascii) : bool :=
  ((48 <=? ord c) && (ord c <=? 57))%N.

(** The class [\w]: letters, digits and the underscore. *)
Definition is_word (c : ascii) : bool :=
  let n := ord c in
  (is_digit c
   || ((65 <=? n) && (n <=? 90)) || ((97 <=? n) && (n <=? 122)) || (n =? 95)
   || (n =? 170) || (n =? 178) || (n =? 179) || (n =? 181) || (n =? 185)
   || (n =? 186) || (n =? 188) || (n =? 189) || (n =? 190)
   || ((192 <=? n) && (n <=? 214)) || ((216 <=? n) && (n <=? 246))
   || (248 <=? n))%N.

(** [str.lower] on one character. *)
Definition lower (c : ascii) : ascii :=
  let n := ord c in
  if (((65 <=? n) && (n <=? 90))
      || ((192 <=? n) && (n <=? 222) && negb (n =? 215)))%N
  then ascii_of_N (n + 32) else c.

Definition str_lower (s : str) : str := map lower s.

Fixpoint lstrip (s : str) : str :=
  match s with
  | c :: s' => if is_space c then lstrip s' else s
  | [] => []
  end.

Definition rstrip (s : str) : str := rev (lstrip (rev s)).

(** [s.strip()] *)
Definition strip (s : str) : str := rstrip (lstrip s).

(** [s.split()]: the maximal runs of non-space characters.  [w] holds the
    current run, latest character first. *)
Fixpoint split_go (w : str) (s : str) : list str :=
  match s with
  | [] => match w with [] => [] | _ => [rev w] end
  | c :: s' =>
      if is_space c
      then match w with [] => split_go [] s' | _ => rev w :: split_go [] s' end
      else split_go (c :: w) s'
  end.

Definition split (s : str) : list str := split_go [] s.

(** [sep.join(l)] *)
Fixpoint join (sep : str) (l : list str) : str :=
  match l with
  | [] => []
  | [x] => x
  | x :: l' => x ++ sep ++ join sep l'
  end.

(** [s.split(c)] for a one-character separator. *)
Fixpoint split_on (c : ascii) (s : str) : list str :=
  match s with
  | [] => [[]]
  | x :: s' =>
      if Ascii.eqb x c then [] :: split_on c s'
      else match split_on c s' with
           | l :: ls => (x :: l) :: ls
           | [] => [[x]]
           end
  end.

(** [s.startswith(p)] *)
Fixpoint startswith (p s : str) : bool :=
  match p, s with
  | [], _ => true
  | a :: p', b :: s' => Ascii.eqb a b && startswith p' s'
  | _ :: _, [] => false
  end.

(** [needle in hay] *)
Fixpoint contains (needle hay : str) : bool :=
  startswith needle hay
  || match hay with
     | [] => false
     | _ :: hay' => contains needle hay'
     end.

(** [s[:n] + "..." if len(s) > n else s] *)
Definition ellipsis (n : nat) (s : str) : str :=
  if (n <? length s)%nat then firstn n s ++ txt "..." else s.

(** The number that a run of decimal digits writes. *)
Definition int_of_digits (s : str) : Z :=
  fold_left (fun acc c => 10 * acc + (Z.of_N (ord c) - 48)) s 0.

(** [sys.int_info.default_max_str_digits]: the interpreter converts no run
    of more digits, leading zeros counted.  The program leaves the limit as
    the interpreter sets it. *)
Definition int_max_str_digits : nat := 4300.

(** [int(s)] for a run of decimal digits, as the groups [(\d+)] are;
    [None] is the ValueError that a run over the limit raises. *)
Definition int (s : str) : option Z :=
  if (int_max_str_digits <? length s)%nat then None
  else Some (int_of_digits s).

(** ** Regular expressions, as Python's [re] module matches them

    A backtracking matcher in continuation-passing style.  The alternatives
    are tried in the order [re] tries them, so the first success is the match
    [re] reports.  Every quantifier of this program applies to a single
    character item, which is what [Rep] quantifies. *)

Record flags := { IGNORECASE : bool; DOTALL : bool }.

Definition no_flags : flags := {| IGNORECASE := false; DOTALL := false |}.
Definition flag_I : flags := {| IGNORECASE := true; DOTALL := false |}.
Definition flag_IS : flags := {| IGNORECASE := true; DOTALL := true |}.

Inductive atom :=
| Lit (c : ascii)             (* a literal character *)
| Cls (p : ascii -> bool)     (* a class: [...], \d, \s, \w *)
| Dot.                        (* . *)

Inductive regex :=
| Atom (a : atom)
| Rep (greedy : bool) (lo : nat) (hi : option nat) (a : atom)
| Cat (r1 r2 : regex)
| Alt (r1 r2 : regex)
| Eps
| Group (n : nat) (r : regex)  (* the n-th capturing group *)
| Bol                          (* ^ *)
| Eol                          (* $ *)
| WordB                        (* \b *)
| Ahead (r : regex).           (* (?=r) *)

Definition atom_ok (fl : flags) (a : atom) (c : ascii) : bool :=
  match a with
  | Lit l => if IGNORECASE fl then Ascii.eqb (lower c) (lower l)
             else Ascii.eqb c l
  | Cls p => p c
  | Dot => DOTALL fl || negb (Ascii.eqb c LF)
  end.

(** A position in the subject: the character before it, the text from it
    on, and the groups closed so far (latest first). *)
Record cursor := mk_cursor {
  prev : option ascii;
  rest : str;
  groups : list (nat * str)
}.

Definition orelse {A} (x : option A) (y : unit -> option A) : option A :=
  match x with
  | Some v => Some v
  | None => y tt
  end.

(** [a{lo,hi}], greedy or lazy, followed by the continuation [k]. *)
Fixpoint rep (fl : flags) (greedy : bool) (a : atom) (lo : nat)
    (hi : option nat) (k : cursor -> option cursor)
    (gs : list (nat * str)) (pv : option ascii) (s : str) {struct s}
    : option cursor :=
  let stop (_ : unit) :=
    match lo with
    | O => k (mk_cursor pv s gs)
    | S _ => None
    end in
  let more (_ : unit) :=
    match hi, s with
    | Some O, _ => None
    | _, c :: s' =>
        if atom_ok fl a c
        then rep fl greedy a (Nat.pred lo) (option_map Nat.pred hi) k gs (Some c) s'
        else None
    | _, [] => None
    end in
  if greedy then orelse (more tt) stop else orelse (stop tt) more.

Definition is_word_opt (c : option ascii) : bool :=
  match c with
  | Some c => is_word c
  | None => false
  end.

Fixpoint exec (fl : flags) (r : regex) (k : cursor -> option cursor)
    (x : cursor) {struct r} : option cursor :=
  match r with
  | Atom a =>
      match rest x with
      | c :: s' =>
          if atom_ok fl a c then k (mk_cursor (Some c) s' (groups x)) else None
      | [] => None
      end
  | Rep greedy lo hi a => rep fl greedy a lo hi k (groups x) (prev x) (rest x)
  | Cat r1 r2 => exec fl r1 (exec fl r2 k) x
  | Alt r1 r2 => orelse (exec fl r1 k x) (fun _ => exec fl r2 k x)
  | Eps => k x
  | Group n r' =>
      exec fl r'
        (fun y =>
           k (mk_cursor (prev y) (rest y)
                ((n, firstn (length (rest x) - length (rest y)) (rest x))
                   :: groups y)))
        x
  | Bol => match prev x with None => k x | Some _ => None end
  | Eol =>
      match rest x with
      | [] => k x
      | [c] => if Ascii.eqb c LF then k x else None
      | _ => None
      end
  | WordB =>
      if xorb (is_word_opt (prev x)) (is_word_opt (head (rest x)))
      then k x else None
  | Ahead r' =>
      match exec fl r' Some x with
      | Some _ => k x
      | None => None
      end
  end.

(** A match at the position [(pv, s)], if there is one. *)
Definition match_here (fl : flags) (r : regex) (pv : option ascii) (s : str)
    : option cursor :=
  exec fl r Some (mk_cursor pv s []).

(** [m.group(n)] *)
Fixpoint group (n : nat) (gs : list (nat * str)) : option str :=
  match gs with
  | [] => None
  | (i, s) :: gs' => if Nat.eqb i n then Some s else group n gs'
  end.

(** [re.search]: the match at the leftmost position that has one. *)
Fixpoint search_from (fl : flags) (r : regex) (pv : option ascii) (s : str)
    : option cursor :=
  match match_here fl r pv s with
  | Some y => Some y
  | None =>
      match s with
      | c :: s' => search_from fl r (Some c) s'
      | [] => None
      end
  end.

Definition search (fl : flags) (r : regex) (s : str) : option cursor :=
  search_from fl r None s.

(** The replacement templates of this program: a fixed text or [\1]. *)
Inductive template :=
| Text (s : str)
| Backref (n : nat).

Definition expand (tpl : template) (y : cursor) : str :=
  match tpl with
  | Text s => s
  | Backref n => default [] (group n (groups y))
  end.

(** [re.sub]: every non-overlapping match, left to right, is replaced.
    [skip] counts the characters of the current match still to be passed
    over.  None of the patterns substituted here matches the empty string;
    after an empty match the scan moves on by one character. *)
Fixpoint sub_from (fl : flags) (r : regex) (tpl : template) (skip : nat)
    (pv : option ascii) (s : str) {struct s} : str :=
  match skip with
  | S n =>
      match s with
      | c :: s' => sub_from fl r tpl n (Some c) s'
      | [] => []
      end
  | O =>
      match match_here fl r pv s with
      | Some y =>
          expand tpl y ++
          match s with
          | c :: s' =>
              match (length s - length (rest y))%nat with
              | O => c :: sub_from fl r tpl 0 (Some c) s'
              | S n => sub_from fl r tpl n (Some c) s'
              end
          | [] => []
          end
      | None =>
          match s with
          | c :: s' => c :: sub_from fl r tpl 0 (Some c) s'
          | [] => []
          end
      end
  end.

Definition sub (fl : flags) (r : regex) (tpl : template) (s : str) : str :=
  sub_from fl r tpl 0 None s.

(** Pattern syntax. *)
Definition Star (a : atom) : regex := Rep true 0 None a.
Definition Plus (a : atom) : regex := Rep true 1 None a.
Definition Opt (a : atom) : regex := Rep true 0 (Some 1%nat) a.
Definition LazyStar (a : atom) : regex := Rep false 0 None a.

Fixpoint Lits (s : str) : regex :=
  match s with
  | [] => Eps
  | [c] => Atom (Lit c)
  | c :: s' => Cat (Atom (Lit c)) (Lits s')
  end.

Fixpoint Seq (rs : list regex) : regex :=
  match rs with
  | [] => Eps
  | [r] => r
  | r :: rs' => Cat r (Seq rs')
  end.

Fixpoint Alts (rs : list regex) : regex :=
  match rs with
  | [] => Eps
  | [r] => r
  | r :: rs' => Alt r (Alts rs')
  end.

Definition Word (s : string) : regex := Lits (txt s).

Definition one_of (s : string) (c : ascii) : bool :=
  existsb (Ascii.eqb c) (txt s).

Definition none_of (s : string) (c : ascii) : bool := negb (one_of s c).

(** ** bot/fact_checker.py *)

(** The prompts are fixed templates around the claim; a prompt is modelled
    by its template and the claim it carries. *)
Inductive prompt :=
| FactCheckPrompt (claim : str)
| ExposePrompt (claim : str).

(** The hosted model: the text of its reply, [None] when the call raises. *)
Definition gemini := prompt -> option str.

Record fact_check_result := mk_fact_check {
  accuracy : str;
  confidence : Z;
  explanation : str;
  sources : list str
}.

Record expose_result := mk_expose {
  expose_type : str;
  expose_confidence : Z;
  analysis : str;
  evidence : list str
}.

(** What a handler does, in the order it does it. *)
Inductive event :=
| EvCommands                                       (* process_commands *)
| EvAdmission (identifier : string) (allowed : bool) (* check_rate_limit *)
| EvTrigger (fired : bool)                         (* _should_fact_check *)
| EvNormalized (cleaned : str)                     (* _clean_claim *)
| EvRequest (p : prompt)                           (* the call to the model *)
| EvEmbed (r : fact_check_result) (auto : bool)    (* the reply with a result *)
| EvNotFound.                                      (* discord.NotFound *)

Module FactChecker.

(** [<@[!&]?\d+>] *)
Definition mention_re : regex :=
  Seq [Word "<@"; Opt (Cls (one_of "!&")); Plus (Cls is_digit); Word ">"].

(** [<#\d+>] *)
Definition channel_re : regex :=
  Seq [Word "<#"; Plus (Cls is_digit); Word ">"].

(** [<:\w+:\d+>] *)
Definition emoji_re : regex :=
  Seq [Word "<:"; Plus (Cls is_word); Word ":"; Plus (Cls is_digit); Word ">"].

(** [```[\s\S]*?```] *)
Definition code_block_re : regex :=
  Seq [Word "```"; LazyStar (Cls (fun c => is_space c || negb (is_space c)));
       Word "```"].

(** [`[^`]*`] *)
Definition inline_code_re : regex :=
  Seq [Word "`"; Star (Cls (none_of "`")); Word "`"].

(** [\*{1,2}(G)\*{1,2}] with the group G = [^*]* *)
Definition bold_re : regex :=
  Seq [Rep true 1 (Some 2%nat) (Lit "*"); Group 1 (Star (Cls (none_of "*")));
       Rep true 1 (Some 2%nat) (Lit "*")].

(** [_{1,2}(G)_{1,2}] with the group G = [^_]* *)
Definition underline_re : regex :=
  Seq [Rep true 1 (Some 2%nat) (Lit "_"); Group 1 (Star (Cls (none_of "_")));
       Rep true 1 (Some 2%nat) (Lit "_")].

(** [~~(G)~~] with the group G = [^~]* *)
Definition strike_re : regex :=
  Seq [Word "~~"; Group 1 (Star (Cls (none_of "~"))); Word "~~"].

(** The substitutions of [_clean_claim], in source order. *)
Definition markup_passes : list (regex * template) :=
  [(mention_re, Text []); (channel_re, Text []); (emoji_re, Text []);
   (code_block_re, Text []); (inline_code_re, Text []);
   (bold_re, Backref 1); (underline_re, Backref 1); (strike_re, Backref 1)].

Definition strip_markup (claim : str) : str :=
  fold_left (fun c '(r, tpl) => sub no_flags r tpl c) markup_passes claim.

Definition _clean_claim (claim : str) : str :=
  let claim := strip_markup claim in
  let claim := join (txt " ") (split claim) in
  strip claim.

(** [response.text] when the call returned a non-empty text. *)
Definition _call_gemini_async (model : gemini) (p : prompt) : option str :=
  match model p with
  | Some (c :: s) => Some (c :: s)
  | _ => None
  end.

(** [ACCURACY:\s*([^\n]+)], IGNORECASE *)
Definition accuracy_re : regex :=
  Seq [Word "ACCURACY:"; Star (Cls is_space);
       Group 1 (Plus (Cls (fun c => negb (Ascii.eqb c LF))))].

(** [CONFIDENCE:\s*(\d+)], IGNORECASE *)
Definition confidence_re : regex :=
  Seq [Word "CONFIDENCE:"; Star (Cls is_space); Group 1 (Plus (Cls is_digit))].

(** [EXPLANATION:\s*(.*?)(?=SOURCES:|$)], IGNORECASE | DOTALL *)
Definition explanation_re : regex :=
  Seq [Word "EXPLANATION:"; Star (Cls is_space); Group 1 (LazyStar Dot);
       Ahead (Alt (Word "SOURCES:") Eol)].

(** [SOURCES:\s*(.*?)$], IGNORECASE | DOTALL *)
Definition sources_re : regex :=
  Seq [Word "SOURCES:"; Star (Cls is_space); Group 1 (LazyStar Dot); Eol].

(** [^[-•*\d+.\s]+] on the character range of the model, which the
    bullet U+2022 of the class lies outside of. *)
Definition bullet_char (c : ascii) : bool :=
  one_of "-*+." c || is_digit c || is_space c.

Definition bullet_re : regex := Seq [Bol; Plus (Cls bullet_char)].

(** [\n+] *)
Definition newlines_re : regex := Plus (Lit LF).

(** [m.group(1)] of a successful search. *)
Definition group1 (m : cursor) : str := default [] (group 1 (groups m)).

(** One round of the loop over [sources_text.split('\n')]. *)
Definition source_line (acc : list str) (line : str) : list str :=
  let line := strip line in
  match line with
  | [] => acc
  | _ :: _ =>
      if startswith (txt "important") (str_lower line) then acc
      else
        let line := strip (sub no_flags bullet_re (Text []) line) in
        match line with
        | [] => acc
        | _ :: _ => acc ++ [line]
        end
  end.

Definition collect_sources (sources_text : str) : list str :=
  fold_left source_line (split_on LF sources_text) [].

(** [_parse_fact_check_response].  The one operation of the [try] block
    that can raise on a [str] is [int], on a run of digits over the limit
    of the interpreter; the dictionary [result] is updated in place, so the
    handler finds in it what the block has stored before, and puts the
    response, cut after 500 characters, in the explanation. *)
Definition _parse_fact_check_response (response : str) : fact_check_result :=
  let result := mk_fact_check (txt "Unknown") 0 [] [] in
  let result :=
    match search flag_I accuracy_re response with
    | Some m => mk_fact_check (strip (group1 m)) (confidence result)
                  (explanation result) (sources result)
    | None => result
    end in
  match
    match search flag_I confidence_re response with
    | Some m =>
        match int (group1 m) with
        | Some n => Some (mk_fact_check (accuracy result) n
                            (explanation result) (sources result))
        | None => None
        end
    | None => Some result
    end
  with
  | None =>                                     (* except Exception *)
      mk_fact_check (accuracy result) (confidence result)
        (ellipsis 500 response) (sources result)
  | Some result =>
      let result :=
        match search flag_IS explanation_re response with
        | Some m =>
            let explanation := strip (group1 m) in
            let explanation :=
              sub no_flags newlines_re (Text (txt " ")) explanation in
            let explanation := join (txt " ") (split explanation) in
            mk_fact_check (accuracy result) (confidence result)
              explanation (sources result)
        | None => result
        end in
      match search flag_IS sources_re response with
      | Some m =>
          let sources := collect_sources (strip (group1 m)) in
          mk_fact_check (accuracy result) (confidence result)
            (explanation result) (firstn 4 sources)
      | None => result
      end
  end.

(** [(\d+)%] *)
Definition percent_re : regex :=
  Seq [Group 1 (Plus (Cls is_digit)); Word "%"].

(** The value the handler of [_parse_expose_response] returns. *)
Definition expose_parse_failure : expose_result :=
  mk_expose (txt "unknown") 0 (txt "Failed to parse expose analysis") [].

(** [_parse_expose_response]; as above, [int] is the one operation of the
    [try] block that can raise, and the handler then returns the fixed
    record. *)
Definition _parse_expose_response (response : str) : expose_result :=
  let expose_type :=
    if contains (txt "debunked") (str_lower response) then txt "debunked"
    else if contains (txt "supported") (str_lower response) then txt "supported"
    else txt "unknown" in
  match
    match search no_flags percent_re response with
    | Some m => int (group1 m)
    | None => Some 50
    end
  with
  | Some confidence =>
      mk_expose expose_type confidence (ellipsis 500 response) []
  | None => expose_parse_failure                (* except Exception *)
  end.

(** [check_claim]: the result, and what was done to obtain it. *)
Definition check_claim (model : gemini) (claim : str)
    : option fact_check_result * list event :=
  let cleaned_claim := _clean_claim claim in
  match cleaned_claim with
  | [] => (None, [EvNormalized cleaned_claim])
  | _ :: _ =>
      if (length (strip cleaned_claim) <? 10)%nat
      then (None, [EvNormalized cleaned_claim])
      else
        let p := FactCheckPrompt cleaned_claim in
        match _call_gemini_async model p with
        | Some response =>
            (Some (_parse_fact_check_response response),
             [EvNormalized cleaned_claim; EvRequest p])
        | None => (None, [EvNormalized cleaned_claim; EvRequest p])
        end
  end.

End FactChecker.

(** ** config/settings.py *)

Record bot_config := mk_config {
  auto_fact_check : bool;
  respond_to_bots : bool;
  rate_limit_max_requests : Z;
  rate_limit_time_window : Z;
  global_rate_limit_per_minute : Z;
  trigger_keywords : list str
}.

(** [BOT_CONFIG] when the environment sets none of its variables. *)
Definition BOT_CONFIG : bot_config :=
  mk_config true false 5 300 30 (map txt [
    "vaccine"; "vaccines"; "vaccination"; "covid"; "coronavirus";
    "hydroxychloroquine"; "ivermectin"; "miracle cure"; "natural immunity";
    "microchip"; "magnetic"; "5g causes"; "essential oils cure";
    "election fraud"; "stolen election"; "rigged election"; "voter fraud";
    "deep state"; "false flag"; "crisis actor"; "fake news media";
    "climate change hoax"; "global warming fake"; "flat earth"; "chemtrails";
    "moon landing fake"; "evolution hoax"; "studies show"; "research proves";
    "scientists say"; "doctors hate"; "they don't want you to know";
    "hidden truth"; "cover up"; "government conspiracy"; "get rich quick";
    "guaranteed profit"; "investment opportunity"; "crypto scam";
    "ponzi scheme"; "cure cancer"; "detox"; "cleanse"; "alkaline water";
    "anti-aging"; "weight loss pill"; "burn fat fast"
  ]).

(** ** bot/discord_bot.py *)

Record message := mk_message {
  author_is_self : bool;          (* message.author == self.user *)
  author_bot : bool;              (* message.author.bot *)
  author_id : string;             (* str(message.author.id) *)
  content : str;
  reference : option (option str);
    (* the content of the message replied to; [Some None] when fetching
       it raises discord.NotFound; [None] when the message is no reply *)
  mentions_self : bool            (* self.user in message.mentions *)
}.

Module FactCheckerBot.

(** The mutable part of the bot: the limiter built by [__init__]. *)
Record t := mk { rate_limiter : RateLimiter.t }.

Definition init (cfg : bot_config) : t :=
  mk (RateLimiter.init (rate_limit_max_requests cfg)
        (rate_limit_time_window cfg)).

(** The [patterns] of [_should_fact_check], in source order. *)
Definition patterns : list regex :=
  [ Seq [WordB;
         Group 1 (Alts [Seq [Word "studie"; Opt (Lit "s"); Word " show"];
                        Word "research proves"; Word "scientists say"]);
         WordB];
    Seq [WordB; Group 1 (Alts [Word "breaking"; Word "urgent"; Word "exclusive"]);
         WordB; Star Dot; WordB;
         Group 2 (Alts [Word "news"; Word "report"]); WordB];
    Seq [WordB;
         Group 1 (Alts [Word "they don't want you to know"; Word "hidden truth";
                        Seq [Word "cover"; Opt (Cls (one_of "- ")); Word "up"]]);
         WordB];
    Seq [WordB;
         Group 1 (Alts [Word "miracle cure"; Word "secret remedy";
                        Word "doctors hate"]);
         WordB];
    Seq [WordB;
         Group 1 (Seq [Plus (Cls is_digit); Word "% of ";
                       Group 2 (Alts [Word "people"; Word "doctors";
                                      Word "scientists"])]);
         WordB] ].

Definition _should_fact_check (cfg : bot_config) (content : str) : bool :=
  let content_lower := str_lower content in
  existsb (fun keyword => contains (str_lower keyword) content_lower)
    (trigger_keywords cfg)
  || existsb (fun pattern => bool_decide (is_Some (search no_flags pattern content_lower)))
       patterns.

(** [check_claim], then the reply when there is a result. *)
Definition _auto_fact_check (model : gemini) (msg : message) : list event :=
  let '(result, evs) := FactChecker.check_claim model (content msg) in
  match result with
  | Some r => evs ++ [EvEmbed r true]
  | None => evs
  end.

Definition _handle_reply_with_mention (model : gemini) (replied : option str)
    (msg : message) : list event :=
  match replied with
  | None => [EvNotFound]
  | Some replied_content =>
      let combined_content := replied_content ++ LF :: content msg in
      let '(result, evs) := FactChecker.check_claim model combined_content in
      match result with
      | Some r => evs ++ [EvEmbed r false]
      | None => evs
      end
  end.

(** [on_message] at time [current_time]: the bot afterwards and the trace
    of the call.  What the dispatched command does is behind [EvCommands];
    no command reads or writes the limiter. *)
Definition on_message (cfg : bot_config) (model : gemini) (self : t)
    (msg : message) (current_time : Z) : t * list event :=
  if author_is_self msg then (self, [])
  else if author_bot msg && negb (respond_to_bots cfg) then (self, [])
  else
    match reference msg, mentions_self msg with
    | Some replied, true =>
        (self, _handle_reply_with_mention model replied msg)
    | _, _ =>
        if negb (auto_fact_check cfg) then (self, [EvCommands])
        else
          let '(allowed, rl) :=
            RateLimiter.check_rate_limit (rate_limiter self) (author_id msg)
              current_time in
          if negb allowed
          then (mk rl, [EvCommands; EvAdmission (author_id msg) false])
          else if _should_fact_check cfg (content msg)
          then (mk rl, [EvCommands; EvAdmission (author_id msg) true;
                        EvTrigger true] ++ _auto_fact_check model msg)
          else (mk rl, [EvCommands; EvAdmission (author_id msg) true;
                        EvTrigger false])
    end.

End FactCheckerBot.

(** ** bot/commands.py *)

(** What [truthiness_command] sends back. *)
Inductive reply :=
| UsageHelp
| ClaimTooLong
| ClaimTooShort
| ResultEmbed (r : fact_check_result)
| AnalysisFailed.

(** [truthiness_command(ctx, claim)]; [claim] is [None] when the command
    came without text. *)
Definition truthiness_command (model : gemini) (claim : option str)
    : reply * list event :=
  match claim with
  | None | Some [] => (UsageHelp, [])
  | Some claim =>
      if (1000 <? length claim)%nat then (ClaimTooLong, [])
      else if (length (strip claim) <? 10)%nat then (ClaimTooShort, [])
      else
        let '(result, evs) := FactChecker.check_claim model claim in
        match result with
        | Some r => (ResultEmbed r, evs)
        | None => (AnalysisFailed, evs)
        end
  end.

(** The position of an event in the pipeline of [on_message]. *)
Definition stage (e : event) : Z :=
  match e with
  | EvCommands => 0
  | EvAdmission _ _ => 1
  | EvTrigger _ => 2
  | EvNormalized _ => 3
  | EvRequest _ => 4
  | EvEmbed _ _ => 5
  | EvNotFound => 5
  end.

(** The characters that open a markup token of [_clean_claim]. *)
Definition markup_char (c : ascii) : bool := one_of "<`*_~" c.

Definition markup_free (s : str) : Prop :=
  Forall (fun c => markup_char c = false) s.

(** The item a match of the pattern has to begin with, when there is one. *)
Fixpoint leading (r : regex) : option atom :=
  match r with
  | Atom a => Some a
  | Rep _ (S _) _ a => Some a
  | Cat r1 _ => leading r1
  | Group _ r' => leading r'
  | _ => None
  end.

(** A word of [s.split()]: not empty, no white space in it. *)
Definition is_token (w : str) : Prop :=
  w <> [] /\ Forall (fun c => is_space c = false) w.

(** ** The parsers, in the words of the specification *)

(** The first run of digits that a percent sign follows directly.  [run]
    holds the digits of the current run, latest first. *)
Fixpoint first_percent_token (run : str) (s : str) : option str :=
  match s with
  | [] => None
  | c :: s' =>
      if is_digit c then first_percent_token (c :: run) s'
      else if Ascii.eqb c "%" then
        match run with
        | [] => first_percent_token [] s'
        | _ :: _ => Some (rev run)
        end
      else first_percent_token [] s'
  end.

Fixpoint drop_while (p : ascii -> bool) (s : str) : str :=
  match s with
  | c :: s' => if p c then drop_while p s' else s
  | [] => []
  end.

Fixpoint take_while (p : ascii -> bool) (s : str) : str :=
  match s with
  | c :: s' => if p c then c :: take_while p s' else []
  | [] => []
  end.

(** What one line of the SOURCES section contributes: nothing when it is
    blank or begins with the word "important", else the line without its
    leading bullet and numbering glyphs, unless nothing is left of it. *)
Definition source_entry (line : str) : option str :=
  let line := strip line in
  match line with
  | [] => None
  | _ :: _ =>
      if startswith (txt "important") (str_lower line) then None
      else match strip (drop_while FactChecker.bullet_char line) with
           | [] => None
           | entry => Some entry
           end
  end.

Definition listed_sources (sources_text : str) : list str :=
  firstn 4 (omap source_entry (split_on LF sources_text)).

(** The digits behind the first CONFIDENCE header are more than [int]
    converts, so that the handler of the parser is entered. *)
Definition confidence_raises (response : str) : bool :=
  match search flag_I FactChecker.confidence_re response with
  | Some m => (int_max_str_digits <? length (FactChecker.group1 m))%nat
  | None => false
  end.

(** An entry is not empty and begins with none of the glyphs. *)
Definition glyph_free (entry : str) : Prop :=
  match entry with
  | c :: _ => FactChecker.bullet_char c = false
  | [] => False
  end.

(** The text does not begin with a character of the class. *)
Definition not_headed (cls : ascii -> bool) (s : str) : Prop :=
  match s with
  | c :: _ => cls c = false
  | [] => True
  end.

(** The character a cursor has behind it after the text [p]. *)
Definition prev_after (p : str) (pv : option ascii) : option ascii :=
  fold_left (fun _ c => Some c) p pv.

(** The clock readings of the calls that [check_rate_limit] answers with
    [True], for successive calls of one identifier at the given times. *)
Fixpoint granted_at (rl : RateLimiter.t) (identifier : string) (times : list Z)
    : list Z :=
  match times with
  | [] => []
  | now :: rest =>
      let '(ok, rl') := RateLimiter.check_rate_limit rl identifier now in
      (if ok then [now] else []) ++ granted_at rl' identifier rest
  end.

(** The timestamp lies in the window of length [w] that ends at [T]. *)
Definition in_trailing (T w a : Z) : bool := (T - w <? a) && (a <=? T).

(** The per-identifier limiter with a window of 60 seconds that keeps the
    deque of a global limiter under the key [k]. *)
Definition keyed (g : GlobalRateLimiter.t) (k : string) : RateLimiter.t :=
  RateLimiter.mk (GlobalRateLimiter.max_requests_per_minute g) 60
    {[ k := GlobalRateLimiter.requests g ]}.

(** The clock readings of the calls that [check_global_rate_limit] answers
    with [True], for successive calls at the given times. *)
Fixpoint global_granted_at (g : GlobalRateLimiter.t) (times : list Z) : list Z :=
  match times with
  | [] => []
  | now :: rest =>
      let '(ok, g') := GlobalRateLimiter.check_global_rate_limit g now in
      (if ok then [now] else []) ++ global_granted_at g' rest
  end.

(** One round of the loop of [get_stats] over the tracked windows. *)
Definition stats_round (threshold : Z) (_ : string) (user_requests : list Z)
    (acc : nat * nat) : nat * nat :=
  let '(active, total) := acc in
  let n := RateLimiter.recent_requests threshold user_requests in
  if (0 <? n)%nat then (S active, (total + n)%nat) else (active, total).

(** ** More of bot/fact_checker.py, bot/discord_bot.py and bot/commands.py *)

(** Words joined by single spaces. *)
Definition single_spaced (s : str) : Prop :=
  exists tokens, Forall is_token tokens /\ s = join (txt " ") tokens.

(** [EXPOSE_TYPE:\s*([^\n]+)], IGNORECASE *)
Definition expose_type_re : regex :=
  Seq [Word "EXPOSE_TYPE:"; Star (Cls is_space);
       Group 1 (Plus (Cls (fun c => negb (Ascii.eqb c LF))))].

(** [ANALYSIS:\s*(.*?)(?=EVIDENCE:|$)], IGNORECASE | DOTALL *)
Definition analysis_re : regex :=
  Seq [Word "ANALYSIS:"; Star (Cls is_space); Group 1 (LazyStar Dot);
       Ahead (Alt (Word "EVIDENCE:") Eol)].

(** [EVIDENCE:\s*(.*?)$], IGNORECASE | DOTALL *)
Definition evidence_re : regex :=
  Seq [Word "EVIDENCE:"; Star (Cls is_space); Group 1 (LazyStar Dot); Eol].

(** [_parse_expose_response_old]; the loop over the lines of the EVIDENCE
    section is the loop of the SOURCES section, and the handler, entered
    when [int] raises, puts the response, cut after 500 characters, in the
    analysis of the dictionary as the [try] block has left it. *)
Definition _parse_expose_response_old (response : str) : expose_result :=
  let result := mk_expose (txt "Unknown") 0 [] [] in
  let result :=
    match search flag_I expose_type_re response with
    | Some m => mk_expose (strip (FactChecker.group1 m)) (expose_confidence result)
                  (analysis result) (evidence result)
    | None => result
    end in
  match
    match search flag_I FactChecker.confidence_re response with
    | Some m =>
        match int (FactChecker.group1 m) with
        | Some n => Some (mk_expose (expose_type result) n
                            (analysis result) (evidence result))
        | None => None
        end
    | None => Some result
    end
  with
  | None =>                                     (* except Exception *)
      mk_expose (expose_type result) (expose_confidence result)
        (ellipsis 500 response) (evidence result)
  | Some result =>
      let result :=
        match search flag_IS analysis_re response with
        | Some m =>
            let analysis := strip (FactChecker.group1 m) in
            let analysis :=
              sub no_flags FactChecker.newlines_re (Text (txt " ")) analysis in
            let analysis := join (txt " ") (split analysis) in
            mk_expose (expose_type result) (expose_confidence result)
              analysis (evidence result)
        | None => result
        end in
      match search flag_IS evidence_re response with
      | Some m =>
          let evidence :=
            FactChecker.collect_sources (strip (FactChecker.group1 m)) in
          mk_expose (expose_type result) (expose_confidence result)
            (analysis result) (firstn 4 evidence)
      | None => result
      end
  end.

(** The colours of the embeds. *)
Inductive color := green | red | orange | blue.

(** What [_create_truthiness_embed] puts into the embed.  The sources are
    kept as the sources shown and the count announced behind them, not as
    the text they are formatted to. *)
Record truthiness_embed := mk_embed {
  embed_auto : bool;                  (* the " (Auto)" of the title *)
  embed_color : color;
  embed_claim : str;
  embed_assessment : str;
  embed_percentage : Z;
  embed_explanation : str;
  embed_sources : option (list str * option nat)
}.

(** [x in l] for a list of strings. *)
Definition str_in (x : str) (l : list string) : bool :=
  existsb (fun y => bool_decide (x = txt y)) l.

(** The colour chosen for an accuracy, with the sets of the source. *)
Definition accuracy_color (accuracy : str) : color :=
  let accuracy := str_lower accuracy in
  if str_in accuracy ["true"; "mostly true"] then green
  else if str_in accuracy ["false"; "mostly false"] then red
  else if str_in accuracy ["mixed"; "partially true"] then orange
  else blue.

Definition _create_truthiness_embed (claim : str) (result : fact_check_result)
    (auto_check : bool) : truthiness_embed :=
  let explanation :=
    if (1024 <? length (explanation result))%nat
    then firstn 1021 (explanation result) ++ txt "..."
    else explanation result in
  let sources_field :=
    match sources result with
    | [] => None
    | _ :: _ =>
        Some (firstn 3 (sources result),
              if (3 <? length (sources result))%nat
              then Some (length (sources result) - 3)%nat else None)
    end in
  mk_embed auto_check (accuracy_color (accuracy result)) claim
    (accuracy result) (confidence result) explanation sources_field.

(** What [quick_check_command] sends back; the mark stands for the emoji
    and the colour chosen together. *)
Inductive quick_reply :=
| QuickUsage
| QuickTooLong
| QuickResult (c : color) (accuracy : str) (confidence : Z) (brief : option str)
| QuickFailed.

(** [quick_check_command(ctx, claim)] *)
Definition quick_check_command (model : gemini) (claim : option str)
    : quick_reply * list event :=
  match claim with
  | None | Some [] => (QuickUsage, [])
  | Some claim =>
      if (500 <? length claim)%nat then (QuickTooLong, [])
      else
        let '(result, evs) := FactChecker.check_claim model claim in
        match result with
        | Some r =>
            (QuickResult (accuracy_color (accuracy r)) (accuracy r)
               (confidence r)
               (match explanation r with
                | [] => None
                | _ :: _ => Some (ellipsis 200 (explanation r))
                end), evs)
        | None => (QuickFailed, evs)
        end
  end.

Definition is_request (e : event) : bool :=
  match e with
  | EvRequest _ => true
  | _ => false
  end.

(** A plain message of a user: no bot, no reply, no mention. *)
Definition user_message (author : string) (text : str) : message :=
  mk_message false false author text None false.

(** The clock readings of the messages of one author for which the
    automatic path of [on_message] sends a request to the model, for
    successive messages given with the time they arrive at.  The commands
    that [process_commands] runs send requests of their own, which the
    trace of [on_message] does not list; [process_commands] runs a command
    only for a text that begins with the command prefix. *)
Fixpoint automatic_requests_at (cfg : bot_config) (model : gemini)
    (self : FactCheckerBot.t) (author : string) (msgs : list (str * Z))
    : list Z :=
  match msgs with
  | [] => []
  | (text, now) :: rest =>
      let '(self', trace) :=
        FactCheckerBot.on_message cfg model self (user_message author text) now in
      (if existsb is_request trace then [now] else [])
        ++ automatic_requests_at cfg model self' author rest
  end.

(** ** settings.py *)

(** A Python float as far as its comparisons with an [int] go: a finite
    double is [m * 2 ^ e] for integers [m] and [e]; [float()] also reads
    [inf], [-inf] and [nan] from the environment. *)
Inductive pyfloat :=
| Finite (m e : Z)
| PosInf
| NegInf
| NaN.

(** [x < n] and [x > n] for a float [x] and an [int] [n]; every comparison
    with [nan] is [False]. *)
Definition float_lt_int (x : pyfloat) (n : Z) : bool :=
  match x with
  | Finite m e => if 0 <=? e then m * 2 ^ e <? n else m <? n * 2 ^ (- e)
  | PosInf => false
  | NegInf => true
  | NaN => false
  end.

Definition float_gt_int (x : pyfloat) (n : Z) : bool :=
  match x with
  | Finite m e => if 0 <=? e then n <? m * 2 ^ e else n * 2 ^ (- e) <? m
  | PosInf => true
  | NegInf => false
  | NaN => false
  end.

(** What [validate_config] reads: the environment, and the values that the
    module has loaded into [BOT_CONFIG] and [FACT_CHECK_CONFIG]. *)
Record settings := mk_settings {
  getenv : str -> option str;
  bot : bot_config;
  command_prefix : str;
  temperature : pyfloat;
  max_tokens : Z
}.

(** [not v] for the value of [os.getenv]: [None] and the empty string. *)
Definition unset (v : option str) : bool :=
  match v with
  | Some (_ :: _) => false
  | _ => true
  end.

Definition required_vars : list str :=
  [txt "DISCORD_TOKEN"; txt "GEMINI_API_KEY"].

Definition missing_variable (var : str) : str :=
  txt "Missing required environment variable: " ++ var.

Definition bad_max_requests : str :=
  txt "RATE_LIMIT_MAX_REQUESTS must be greater than 0".

Definition bad_time_window : str :=
  txt "RATE_LIMIT_TIME_WINDOW must be greater than 0".

Definition bad_temperature : str :=
  txt "GEMINI_TEMPERATURE must be between 0 and 1".

Definition bad_max_tokens : str :=
  txt "GEMINI_MAX_TOKENS must be greater than 0".

Definition bad_command_prefix : str :=
  txt "COMMAND_PREFIX must be 1-5 characters long".

Definition validate_config (s : settings) : list str :=
  let errors :=
    flat_map (fun var => if unset (getenv s var)
                         then [missing_variable var] else [])
      required_vars in
  let errors :=
    if rate_limit_max_requests (bot s) <=? 0
    then errors ++ [bad_max_requests] else errors in
  let errors :=
    if rate_limit_time_window (bot s) <=? 0
    then errors ++ [bad_time_window] else errors in
  let errors :=
    if float_lt_int (temperature s) 0 || float_gt_int (temperature s) 1
    then errors ++ [bad_temperature] else errors in
  let errors :=
    if max_tokens s <=? 0
    then errors ++ [bad_max_tokens] else errors in
  let errors :=
    if match command_prefix s with [] => true | _ => false end
       || (5 <? length (command_prefix s))%nat
    then errors ++ [bad_command_prefix] else errors in
  errors.

(** * Properties *)

(** ** Lemmas on the eviction loop *)

Lemma ascending_cons a q :
  ascending (a :: q) = true -> Forall (fun b => a <= b) q /\ ascending q = true.
Proof.
  revert a. induction q as [|b q IH]; intros a H.
  - split; [constructor | reflexivity].
  - cbn [ascending] in H. apply andb_true_iff in H as [Hab Hq].
    apply Z.leb_le in Hab. split; [|exact Hq].
    constructor; [exact Hab|].
    destruct (IH b Hq) as [Hall _].
    eapply Forall_impl; [exact Hall|]. cbv beta. intros; lia.
Qed.

Lemma popleft_while_suffix thr q : exists p, q = p ++ popleft_while thr q.
Proof.
  induction q as [|a q [p Hp]]; [exists []; reflexivity|].
  cbn [popleft_while]. destruct (a <=? thr).
  - exists (a :: p). cbn. congruence.
  - exists []. reflexivity.
Qed.

Lemma popleft_while_filter thr q :
  ascending q = true ->
  popleft_while thr q = List.filter (fun t => thr <? t) q.
Proof.
  induction q as [|a q IH]; intros Hq; [reflexivity|].
  destruct (ascending_cons _ _ Hq) as [Hall Hq'].
  cbn [popleft_while List.filter].
  destruct (Z.leb_spec a thr) as [Hle|Hgt].
  - assert ((thr <? a) = false) as -> by (apply Z.ltb_ge; lia).
    apply IH, Hq'.
  - assert ((thr <? a) = true) as -> by (apply Z.ltb_lt; lia).
    f_equal. symmetry. apply forallb_filter_id.
    apply forallb_forall. intros x Hx.
    rewrite List.Forall_forall in Hall. specialize (Hall x Hx).
    apply Z.ltb_lt. lia.
Qed.

Lemma popleft_while_fresh thr q t :
  ascending q = true -> In t (popleft_while thr q) -> thr < t.
Proof.
  intros Hq Hin. rewrite popleft_while_filter in Hin by exact Hq.
  apply filter_In in Hin as [_ H]. apply Z.ltb_lt in H. exact H.
Qed.

Lemma popleft_while_ascending thr q :
  ascending q = true -> ascending (popleft_while thr q) = true.
Proof.
  induction q as [|a q IH]; intros Hq; [reflexivity|].
  cbn [popleft_while]. destruct (a <=? thr); [|exact Hq].
  apply IH. apply (ascending_cons _ _ Hq).
Qed.

Lemma ascending_snoc q now :
  ascending q = true -> Forall (fun t => t <= now) q ->
  ascending (q ++ [now]) = true.
Proof.
  induction q as [|a q IH]; intros Hq Hall; [reflexivity|].
  inversion Hall as [|? ? Ha Hall']; subst.
  destruct (ascending_cons _ _ Hq) as [_ Hq'].
  specialize (IH Hq' Hall').
  destruct q as [|b q]; cbn [app ascending] in *.
  - rewrite andb_true_r. apply Z.leb_le. exact Ha.
  - apply andb_true_iff in Hq as [Hab _]. rewrite Hab. exact IH.
Qed.

(** ** The per-identifier limiter *)

Section limiter_facts.
Import RateLimiter.
Implicit Types (rl : RateLimiter.t) (identifier : string) (now : Z).

Lemma window_store rl identifier q : window (store rl identifier q) identifier = q.
Proof. unfold window, store, with_requests. cbn. by rewrite lookup_insert_eq. Qed.

Lemma lookup_store rl identifier q :
  requests (store rl identifier q) !! identifier = Some q.
Proof. unfold store, with_requests. cbn. by rewrite lookup_insert_eq. Qed.

Lemma lookup_store_ne rl i j q :
  i ≠ j -> requests (store rl i q) !! j = requests rl !! j.
Proof. intros. unfold store, with_requests. cbn. by rewrite lookup_insert_ne. Qed.

Lemma window_absent rl identifier :
  requests rl !! identifier = None -> window rl identifier = [].
Proof. unfold window. by intros ->. Qed.

Lemma window_cleanup rl identifier now :
  window (cleanup_old_entries rl now) identifier =
  popleft_while (now - time_window rl * 2) (window rl identifier).
Proof.
  unfold window, cleanup_old_entries, with_requests. cbn.
  rewrite lookup_omap. destruct (requests rl !! identifier) as [q|]; cbn; [|done].
  by destruct (popleft_while _ q).
Qed.

(** A step never forgets an identifier, the sweep and nothing else apart. *)
Lemma step_keeps_key op rl identifier now :
  op ≠ OpSweep -> is_Some (requests rl !! identifier) ->
  is_Some (requests (limiter_step op rl now) !! identifier).
Proof.
  intros Hop Hin.
  assert (forall j q, is_Some (requests (store rl j q) !! identifier)) as Hst.
  { intros j q. destruct (decide (j = identifier)) as [->|Hne].
    - rewrite lookup_store. eauto.
    - by rewrite lookup_store_ne. }
  destruct op as [j|j|j| |]; cbn [limiter_step]; try done.
  - unfold check_rate_limit. destruct (_ <=? _); cbn [snd]; apply Hst.
  - unfold get_remaining_requests. cbn [snd]. apply Hst.
  - unfold get_reset_time. destruct (window rl j); cbn [snd]; [apply Hst|].
    destruct (_ <? _); cbn [snd]; apply Hst.
Qed.

End limiter_facts.

(** *** The order of a window under a non-decreasing clock *)

Lemma popleft_while_ordered now thr q :
  ordered_until now q -> ordered_until now (popleft_while thr q).
Proof.
  intros [Hasc Hall]. split; [by apply popleft_while_ascending|].
  destruct (popleft_while_suffix thr q) as [p Hp].
  rewrite Hp in Hall. by apply Forall_app in Hall as [_ Hall].
Qed.

Lemma ordered_until_mono now now' q :
  now <= now' -> ordered_until now q -> ordered_until now' q.
Proof.
  intros Hle [Hasc Hall]. split; [exact Hasc|].
  eapply Forall_impl; [exact Hall|]. cbv beta. intros; lia.
Qed.

Lemma ordered_until_snoc now q :
  ordered_until now q -> ordered_until now (q ++ [now]).
Proof.
  intros [Hasc Hall]. split; [by apply ascending_snoc|].
  apply Forall_app. split; [exact Hall|]. constructor; [lia|constructor].
Qed.

Lemma window_store_decide rl i j q :
  RateLimiter.window (RateLimiter.store rl i q) j
  = if decide (i = j) then q else RateLimiter.window rl j.
Proof.
  unfold RateLimiter.window, RateLimiter.store, RateLimiter.with_requests.
  cbn. destruct (decide (i = j)) as [->|Hne].
  - by rewrite lookup_insert_eq.
  - by rewrite lookup_insert_ne.
Qed.

Lemma limiter_step_ordered op rl now0 now :
  now0 <= now ->
  (forall j, ordered_until now0 (RateLimiter.window rl j)) ->
  forall j, ordered_until now (RateLimiter.window (limiter_step op rl now) j).
Proof.
  intros Hle Hrl j.
  assert (forall i, ordered_until now (RateLimiter.window rl i)) as Hnow
    by (intros i; by apply (ordered_until_mono now0)).
  assert (forall i q, ordered_until now q ->
            ordered_until now
              (RateLimiter.window (RateLimiter.store rl i q) j)) as Hstore.
  { intros i q Hq. rewrite window_store_decide. by destruct (decide (i = j)). }
  destruct op as [i|i|i| |]; cbn [limiter_step].
  - unfold RateLimiter.check_rate_limit.
    destruct (_ <=? _); cbn [snd]; apply Hstore.
    + by apply popleft_while_ordered.
    + by apply ordered_until_snoc, popleft_while_ordered.
  - unfold RateLimiter.get_remaining_requests. cbn [snd].
    by apply Hstore, popleft_while_ordered.
  - unfold RateLimiter.get_reset_time.
    destruct (RateLimiter.window rl i) as [|a q] eqn:Hw; cbn [snd].
    + apply Hstore. split; [reflexivity|constructor].
    + destruct (_ <? _); cbn [snd]; apply Hstore;
        apply popleft_while_ordered; rewrite <- Hw; apply Hnow.
  - rewrite window_cleanup. by apply popleft_while_ordered.
  - apply Hnow.
Qed.

(** Starting from the empty limiter, every window stays in time order as
    long as the clock readings do not decrease. *)
Lemma limiter_run_ordered ops rl now0 :
  ascending (now0 :: map snd ops) = true ->
  (forall j, ordered_until now0 (RateLimiter.window rl j)) ->
  forall j, ascending (RateLimiter.window (limiter_run rl ops) j) = true.
Proof.
  revert rl now0. induction ops as [|[op now] ops IH]; intros rl now0 Hclock Hrl j.
  - apply (Hrl j).
  - cbn [limiter_run]. cbn [map snd] in Hclock.
    destruct (ascending_cons _ _ Hclock) as [Hle Hclock'].
    inversion Hle as [|? ? Hnow _]; subst.
    apply (IH _ now Hclock'). by apply (limiter_step_ordered op rl now0).
Qed.

Lemma limiter_run_from_init ops max_requests time_window now0 j :
  ascending (now0 :: map snd ops) = true ->
  ascending (RateLimiter.window
               (limiter_run (RateLimiter.init max_requests time_window) ops) j)
  = true.
Proof.
  intros Hclock. apply (limiter_run_ordered ops _ now0 Hclock).
  intros i. split; [reflexivity|constructor].
Qed.

(** C1. [check_rate_limit] on a time-ordered window: it keeps exactly the
    timestamps later than [now - time_window], answers [false] and stores
    them as they are when at least [max_requests] remain, and otherwise
    stores them with [now] appended and answers [true].  With
    [max_requests = 2] and [time_window = 60] the calls for one identifier
    at times 0, 10, 20 and 61 are answered true, true, false, true. *)
Theorem check_rate_limit_admission rl identifier now
    (Hasc : ascending (RateLimiter.window rl identifier) = true) :
  let kept := List.filter (fun t => now - RateLimiter.time_window rl <? t)
                (RateLimiter.window rl identifier) in
  RateLimiter.check_rate_limit rl identifier now =
    (if RateLimiter.max_requests rl <=? Z.of_nat (length kept)
     then (false, RateLimiter.store rl identifier kept)
     else (true, RateLimiter.store rl identifier (kept ++ [now])))
  /\ Forall (fun t => now - RateLimiter.time_window rl < t) kept
  /\ fst (check_rate_limit_at (RateLimiter.init 2 60) "u1" [0; 10; 20; 61])
     = [true; true; false; true].
Proof.
  cbv zeta. split; [|split].
  - unfold RateLimiter.check_rate_limit.
    by rewrite popleft_while_filter.
  - apply List.Forall_forall. intros t Ht.
    apply filter_In in Ht as [_ Ht]. by apply Z.ltb_lt in Ht.
  - vm_compute. reflexivity.
Qed.

Lemma check_rate_limit_admission_witness :
  ascending (RateLimiter.window
               (RateLimiter.mk 2 60 {[ "u1" := [0; 10] ]}) "u1") = true
  /\ RateLimiter.check_rate_limit
       (RateLimiter.mk 2 60 {[ "u1" := [0; 10] ]}) "u1" 61
     = (true, RateLimiter.store
                (RateLimiter.mk 2 60 {[ "u1" := [0; 10] ]}) "u1" [10; 61]).
Proof.
  split; [reflexivity|].
  exact (proj1 (check_rate_limit_admission
                  (RateLimiter.mk 2 60 {[ "u1" := [0; 10] ]}) "u1" 61 eq_refl)).
Defined.

(** C2, as stated, fails for the sweep: with a window of 60 seconds a
    timestamp 0 is still retained after [cleanup_old_entries] at time 100. *)
Lemma sweep_retains_stale_timestamp :
  let rl := RateLimiter.mk 2 60 {[ "u1" := [0] ]} in
  touches OpSweep "u1"
  /\ In 0 (RateLimiter.window (limiter_step OpSweep rl 100) "u1")
  /\ ~ (0 > 100 - RateLimiter.time_window rl).
Proof.
  cbv zeta. split; [exact I|]. split.
  - vm_compute. left. reflexivity.
  - cbn. lia.
Qed.

(** C2, amended. On a time-ordered window and with a positive
    [time_window]: after [check_rate_limit], [get_remaining_requests] or
    [get_reset_time] for an identifier at time [now], every timestamp kept
    for it is later than [now - time_window]; after [cleanup_old_entries]
    every timestamp kept is later than [now - 2 * time_window]; [get_stats]
    evicts nothing and leaves the window as it was. *)
Theorem eviction_after_operation op rl identifier now
    (Hasc : ascending (RateLimiter.window rl identifier) = true)
    (Hwin : 0 < RateLimiter.time_window rl)
    (Htouch : touches op identifier) :
  match op with
  | OpStats =>
      RateLimiter.window (limiter_step op rl now) identifier
      = RateLimiter.window rl identifier
  | _ =>
      Forall (fun t => eviction_bound op rl now < t)
        (RateLimiter.window (limiter_step op rl now) identifier)
  end.
Proof.
  assert (forall thr, Forall (fun t => thr < t)
            (popleft_while thr (RateLimiter.window rl identifier))) as Hfresh.
  { intros thr. apply List.Forall_forall. intros t Ht.
    by apply (popleft_while_fresh thr (RateLimiter.window rl identifier)). }
  destruct op as [j|j|j| |]; cbn [touches] in Htouch; subst;
    cbn [limiter_step eviction_bound]; [| | | |reflexivity].
  - unfold RateLimiter.check_rate_limit.
    destruct (_ <=? _); cbn [snd]; rewrite window_store; [apply Hfresh|].
    apply Forall_app. split; [apply Hfresh|].
    constructor; [lia|constructor].
  - unfold RateLimiter.get_remaining_requests. cbn [snd].
    rewrite window_store. apply Hfresh.
  - unfold RateLimiter.get_reset_time.
    destruct (RateLimiter.window rl identifier) as [|a q] eqn:Hw;
      cbn [snd]; [rewrite window_store; constructor|].
    destruct (_ <? _); cbn [snd]; rewrite window_store; apply Hfresh.
  - rewrite window_cleanup.
    replace (now - 2 * RateLimiter.time_window rl)
      with (now - RateLimiter.time_window rl * 2) by lia.
    apply Hfresh.
Qed.

Lemma eviction_after_operation_witness :
  ascending (RateLimiter.window
               (RateLimiter.mk 2 60 {[ "u1" := [0; 50] ]}) "u1") = true
  /\ 0 < RateLimiter.time_window (RateLimiter.mk 2 60 {[ "u1" := [0; 50] ]})
  /\ touches (OpRemaining "u1") "u1"
  /\ Forall (fun t => 100 - 60 < t)
       (RateLimiter.window
          (limiter_step (OpRemaining "u1")
             (RateLimiter.mk 2 60 {[ "u1" := [0; 50] ]}) 100) "u1").
Proof.
  split; [reflexivity|]. split; [reflexivity|]. split; [reflexivity|].
  exact (eviction_after_operation (OpRemaining "u1")
           (RateLimiter.mk 2 60 {[ "u1" := [0; 50] ]}) "u1" 100
           eq_refl eq_refl eq_refl).
Defined.

(** C10. For an identifier missing from the map, [get_remaining_requests]
    answers [max_requests] and [get_reset_time] answers 0, and each leaves
    the identifier in the map with an empty window, so that
    [total_users_tracked] is one larger; the entry survives every later
    operation other than the sweep, and a sweep deletes it. *)
Theorem query_tracks_absent_identifier rl identifier now
    (Habsent : RateLimiter.requests rl !! identifier = None)
    (Hmax : 0 <= RateLimiter.max_requests rl) :
  let q1 := RateLimiter.get_remaining_requests rl identifier now in
  let q2 := RateLimiter.get_reset_time rl identifier now in
  fst q1 = RateLimiter.max_requests rl
  /\ fst q2 = Some 0
  /\ (forall rl', rl' = snd q1 \/ rl' = snd q2 ->
        RateLimiter.requests rl' !! identifier = Some []
        /\ (forall now',
              RateLimiter.total_users_tracked (RateLimiter.get_stats rl' now')
              = S (RateLimiter.total_users_tracked (RateLimiter.get_stats rl now')))
        /\ (forall op now', op <> OpSweep ->
              is_Some (RateLimiter.requests (limiter_step op rl' now') !! identifier))
        /\ (forall now',
              RateLimiter.requests (RateLimiter.cleanup_old_entries rl' now')
                !! identifier = None)).
Proof.
  cbv zeta.
  pose proof (window_absent _ _ Habsent) as Hw.
  unfold RateLimiter.get_remaining_requests, RateLimiter.get_reset_time.
  rewrite Hw. cbn [popleft_while length fst snd].
  split; [lia|]. split; [reflexivity|].
  intros rl' Hrl'.
  assert (rl' = RateLimiter.store rl identifier []) as -> by (destruct Hrl'; done).
  split; [apply lookup_store|]. split; [|split].
  - intros now'. unfold RateLimiter.get_stats.
    repeat match goal with |- context [map_fold ?f ?b ?m] =>
      destruct (map_fold f b m) as [? ?] end.
    cbn. by rewrite map_size_insert_None.
  - intros op now' Hop. apply step_keeps_key; [done|].
    rewrite lookup_store. eauto.
  - intros now'. unfold RateLimiter.cleanup_old_entries, RateLimiter.with_requests.
    cbn. rewrite lookup_omap, lookup_insert_eq. reflexivity.
Qed.

Lemma query_tracks_absent_identifier_witness :
  RateLimiter.requests (RateLimiter.init 5 300) !! "u1" = None
  /\ 0 <= RateLimiter.max_requests (RateLimiter.init 5 300)
  /\ fst (RateLimiter.get_remaining_requests (RateLimiter.init 5 300) "u1" 7) = 5.
Proof.
  split; [reflexivity|]. split; [discriminate|].
  exact (proj1 (query_tracks_absent_identifier
                  (RateLimiter.init 5 300) "u1" 7 eq_refl
                  ltac:(discriminate))).
Defined.

(** ** White space: [split], [join], [strip] *)

Lemma split_go_tokens w s :
  Forall (fun c => is_space c = false) w ->
  Forall is_token (split_go w s).
Proof.
  revert w. induction s as [|c s IH]; intros w Hw; cbn [split_go].
  - destruct w as [|a w]; constructor; [|constructor].
    split; [by destruct (rev_eq_nil _ nil) || (intros E; apply (f_equal (@length _)) in E;
                rewrite length_rev in E; discriminate)|].
    apply Forall_rev. exact Hw.
  - destruct (is_space c) eqn:Hc.
    + destruct w as [|a w]; [apply IH; constructor|].
      constructor; [|apply IH; constructor].
      split; [intros E; apply (f_equal (@length _)) in E;
              rewrite length_rev in E; discriminate|].
      apply Forall_rev. exact Hw.
    + apply IH. constructor; assumption.
Qed.

Lemma split_tokens s : Forall is_token (split s).
Proof. apply split_go_tokens. constructor. Qed.

Lemma split_go_app w x r :
  Forall (fun c => is_space c = false) x ->
  split_go w (x ++ r) = split_go (rev x ++ w) r.
Proof.
  revert w. induction x as [|c x IH]; intros w Hx; [reflexivity|].
  inversion Hx as [|? ? Hc Hx']; subst.
  cbn [app split_go rev]. rewrite Hc, IH by exact Hx'.
  by rewrite <- app_assoc.
Qed.

Lemma split_join ws :
  Forall is_token ws -> split (join (txt " ") ws) = ws.
Proof.
  unfold split. induction ws as [|x ws IH]; intros Hws; [reflexivity|].
  inversion Hws as [|? ? [Hne Hx] Hws']; subst.
  assert (rev x <> []) as Hrev.
  { intros E. apply Hne. apply (f_equal (@rev _)) in E.
    by rewrite rev_involutive in E. }
  destruct ws as [|y ws].
  - cbn [join]. rewrite <- (app_nil_r x) at 1.
    rewrite split_go_app by exact Hx. rewrite app_nil_r. cbn [split_go].
    destruct (rev x) eqn:E; [done|]. by rewrite <- E, rev_involutive.
  - change (join (txt " ") (x :: y :: ws))
      with (x ++ txt " " ++ join (txt " ") (y :: ws)).
    rewrite split_go_app by exact Hx. rewrite app_nil_r.
    change (txt " " ++ ?t) with (" "%char :: t). cbn [split_go].
    change (is_space " ") with true. cbv iota.
    destruct (rev x) eqn:E; [done|].
    rewrite <- E, rev_involutive. f_equal. apply IH, Hws'.
Qed.

Lemma lstrip_id c s : is_space c = false -> lstrip (c :: s) = c :: s.
Proof. intros H. cbn. by rewrite H. Qed.

Lemma join_head ws :
  Forall is_token ws ->
  match join (txt " ") ws with
  | [] => ws = []
  | c :: _ => is_space c = false
  end.
Proof.
  intros Hws. destruct ws as [|x ws]; [reflexivity|].
  inversion Hws as [|? ? [Hne Hx] _]; subst.
  destruct x as [|c x]; [done|].
  inversion Hx; subst.
  destruct ws; cbn; assumption.
Qed.

Lemma join_last ws :
  Forall is_token ws ->
  match rev (join (txt " ") ws) with
  | [] => ws = []
  | c :: _ => is_space c = false
  end.
Proof.
  induction ws as [|x ws IH]; intros Hws; [reflexivity|].
  inversion Hws as [|? ? [Hne Hx] Hws']; subst.
  destruct ws as [|y ws].
  - cbn [join]. destruct (rev x) as [|c t] eqn:E.
    + apply (f_equal (@rev _)) in E. by rewrite rev_involutive in E.
    + assert (In c (rev x)) as Hin by (rewrite E; left; reflexivity).
      apply in_rev in Hin. rewrite List.Forall_forall in Hx. by apply Hx.
  - change (join (txt " ") (x :: y :: ws))
      with (x ++ txt " " ++ join (txt " ") (y :: ws)).
    rewrite !rev_app_distr. specialize (IH Hws').
    destruct (rev (join (txt " ") (y :: ws))); [discriminate|]. exact IH.
Qed.

Lemma strip_join ws :
  Forall is_token ws -> strip (join (txt " ") ws) = join (txt " ") ws.
Proof.
  intros Hws. unfold strip, rstrip.
  pose proof (join_head ws Hws) as Hh. pose proof (join_last ws Hws) as Hl.
  destruct (join (txt " ") ws) as [|c t] eqn:E; [reflexivity|].
  rewrite (lstrip_id c t Hh).
  destruct (rev (c :: t)) as [|d u] eqn:E'.
  - apply (f_equal (@rev _)) in E'. by rewrite rev_involutive in E'.
  - rewrite (lstrip_id d u Hl), <- E'. apply rev_involutive.
Qed.

(** [_clean_claim] ends in a text that the white-space steps leave alone. *)
Lemma clean_claim_unfold s :
  FactChecker._clean_claim s
  = join (txt " ") (split (FactChecker.strip_markup s)).
Proof. unfold FactChecker._clean_claim. apply strip_join, split_tokens. Qed.

Lemma strip_clean_claim s :
  strip (FactChecker._clean_claim s) = FactChecker._clean_claim s.
Proof. rewrite clean_claim_unfold. apply strip_join, split_tokens. Qed.

Lemma split_go_Forall (P : ascii -> Prop) w s :
  Forall P w -> Forall P s -> Forall (Forall P) (split_go w s).
Proof.
  revert w. induction s as [|c s IH]; intros w Hw Hs; cbn [split_go].
  - destruct w; constructor; [apply Forall_rev; exact Hw|constructor].
  - inversion Hs; subst. destruct (is_space c).
    + destruct w; [by apply IH|].
      constructor; [apply Forall_rev; exact Hw|by apply IH].
    + apply IH; [constructor|]; assumption.
Qed.

Lemma join_Forall (P : ascii -> Prop) sep ws :
  Forall P sep -> Forall (Forall P) ws -> Forall P (join sep ws).
Proof.
  intros Hsep. induction ws as [|x ws IH]; intros Hws; [constructor|].
  inversion Hws; subst. destruct ws as [|y ws]; [assumption|].
  change (join sep (x :: y :: ws)) with (x ++ sep ++ join sep (y :: ws)).
  apply Forall_app; split; [assumption|].
  apply Forall_app; split; [assumption|]. by apply IH.
Qed.

(** ** The matcher *)

Section matcher_facts.
Context (fl : flags).
Implicit Types (r : regex) (k : cursor -> option cursor) (x y : cursor).

(** A pattern that has to begin with an item does not match where the
    text does not begin with it. *)
Lemma exec_leading r a k x :
  leading r = Some a ->
  (forall c s', rest x = c :: s' -> atom_ok fl a c = false) ->
  exec fl r k x = None.
Proof.
  revert k x. induction r as [b|g lo hi b|r1 IH1 r2 _|r1 _ r2 _| |n r' IH| | | |r' _];
    intros k x Hlead Hx; cbn [leading] in Hlead; try discriminate.
  - injection Hlead as ->. cbn [exec].
    destruct (rest x) as [|c s'] eqn:E; [reflexivity|].
    by rewrite (Hx c s' eq_refl).
  - destruct lo as [|lo]; [discriminate|]. injection Hlead as ->.
    cbn [exec]. destruct (rest x) as [|c s'] eqn:E.
    + destruct g, hi as [[|?]|]; reflexivity.
    + pose proof (Hx c s' eq_refl) as Hc.
      destruct g, hi as [[|?]|]; cbn; rewrite ?Hc; reflexivity.
  - cbn [exec]. by apply IH1.
  - cbn [exec]. by apply IH.
Qed.

Lemma search_from_leading r a pv s :
  leading r = Some a ->
  Forall (fun c => atom_ok fl a c = false) s ->
  search_from fl r pv s = None.
Proof.
  intros Hlead. revert pv. induction s as [|c s IH]; intros pv Hs;
    cbn [search_from]; unfold match_here.
  - rewrite (exec_leading r a) by (done || cbn; discriminate). reflexivity.
  - inversion Hs as [|? ? Hc Hs']; subst.
    rewrite (exec_leading r a); [by apply IH|done|].
    cbn. intros ? ? [= <- <-]. exact Hc.
Qed.

Lemma sub_from_leading r a tpl pv s :
  leading r = Some a ->
  Forall (fun c => atom_ok fl a c = false) s ->
  sub_from fl r tpl 0 pv s = s.
Proof.
  intros Hlead. revert pv. induction s as [|c s IH]; intros pv Hs;
    cbn [sub_from]; unfold match_here.
  - rewrite (exec_leading r a) by (done || cbn; discriminate). reflexivity.
  - inversion Hs as [|? ? Hc Hs']; subst.
    rewrite (exec_leading r a); [by rewrite IH|done|].
    cbn. intros ? ? [= <- <-]. exact Hc.
Qed.

End matcher_facts.

(** ** [_clean_claim] *)

Lemma markup_free_lit s (c : ascii) :
  markup_char c = true -> markup_free s ->
  Forall (fun x => atom_ok no_flags (Lit c) x = false) s.
Proof.
  intros Hc Hs. eapply Forall_impl; [exact Hs|].
  cbv beta. intros x Hx. cbn.
  destruct (Ascii.eqb_spec x c) as [->|]; [congruence|reflexivity].
Qed.

Lemma strip_markup_free s :
  markup_free s -> FactChecker.strip_markup s = s.
Proof.
  intros Hs. unfold FactChecker.strip_markup, FactChecker.markup_passes.
  cbn [fold_left]. unfold sub.
  rewrite (sub_from_leading no_flags FactChecker.mention_re (Lit "<"))
    by (reflexivity || by apply markup_free_lit).
  rewrite (sub_from_leading no_flags FactChecker.channel_re (Lit "<"))
    by (reflexivity || by apply markup_free_lit).
  rewrite (sub_from_leading no_flags FactChecker.emoji_re (Lit "<"))
    by (reflexivity || by apply markup_free_lit).
  rewrite (sub_from_leading no_flags FactChecker.code_block_re (Lit "`"))
    by (reflexivity || by apply markup_free_lit).
  rewrite (sub_from_leading no_flags FactChecker.inline_code_re (Lit "`"))
    by (reflexivity || by apply markup_free_lit).
  rewrite (sub_from_leading no_flags FactChecker.bold_re (Lit "*"))
    by (reflexivity || by apply markup_free_lit).
  rewrite (sub_from_leading no_flags FactChecker.underline_re (Lit "_"))
    by (reflexivity || by apply markup_free_lit).
  rewrite (sub_from_leading no_flags FactChecker.strike_re (Lit "~"))
    by (reflexivity || by apply markup_free_lit).
  reflexivity.
Qed.

Lemma clean_claim_markup_free s :
  markup_free s -> markup_free (FactChecker._clean_claim s).
Proof.
  intros Hs. rewrite clean_claim_unfold, strip_markup_free by exact Hs.
  apply join_Forall; [repeat constructor|].
  apply split_go_Forall; [constructor|exact Hs].
Qed.

(** C7, as stated, fails: a pass that removes a token can bring the two
    halves of another token together. *)
Lemma clean_claim_not_idempotent :
  FactChecker._clean_claim (txt "<@<@1>1>") = txt "<@1>"
  /\ FactChecker._clean_claim (FactChecker._clean_claim (txt "<@<@1>1>")) = []
  /\ FactChecker._clean_claim (FactChecker._clean_claim (txt "<@<@1>1>"))
     <> FactChecker._clean_claim (txt "<@<@1>1>").
Proof. vm_compute. repeat split; discriminate. Qed.

(** C7, amended.  Normalising twice gives what normalising once gives for
    every text whose normal form the markup passes leave unchanged, and so
    for every text with none of the characters that open a markup token;
    for such a text the normal form is the text with every run of white
    space collapsed to one space and the ends trimmed. *)
Theorem clean_claim_idempotent_on_stable s
    (Hstable : markup_free s
               \/ FactChecker.strip_markup (FactChecker._clean_claim s)
                  = FactChecker._clean_claim s) :
  FactChecker._clean_claim (FactChecker._clean_claim s)
  = FactChecker._clean_claim s
  /\ (markup_free s -> FactChecker._clean_claim s = join (txt " ") (split s)).
Proof.
  split.
  - assert (FactChecker.strip_markup (FactChecker._clean_claim s)
            = FactChecker._clean_claim s) as Hfix.
    { destruct Hstable as [Hfree|H]; [|exact H].
      apply strip_markup_free, clean_claim_markup_free, Hfree. }
    rewrite (clean_claim_unfold (FactChecker._clean_claim s)), Hfix.
    rewrite (clean_claim_unfold s) at 1.
    rewrite split_join by apply split_tokens.
    symmetry. apply clean_claim_unfold.
  - intros Hfree. by rewrite clean_claim_unfold, strip_markup_free.
Qed.

Lemma clean_claim_idempotent_on_stable_witness :
  (markup_free (txt "  the  moon is	far ")
   \/ FactChecker.strip_markup (FactChecker._clean_claim (txt "  the  moon is	far "))
      = FactChecker._clean_claim (txt "  the  moon is	far "))
  /\ FactChecker._clean_claim (FactChecker._clean_claim (txt "  the  moon is	far "))
     = FactChecker._clean_claim (txt "  the  moon is	far ").
Proof.
  split; [right; vm_compute; reflexivity|].
  exact (proj1 (clean_claim_idempotent_on_stable (txt "  the  moon is	far ")
                  (or_intror eq_refl))).
Defined.

(** ** What a successful match went through *)

Section matcher_inversion.
Context (fl : flags).
Implicit Types (r : regex) (k : cursor -> option cursor) (x y : cursor).

Lemma rep_nil g a lo hi k gs pv :
  rep fl g a lo hi k gs pv [] =
  match lo with
  | O => k (mk_cursor pv [] gs)
  | S _ => None
  end.
Proof.
  cbn [rep]. unfold orelse.
  destruct g, hi as [[|?]|], lo; try reflexivity; by destruct (k _).
Qed.

Lemma rep_cons g a lo hi k gs pv c s :
  rep fl g a lo hi k gs pv (c :: s) =
  let stop :=
    match lo with
    | O => k (mk_cursor pv (c :: s) gs)
    | S _ => None
    end in
  let more :=
    match hi with
    | Some O => None
    | _ => if atom_ok fl a c
           then rep fl g a (Nat.pred lo) (option_map Nat.pred hi) k gs (Some c) s
           else None
    end in
  if g then orelse more (fun _ => stop) else orelse stop (fun _ => more).
Proof. destruct g, hi as [[|?]|]; reflexivity. Qed.

Lemma orelse_Some {A} (u : option A) (v : unit -> option A) w :
  orelse u v = Some w -> u = Some w \/ v tt = Some w.
Proof. destruct u; cbn; auto. Qed.

Lemma rep_inv g a lo hi k gs pv s y :
  rep fl g a lo hi k gs pv s = Some y ->
  exists p s',
    s = p ++ s' /\ Forall (fun c => atom_ok fl a c = true) p
    /\ (lo <= length p)%nat
    /\ k (mk_cursor (prev_after p pv) s' gs) = Some y.
Proof.
  revert lo hi pv.
  induction s as [|c s IH]; intros lo hi pv H.
  - rewrite rep_nil in H. destruct lo; [|discriminate].
    exists [], []. repeat split; [constructor|lia|exact H].
  - rewrite rep_cons in H. cbv zeta in H.
    assert (match lo with
            | O => k (mk_cursor pv (c :: s) gs)
            | S _ => None
            end = Some y
            \/ (atom_ok fl a c = true
                /\ rep fl g a (Nat.pred lo) (option_map Nat.pred hi) k gs
                     (Some c) s = Some y)) as [Hstop|[Hc Hmore]].
    { assert (forall m : option cursor,
                match hi with
                | Some O => None
                | _ => if atom_ok fl a c then m else None
                end = Some y -> atom_ok fl a c = true /\ m = Some y) as Hm.
      { intros m Hm. destruct hi as [[|?]|]; try discriminate;
          destruct (atom_ok fl a c); try discriminate; auto. }
      destruct g; apply orelse_Some in H as [H|H]; auto. }
    + destruct lo; [|discriminate].
      exists [], (c :: s). repeat split; [constructor|lia|exact Hstop].
    + destruct (IH _ _ _ Hmore) as (p & s' & -> & Hp & Hlen & Hk).
      exists (c :: p), s'. repeat split; [by constructor|cbn; lia|exact Hk].
Qed.

Lemma exec_inv r k x y :
  exec fl r k x = Some y -> exists x', k x' = Some y.
Proof.
  revert k x. induction r as [b|g lo hi b|r1 IH1 r2 IH2|r1 IH1 r2 IH2| |n r' IH| | | |r' _];
    intros k x H; cbn [exec] in H.
  - destruct (rest x); [discriminate|]. destruct (atom_ok fl b a); [eauto|discriminate].
  - apply rep_inv in H as (? & ? & _ & _ & _ & H). eauto.
  - apply IH1 in H as [x1 H]. by apply IH2 in H.
  - unfold orelse in H. destruct (exec fl r1 k x) eqn:E.
    + injection H as ->. by apply IH1 in E.
    + by apply IH2 in H.
  - eauto.
  - apply IH in H as [x1 H]. eauto.
  - destruct (prev x); [discriminate|eauto].
  - destruct (rest x) as [|c [|? ?]]; [eauto| |discriminate].
    destruct (Ascii.eqb c LF); [eauto|discriminate].
  - destruct (xorb _ _); [eauto|discriminate].
  - destruct (exec fl r' Some x); [eauto|discriminate].
Qed.

(** A group around one quantified item captures the items it consumed. *)
Lemma exec_group_rep n g a lo hi k x y :
  exec fl (Group n (Rep g lo hi a)) k x = Some y ->
  exists p x',
    Forall (fun c => atom_ok fl a c = true) p /\ (lo <= length p)%nat
    /\ rest x = p ++ rest x'
    /\ k (mk_cursor (prev x') (rest x') ((n, p) :: groups x)) = Some y.
Proof.
  cbn [exec]. intros H.
  apply rep_inv in H as (p & s' & Hs & Hp & Hlen & Hk).
  exists p, (mk_cursor (prev_after p (prev x)) s' (groups x)).
  cbn [rest prev groups] in *. repeat split; try assumption.
  rewrite Hs in Hk. rewrite length_app in Hk.
  replace (length p + length s' - length s')%nat with (length p) in Hk by lia.
  by rewrite firstn_app, firstn_all, Nat.sub_diag, firstn_O, app_nil_r in Hk.
Qed.

Lemma search_from_inv r pv s y :
  search_from fl r pv s = Some y ->
  exists pv' s', match_here fl r pv' s' = Some y.
Proof.
  revert pv. induction s as [|c s IH]; intros pv H; cbn [search_from] in H.
  - destruct (match_here fl r pv []) eqn:E; [|discriminate].
    injection H as ->. eauto.
  - destruct (match_here fl r pv (c :: s)) eqn:E.
    + injection H as ->. eauto.
    + eauto.
Qed.

End matcher_inversion.

(** ** Numbers *)

Lemma is_digit_range c : is_digit c = true -> 48 <= Z.of_N (ord c) <= 57.
Proof.
  unfold is_digit. intros H. apply andb_true_iff in H as [H1 H2].
  apply N.leb_le in H1, H2. lia.
Qed.


Lemma fold_digits_nonneg s acc :
  Forall (fun c => is_digit c = true) s -> 0 <= acc ->
  0 <= fold_left (fun acc c => 10 * acc + (Z.of_N (ord c) - 48)) s acc.
Proof.
  revert acc. induction s as [|c s IH]; intros acc Hs Hacc; [exact Hacc|].
  inversion Hs as [|? ? Hc Hs']; subst. cbn [fold_left].
  apply IH; [exact Hs'|]. apply is_digit_range in Hc. lia.
Qed.

Lemma int_of_digits_nonneg s :
  Forall (fun c => is_digit c = true) s -> 0 <= int_of_digits s.
Proof. intros Hs. by apply fold_digits_nonneg. Qed.

Lemma exec_Cat fl r1 r2 k x :
  exec fl (Cat r1 r2) k x = exec fl r1 (exec fl r2 k) x.
Proof. reflexivity. Qed.

(** ** The confidence fields *)

Lemma confidence_group_digits response m :
  search flag_I FactChecker.confidence_re response = Some m ->
  Forall (fun c => is_digit c = true) (FactChecker.group1 m)
  /\ FactChecker.group1 m <> [].
Proof.
  intros H. apply search_from_inv in H as (pv & s & H).
  unfold match_here, FactChecker.confidence_re in H. cbn [Seq] in H.
  rewrite !exec_Cat in H.
  apply (exec_inv _ (Word _)) in H as [x1 H].
  apply (exec_inv _ (Star _)) in H as [x2 H].
  apply (exec_group_rep _ _ _ _ _ _ Some) in H as (p & x3 & Hp & Hlen & _ & H).
  injection H as <-. unfold FactChecker.group1. cbn.
  split; [exact Hp|]. destruct p; [cbn in Hlen; lia|discriminate].
Qed.

Lemma percent_group_digits response m :
  search no_flags FactChecker.percent_re response = Some m ->
  Forall (fun c => is_digit c = true) (FactChecker.group1 m).
Proof.
  intros H. apply search_from_inv in H as (pv & s & H).
  unfold match_here, FactChecker.percent_re in H. cbn [Seq] in H.
  rewrite exec_Cat in H.
  apply (exec_group_rep _ _ _ _ _ _ (exec _ (Word _) Some)) in H
    as (p & x3 & Hp & Hlen & _ & H).
  cbn in H. destruct (rest x3) as [|c s']; [discriminate|].
  destruct (Ascii.eqb c "%"); [|discriminate].
  injection H as <-. exact Hp.
Qed.

(** The result of [_parse_fact_check_response], field by field: what the
    handler leaves when [int] raises, and else what the [try] block has
    stored. *)
Lemma fact_check_cases response :
  FactChecker._parse_fact_check_response response
  = let found :=
      match search flag_I FactChecker.accuracy_re response with
      | Some m => strip (FactChecker.group1 m)
      | None => txt "Unknown"
      end in
    if confidence_raises response
    then mk_fact_check found 0 (ellipsis 500 response) []
    else mk_fact_check found
           (match search flag_I FactChecker.confidence_re response with
            | Some m => int_of_digits (FactChecker.group1 m)
            | None => 0
            end)
           (match search flag_IS FactChecker.explanation_re response with
            | Some m =>
                join (txt " ")
                  (split (sub no_flags FactChecker.newlines_re (Text (txt " "))
                            (strip (FactChecker.group1 m))))
            | None => []
            end)
           (match search flag_IS FactChecker.sources_re response with
            | Some m =>
                firstn 4 (FactChecker.collect_sources
                            (strip (FactChecker.group1 m)))
            | None => []
            end).
Proof.
  unfold FactChecker._parse_fact_check_response, confidence_raises, int.
  destruct (search flag_I FactChecker.accuracy_re response),
           (search flag_I FactChecker.confidence_re response) as [m|];
    try destruct (int_max_str_digits <? length (FactChecker.group1 m))%nat;
    destruct (search flag_IS FactChecker.explanation_re response),
             (search flag_IS FactChecker.sources_re response); reflexivity.
Qed.

Lemma expose_cases response :
  FactChecker._parse_expose_response response
  = let expose_type :=
      if contains (txt "debunked") (str_lower response) then txt "debunked"
      else if contains (txt "supported") (str_lower response)
           then txt "supported"
           else txt "unknown" in
    match search no_flags FactChecker.percent_re response with
    | Some m =>
        if (int_max_str_digits <? length (FactChecker.group1 m))%nat
        then FactChecker.expose_parse_failure
        else mk_expose expose_type (int_of_digits (FactChecker.group1 m))
               (ellipsis 500 response) []
    | None => mk_expose expose_type 50 (ellipsis 500 response) []
    end.
Proof.
  unfold FactChecker._parse_expose_response, int.
  destruct (search no_flags FactChecker.percent_re response) as [m|];
    [|reflexivity].
  by destruct (int_max_str_digits <? length (FactChecker.group1 m))%nat.
Qed.

Lemma fact_check_confidence response :
  confidence (FactChecker._parse_fact_check_response response)
  = match search flag_I FactChecker.confidence_re response with
    | Some m => default 0 (int (FactChecker.group1 m))
    | None => 0
    end.
Proof.
  rewrite fact_check_cases. unfold confidence_raises, int. cbv zeta.
  destruct (search flag_I FactChecker.confidence_re response) as [m|];
    [|reflexivity].
  by destruct (int_max_str_digits <? length (FactChecker.group1 m))%nat.
Qed.

Lemma fact_check_confidence_nonneg response :
  0 <= confidence (FactChecker._parse_fact_check_response response).
Proof.
  rewrite fact_check_confidence. unfold int.
  destruct (search flag_I FactChecker.confidence_re response) as [m|] eqn:E;
    [|lia].
  destruct (int_max_str_digits <? length (FactChecker.group1 m))%nat;
    cbn [default]; unfold id; [lia|].
  apply int_of_digits_nonneg. by apply (confidence_group_digits response).
Qed.

Lemma expose_confidence_nonneg response :
  0 <= expose_confidence (FactChecker._parse_expose_response response).
Proof.
  rewrite expose_cases. cbv zeta.
  destruct (search no_flags FactChecker.percent_re response) as [m|] eqn:E;
    [|cbn; lia].
  destruct (int_max_str_digits <? length (FactChecker.group1 m))%nat;
    [cbn; lia|].
  cbn [expose_confidence].
  apply int_of_digits_nonneg. by apply (percent_group_digits response).
Qed.

Lemma fact_check_sources_length response :
  (length (sources (FactChecker._parse_fact_check_response response)) <= 4)%nat.
Proof.
  rewrite fact_check_cases. cbv zeta.
  destruct (confidence_raises response); cbn [sources length]; [lia|].
  destruct (search flag_IS FactChecker.sources_re response);
    [apply firstn_le_length|cbn; lia].
Qed.

Lemma expose_evidence_nil response :
  evidence (FactChecker._parse_expose_response response) = [].
Proof.
  rewrite expose_cases. cbv zeta.
  destruct (search no_flags FactChecker.percent_re response) as [m|];
    [destruct (int_max_str_digits <? length (FactChecker.group1 m))%nat|];
    reflexivity.
Qed.

Lemma ellipsis_length n s : (length (ellipsis n s) <= n + 3)%nat.
Proof.
  unfold ellipsis. destruct (Nat.ltb_spec n (length s)) as [Hlt|Hle]; [|lia].
  rewrite length_app, length_firstn. cbn [txt list_ascii_of_string length]. lia.
Qed.

Lemma expose_analysis_length response :
  (length (analysis (FactChecker._parse_expose_response response)) <= 503)%nat.
Proof.
  rewrite expose_cases. cbv zeta.
  destruct (search no_flags FactChecker.percent_re response) as [m|];
    [destruct (int_max_str_digits <? length (FactChecker.group1 m))%nat|];
    cbn [analysis]; try apply (ellipsis_length 500).
  vm_compute. lia.
Qed.

(** ** Greedy repetition of a class *)

Lemma rep_greedy_blocked fl cls lo k gs pv p s' :
  Forall (fun c => cls c = true) p ->
  not_headed cls s' ->
  (forall pv' c r, cls c = true -> k (mk_cursor pv' (c :: r) gs) = None) ->
  rep fl true (Cls cls) lo None k gs pv (p ++ s')
  = if (lo <=? length p)%nat
    then k (mk_cursor (prev_after p pv) s' gs) else None.
Proof.
  intros Hp Hs' Hk. revert lo pv.
  induction p as [|c p IH]; intros lo pv.
  - cbn [app length prev_after fold_left]. destruct s' as [|c r].
    + rewrite rep_nil. by destruct lo.
    + rewrite rep_cons. cbn [atom_ok]. cbn in Hs'. rewrite Hs'.
      cbn. by destruct lo.
  - inversion Hp as [|? ? Hc Hp']; subst.
    cbn [app]. rewrite rep_cons. cbn [atom_ok option_map]. rewrite Hc.
    cbv zeta. rewrite (IH Hp'). unfold orelse.
    cbn [length prev_after fold_left].
    destruct lo as [|lo]; cbn [Nat.pred Nat.leb].
    + destruct (k _) eqn:E; [reflexivity|]. by apply Hk.
    + destruct (lo <=? length p)%nat; [|reflexivity].
      by destruct (k _).
Qed.

(** ** The first percentage of a text *)

Section percent.
Local Abbreviation digit := (fun c => is_digit c = true).

Lemma percent_here pv p s' :
  Forall digit p -> not_headed is_digit s' ->
  match_here no_flags FactChecker.percent_re pv (p ++ s')
  = match p, s' with
    | _ :: _, c :: s'' =>
        if Ascii.eqb c "%" then Some (mk_cursor (Some c) s'' [(1%nat, p)])
        else None
    | _, _ => None
    end.
Proof.
  intros Hp Hs'. unfold match_here, FactChecker.percent_re, Plus.
  cbn [Seq]. rewrite exec_Cat. cbn [exec rest prev groups].
  rewrite rep_greedy_blocked; [|exact Hp|exact Hs'|].
  - destruct p as [|d p]; [reflexivity|].
    cbn [length Nat.leb]. cbn [rest prev groups].
    rewrite length_app.
    replace (length (d :: p) + length s' - length s')%nat
      with (length (d :: p)) by lia.
    rewrite firstn_app, firstn_all, Nat.sub_diag, firstn_O, app_nil_r.
    destruct s' as [|c s'']; reflexivity.
  - intros pv' c r Hc. cbn.
    destruct (Ascii.eqb_spec c "%") as [->|]; [discriminate|reflexivity].
Qed.

Lemma percent_search_hit pv p s'' :
  Forall digit p -> p <> [] ->
  search_from no_flags FactChecker.percent_re pv (p ++ "%"%char :: s'')
  = Some (mk_cursor (Some "%"%char) s'' [(1%nat, p)]).
Proof.
  intros Hp Hne.
  pose proof (percent_here pv p ("%"%char :: s'') Hp eq_refl) as H.
  destruct p as [|d p]; [done|].
  cbn [app] in *. cbn [search_from]. by rewrite H.
Qed.

Lemma percent_search_skip pv p s' :
  Forall digit p -> not_headed is_digit s' ->
  not_headed (fun c => Ascii.eqb c "%") s' ->
  search_from no_flags FactChecker.percent_re pv (p ++ s')
  = search_from no_flags FactChecker.percent_re (prev_after p pv) s'.
Proof.
  intros Hp Hd Hpc. revert pv. induction p as [|d p IH]; intros pv;
    [reflexivity|].
  inversion Hp as [|? ? _ Hp']; subst.
  pose proof (percent_here pv (d :: p) s' Hp Hd) as H.
  cbn [app] in *. cbn [search_from]. rewrite H.
  destruct s' as [|c s'']; [apply (IH Hp')|].
  cbn in Hpc. rewrite Hpc. apply (IH Hp').
Qed.

Lemma percent_search_next pv c s :
  is_digit c = false ->
  search_from no_flags FactChecker.percent_re pv (c :: s)
  = search_from no_flags FactChecker.percent_re (Some c) s.
Proof.
  intros Hc. pose proof (percent_here pv [] (c :: s) (List.Forall_nil _) Hc) as H.
  cbn [app] in H. cbn [search_from]. by rewrite H.
Qed.

(** [re.search] with [(\d+)%] finds the first percentage of the text. *)
Lemma percent_scan run s pv :
  Forall digit run ->
  option_map FactChecker.group1
    (search_from no_flags FactChecker.percent_re pv (rev run ++ s))
  = first_percent_token run s.
Proof.
  revert run pv. induction s as [|c s IH]; intros run pv Hrun.
  - rewrite percent_search_skip by (done || by apply Forall_rev).
    cbn [search_from first_percent_token].
    pose proof (percent_here (prev_after (rev run) pv) [] []
                  (List.Forall_nil _) I) as H.
    cbn [app] in H. by rewrite H.
  - cbn [first_percent_token]. destruct (is_digit c) eqn:Hc.
    + rewrite <- (IH (c :: run) pv) by (by constructor).
      cbn [rev]. by rewrite <- app_assoc.
    + destruct (Ascii.eqb_spec c "%") as [->|Hne].
      * destruct run as [|d run].
        -- cbn [rev app]. rewrite percent_search_next by reflexivity.
           apply (IH [] _ (List.Forall_nil _)).
        -- rewrite percent_search_hit; [reflexivity|by apply Forall_rev|].
           intros E. apply (f_equal (@length _)) in E.
           rewrite length_rev in E. discriminate.
      * rewrite percent_search_skip; [|by apply Forall_rev|exact Hc|].
        -- rewrite percent_search_next by exact Hc.
           apply (IH [] _ (List.Forall_nil _)).
        -- cbn. by destruct (Ascii.eqb_spec c "%").
Qed.
End percent.

(** C9, as stated, fails: a response with the word "debunked" whose first
    percentage has 4301 digits is not parsed to "debunked" and that number.
    [int] raises on the digits, and the handler answers "unknown", 0, the
    fixed failure text and no evidence. *)
Lemma long_percentage_is_a_parse_failure :
  let response := txt "debunked " ++ repeat "9"%char 4301 ++ txt "%" in
  contains (txt "debunked") (str_lower response) = true
  /\ first_percent_token [] response = Some (repeat "9"%char 4301)
  /\ FactChecker._parse_expose_response response
     = mk_expose (txt "unknown") 0 (txt "Failed to parse expose analysis") [].
Proof. vm_compute. repeat split. Qed.

(** C9, amended.  The result of [_parse_expose_response]: when the first
    percentage of the text has at most 4300 digits or there is none, the
    classification read off the lower-cased text ("debunked" before
    "supported" before "unknown"), that percentage as confidence and 50
    when there is none, the text or its first 500 characters followed by an
    ellipsis as analysis, and no evidence; when the first percentage has
    more digits, the fixed failure record of the handler.  A text without
    headers that has the word "debunked" and the percentage 73% in it is
    parsed to debunked, 73 and no evidence. *)
Theorem expose_fallback_parse response :
  FactChecker._parse_expose_response response
  = (let expose_type :=
       if contains (txt "debunked") (str_lower response) then txt "debunked"
       else if contains (txt "supported") (str_lower response)
            then txt "supported"
            else txt "unknown" in
     let analysis :=
       if (500 <? length response)%nat
       then firstn 500 response ++ txt "..." else response in
     match first_percent_token [] response with
     | Some digits =>
         if (4300 <? length digits)%nat
         then mk_expose (txt "unknown") 0
                (txt "Failed to parse expose analysis") []
         else mk_expose expose_type (int_of_digits digits) analysis []
     | None => mk_expose expose_type 50 analysis []
     end)
  /\ evidence (FactChecker._parse_expose_response response) = []
  /\ (length (analysis (FactChecker._parse_expose_response response)) <= 503)%nat
  /\ FactChecker._parse_expose_response
       (txt "Experts found this claim Debunked long ago, I am 73% sure.")
     = mk_expose (txt "debunked") 73
         (txt "Experts found this claim Debunked long ago, I am 73% sure.") [].
Proof.
  split; [|split; [apply expose_evidence_nil|split]].
  - rewrite expose_cases. cbv zeta.
    rewrite <- (percent_scan [] response None (List.Forall_nil _)).
    cbn [rev app]. unfold search, ellipsis.
    by destruct (search_from no_flags FactChecker.percent_re None response).
  - apply expose_analysis_length.
  - vm_compute. reflexivity.
Qed.

(** ** Blank responses *)

Lemma space_facts c :
  is_space c = true -> lower c = c /\ is_digit c = false.
Proof.
  destruct c as [[] [] [] [] [] [] [] []]; vm_compute; intros H;
    try discriminate H; split; reflexivity.
Qed.

Lemma blank_no_letter c l :
  is_space c = true -> is_space (lower l) = false ->
  atom_ok flag_I (Lit l) c = false.
Proof.
  intros Hc Hl. cbn. destruct (space_facts c Hc) as [-> _].
  destruct (Ascii.eqb_spec c (lower l)) as [->|]; [congruence|reflexivity].
Qed.

Lemma contains_absent c0 needle hay :
  Forall (fun c => Ascii.eqb c0 c = false) hay ->
  contains (c0 :: needle) hay = false.
Proof.
  induction hay as [|c hay IH]; intros H; [reflexivity|].
  inversion H as [|? ? Hc H']; subst.
  cbn [contains startswith]. rewrite Hc. cbn. by apply IH.
Qed.

Lemma blank_lower response (l : ascii) :
  Forall (fun c => is_space c = true) response -> is_space l = false ->
  Forall (fun c => Ascii.eqb l c = false) (str_lower response).
Proof.
  intros H Hl. unfold str_lower. apply Forall_map.
  eapply Forall_impl; [exact H|]. cbv beta. intros c Hc.
  destruct (space_facts c Hc) as [-> _].
  destruct (Ascii.eqb_spec l c) as [->|]; [congruence|reflexivity].
Qed.

Lemma blank_fact_check response :
  Forall (fun c => is_space c = true) response ->
  FactChecker._parse_fact_check_response response
  = mk_fact_check (txt "Unknown") 0 [] [].
Proof.
  intros H.
  assert (forall l, is_space (lower l) = false ->
            Forall (fun c => atom_ok flag_I (Lit l) c = false) response) as Hl.
  { intros l Hl. eapply Forall_impl; [exact H|]. cbv beta.
    intros c Hc. by apply blank_no_letter. }
  assert (forall l, is_space (lower l) = false ->
            Forall (fun c => atom_ok flag_IS (Lit l) c = false) response) as Hl'.
  { intros l Hl0. exact (Hl l Hl0). }
  unfold FactChecker._parse_fact_check_response, search.
  rewrite (search_from_leading flag_I FactChecker.accuracy_re (Lit "A"))
    by (reflexivity || by apply Hl).
  rewrite (search_from_leading flag_I FactChecker.confidence_re (Lit "C"))
    by (reflexivity || by apply Hl).
  rewrite (search_from_leading flag_IS FactChecker.explanation_re (Lit "E"))
    by (reflexivity || by apply Hl').
  rewrite (search_from_leading flag_IS FactChecker.sources_re (Lit "S"))
    by (reflexivity || by apply Hl').
  reflexivity.
Qed.

Lemma blank_expose response :
  Forall (fun c => is_space c = true) response ->
  FactChecker._parse_expose_response response
  = mk_expose (txt "unknown") 50 (ellipsis 500 response) [].
Proof.
  intros H. unfold FactChecker._parse_expose_response, search.
  change (txt "debunked") with ("d"%char :: txt "ebunked").
  change (txt "supported") with ("s"%char :: txt "upported").
  rewrite !contains_absent by (by apply blank_lower).
  rewrite (search_from_leading no_flags FactChecker.percent_re (Cls is_digit));
    [reflexivity|reflexivity|].
  eapply Forall_impl; [exact H|]. cbv beta. intros c Hc.
  apply (space_facts c Hc).
Qed.

(** C6, as stated, fails: on a response with nothing in it the expose
    parser answers confidence 50 and an empty analysis, not confidence 0
    and the failure text, and the verify parser an empty explanation. *)
Lemma empty_response_defaults :
  FactChecker._parse_expose_response [] = mk_expose (txt "unknown") 50 [] []
  /\ FactChecker._parse_expose_response [] <> FactChecker.expose_parse_failure
  /\ FactChecker._parse_fact_check_response []
     = mk_fact_check (txt "Unknown") 0 [] [].
Proof. vm_compute. repeat split; discriminate. Qed.

(** C6, amended.  Both parsers are total, and every result has its four
    fields: a classification, a non-negative integer confidence, a text and
    a list, of at most 4 sources for the verify parser and empty for the
    expose parser, whose analysis has at most 503 characters.  On a response
    that is empty or white space only, the verify parser answers "Unknown",
    0, the empty explanation and no sources, and the expose parser
    "unknown", 50, the response itself (cut after 500 characters) and no
    evidence. *)
Theorem parsers_total response :
  0 <= confidence (FactChecker._parse_fact_check_response response)
  /\ (length (sources (FactChecker._parse_fact_check_response response)) <= 4)%nat
  /\ 0 <= expose_confidence (FactChecker._parse_expose_response response)
  /\ evidence (FactChecker._parse_expose_response response) = []
  /\ (length (analysis (FactChecker._parse_expose_response response)) <= 503)%nat
  /\ (Forall (fun c => is_space c = true) response ->
        FactChecker._parse_fact_check_response response
        = mk_fact_check (txt "Unknown") 0 [] []
        /\ FactChecker._parse_expose_response response
           = mk_expose (txt "unknown") 50 (ellipsis 500 response) []).
Proof.
  split; [apply fact_check_confidence_nonneg|].
  split; [apply fact_check_sources_length|].
  split; [apply expose_confidence_nonneg|]. split; [apply expose_evidence_nil|].
  split; [apply expose_analysis_length|].
  intros H. split; [by apply blank_fact_check|by apply blank_expose].
Qed.

(** ** The confidence of a result *)

Lemma atom_ok_refl fl c : atom_ok fl (Lit c) c = true.
Proof. cbn. destruct (IGNORECASE fl); apply Ascii.eqb_refl. Qed.

Lemma exec_Lits fl w k pv s gs :
  exec fl (Lits w) k (mk_cursor pv (w ++ s) gs)
  = k (mk_cursor (prev_after w pv) s gs).
Proof.
  revert pv. induction w as [|c w IH]; intros pv; [reflexivity|].
  destruct w as [|c' w].
  - cbn [Lits exec rest app groups]. by rewrite atom_ok_refl.
  - change (Lits (c :: c' :: w)) with (Cat (Atom (Lit c)) (Lits (c' :: w))).
    rewrite exec_Cat. cbn [exec rest app groups]. rewrite atom_ok_refl.
    apply (IH (Some c)).
Qed.

Lemma rep_greedy_run fl cls lo k gs pv p s' y :
  Forall (fun c => cls c = true) p ->
  not_headed cls s' ->
  (lo <= length p)%nat ->
  k (mk_cursor (prev_after p pv) s' gs) = Some y ->
  rep fl true (Cls cls) lo None k gs pv (p ++ s') = Some y.
Proof.
  intros Hp Hs'. revert lo pv.
  induction p as [|c p IH]; intros lo pv Hlo Hk.
  - cbn [length] in Hlo. assert (lo = 0%nat) as -> by lia.
    cbn [app prev_after fold_left] in *. destruct s' as [|c r].
    + by rewrite rep_nil.
    + rewrite rep_cons. cbn [atom_ok]. cbn in Hs'. rewrite Hs'. exact Hk.
  - inversion Hp as [|? ? Hc Hp']; subst.
    cbn [app]. rewrite rep_cons. cbn [atom_ok option_map]. rewrite Hc.
    cbv zeta. rewrite (IH Hp' (Nat.pred lo) (Some c));
      [reflexivity|cbn [length] in Hlo; lia|exact Hk].
Qed.

Lemma search_from_here fl r pv s y :
  match_here fl r pv s = Some y -> search_from fl r pv s = Some y.
Proof. intros H. destruct s; cbn [search_from]; by rewrite H. Qed.

Lemma digit_not_space c : is_digit c = true -> is_space c = false.
Proof.
  intros Hd. destruct (is_space c) eqn:Hs; [|reflexivity].
  destruct (space_facts c Hs) as [_ H]. congruence.
Qed.

(** The digits behind a CONFIDENCE header at the head of a response are
    what the search of the parser finds. *)
Lemma confidence_header_search digits tail :
  digits <> [] ->
  Forall (fun c => is_digit c = true) digits ->
  not_headed is_digit tail ->
  exists m,
    search flag_I FactChecker.confidence_re
      (txt "CONFIDENCE: " ++ digits ++ tail) = Some m
    /\ FactChecker.group1 m = digits.
Proof.
  intros Hne Hd Htail.
  exists (mk_cursor (prev_after digits (Some " "%char)) tail [(1%nat, digits)]).
  split; [|reflexivity].
  apply search_from_here. unfold match_here, FactChecker.confidence_re.
  cbn [Seq]. rewrite !exec_Cat. unfold Word.
  change (txt "CONFIDENCE: " ++ digits ++ tail)
    with (txt "CONFIDENCE:" ++ [" "%char] ++ digits ++ tail).
  rewrite exec_Lits. unfold Star. cbn [exec rest prev groups].
  apply rep_greedy_run.
  - repeat constructor.
  - destruct digits as [|d ds]; [done|]. inversion Hd; subst.
    cbn. by apply digit_not_space.
  - cbn. lia.
  - unfold Plus. cbn [exec rest prev groups prev_after fold_left].
    apply rep_greedy_run; [exact Hd|exact Htail| |].
    + destruct digits; [done|cbn; lia].
    + cbn [rest prev groups]. rewrite length_app.
      replace (length digits + length tail - length tail)%nat
        with (length digits) by lia.
      by rewrite firstn_app, firstn_all, Nat.sub_diag, firstn_O, app_nil_r.
Qed.

(** C3, as stated, fails: no parser clamps, and the number 250 of the
    response is the confidence of the result. *)
Lemma confidence_not_clamped :
  confidence (FactChecker._parse_fact_check_response (txt "CONFIDENCE: 250"))
  = 250
  /\ expose_confidence (FactChecker._parse_expose_response (txt "debunked, 250% sure"))
     = 250
  /\ ~ (0 <= 250 <= 100).
Proof. split; [|split]; [vm_compute; reflexivity ..|lia]. Qed.

(** C3, amended.  The confidence of every result is a non-negative integer
    and is not clamped.  For the verify parser it is the number written in
    the digits behind the first CONFIDENCE header, and for the expose parser
    the number of the first percentage of the text, when these digits are
    at most 4300; it is 0 when they are more, as [int] raises and the
    handlers leave 0; and when there are no such digits it is 0 for the
    verify parser and 50 for the expose parser.  In particular a response
    that begins with the header and a run of at most 4300 digits has the
    number of that run as confidence, however large. *)
Theorem confidence_is_parsed_number response :
  confidence (FactChecker._parse_fact_check_response response)
  = match search flag_I FactChecker.confidence_re response with
    | Some m =>
        if (4300 <? length (FactChecker.group1 m))%nat then 0
        else int_of_digits (FactChecker.group1 m)
    | None => 0
    end
  /\ expose_confidence (FactChecker._parse_expose_response response)
     = match first_percent_token [] response with
       | Some digits =>
           if (4300 <? length digits)%nat then 0 else int_of_digits digits
       | None => 50
       end
  /\ 0 <= confidence (FactChecker._parse_fact_check_response response)
  /\ 0 <= expose_confidence (FactChecker._parse_expose_response response)
  /\ (forall digits tail,
        digits <> [] ->
        Forall (fun c => is_digit c = true) digits ->
        not_headed is_digit tail ->
        confidence (FactChecker._parse_fact_check_response
                      (txt "CONFIDENCE: " ++ digits ++ tail))
        = if (4300 <? length digits)%nat then 0 else int_of_digits digits).
Proof.
  assert (forall r,
            confidence (FactChecker._parse_fact_check_response r)
            = match search flag_I FactChecker.confidence_re r with
              | Some m =>
                  if (4300 <? length (FactChecker.group1 m))%nat then 0
                  else int_of_digits (FactChecker.group1 m)
              | None => 0
              end) as Hconf.
  { intros r. rewrite fact_check_confidence. unfold int.
    destruct (search flag_I FactChecker.confidence_re r) as [m|];
      [|reflexivity].
    change int_max_str_digits with 4300%nat.
    by destruct (4300 <? length (FactChecker.group1 m))%nat. }
  split; [apply Hconf|]. split.
  { rewrite expose_cases. cbv zeta.
    rewrite <- (percent_scan [] response None (List.Forall_nil _)).
    cbn [rev app]. unfold search.
    destruct (search_from no_flags FactChecker.percent_re None response)
      as [m|]; [|reflexivity].
    cbn [option_map]. change int_max_str_digits with 4300%nat.
    by destruct (4300 <? length (FactChecker.group1 m))%nat. }
  split; [apply fact_check_confidence_nonneg|].
  split; [apply expose_confidence_nonneg|].
  intros digits tail Hne Hd Htail. rewrite Hconf.
  destruct (confidence_header_search digits tail Hne Hd Htail) as (m & -> & ->).
  reflexivity.
Qed.

(** ** The SOURCES section *)

Lemma take_drop_while p s : take_while p s ++ drop_while p s = s.
Proof.
  induction s as [|c s IH]; [reflexivity|]. cbn.
  destruct (p c); cbn; [by rewrite IH|reflexivity].
Qed.

Lemma drop_take_while p s :
  drop (length (take_while p s)) s = drop_while p s.
Proof.
  rewrite <- (take_drop_while p s) at 2.
  by rewrite drop_app_length.
Qed.

Lemma drop_while_head p s : not_headed p (drop_while p s).
Proof.
  induction s as [|c s IH]; [exact I|]. cbn [drop_while].
  destruct (p c) eqn:E; [exact IH|exact E].
Qed.

Lemma rep_greedy_total fl cls lo gs pv s :
  rep fl true (Cls cls) lo None Some gs pv s
  = if (lo <=? length (take_while cls s))%nat
    then Some (mk_cursor (prev_after (take_while cls s) pv)
                 (drop_while cls s) gs)
    else None.
Proof.
  revert lo pv. induction s as [|c s IH]; intros lo pv.
  - rewrite rep_nil. by destruct lo.
  - rewrite rep_cons. cbn [atom_ok take_while drop_while].
    destruct (cls c); cbv zeta; unfold orelse.
    + rewrite IH. cbn [length prev_after fold_left option_map].
      destruct lo as [|lo]; cbn [Nat.pred Nat.leb]; [reflexivity|].
      by destruct (lo <=? _)%nat.
    + by destruct lo.
Qed.

(** A pattern anchored with [^] matches nowhere behind a character. *)
Lemma sub_from_bol_tail fl r tpl n c0 s :
  sub_from fl (Cat Bol r) tpl n (Some c0) s = drop n s.
Proof.
  revert n c0. induction s as [|c s IH]; intros n c0.
  - by destruct n.
  - destruct n as [|n]; cbn [sub_from drop]; [|apply IH].
    unfold match_here. cbn [exec prev]. by rewrite IH.
Qed.

Lemma sub_bullets line :
  sub no_flags FactChecker.bullet_re (Text []) line
  = drop_while FactChecker.bullet_char line.
Proof.
  unfold sub, FactChecker.bullet_re, Plus. cbn [Seq].
  destruct line as [|c s]; [reflexivity|].
  cbn [sub_from]. unfold match_here. rewrite exec_Cat.
  cbn [exec prev rest groups]. rewrite rep_greedy_total.
  cbn [take_while drop_while].
  destruct (FactChecker.bullet_char c).
  - cbn [length Nat.leb expand app rest].
    pose proof (f_equal (@length _) (take_drop_while FactChecker.bullet_char s)) as Hlen.
    rewrite length_app in Hlen.
    replace (S (length s) - length (drop_while FactChecker.bullet_char s))%nat
      with (S (length (take_while FactChecker.bullet_char s))) by lia.
    rewrite sub_from_bol_tail. apply drop_take_while.
  - cbn [length Nat.leb]. by rewrite sub_from_bol_tail.
Qed.

Lemma source_line_entry acc line :
  FactChecker.source_line acc line
  = acc ++ match source_entry line with
           | Some entry => [entry]
           | None => []
           end.
Proof.
  unfold FactChecker.source_line, source_entry. rewrite sub_bullets.
  destruct (strip line) as [|c l]; [by rewrite app_nil_r|].
  destruct (startswith _ _); [by rewrite app_nil_r|].
  destruct (strip (drop_while _ _)); [by rewrite app_nil_r|reflexivity].
Qed.

Lemma collect_sources_entries sources_text :
  FactChecker.collect_sources sources_text
  = omap source_entry (split_on LF sources_text).
Proof.
  unfold FactChecker.collect_sources.
  rewrite <- (app_nil_l (omap _ _)). generalize (@nil str) as acc.
  induction (split_on LF sources_text) as [|line ls IH]; intros acc.
  - by rewrite app_nil_r.
  - cbn [fold_left]. rewrite IH, source_line_entry, <- app_assoc.
    f_equal. cbn [omap list_omap]. by destruct (source_entry line).
Qed.

Lemma lstrip_snoc t c :
  is_space c = false -> exists u, lstrip (t ++ [c]) = u ++ [c].
Proof.
  intros Hc. induction t as [|a t [u IH]].
  - exists []. cbn. by rewrite Hc.
  - cbn [app lstrip]. destruct (is_space a); [eauto|].
    by exists (a :: t).
Qed.

Lemma strip_keeps_head c t :
  is_space c = false -> exists u, strip (c :: t) = c :: u.
Proof.
  intros Hc. unfold strip, rstrip. rewrite (lstrip_id c t Hc).
  cbn [rev]. destruct (lstrip_snoc (rev t) c Hc) as [u ->].
  exists (rev u). by rewrite rev_app_distr.
Qed.

Lemma source_entry_glyph_free line entry :
  source_entry line = Some entry -> glyph_free entry.
Proof.
  unfold source_entry. destruct (strip line) as [|a l]; [discriminate|].
  destruct (startswith _ _); [discriminate|].
  pose proof (drop_while_head FactChecker.bullet_char (a :: l)) as Hd.
  destruct (drop_while FactChecker.bullet_char (a :: l)) as [|c t];
    [discriminate|].
  cbn in Hd.
  assert (is_space c = false) as Hc.
  { unfold FactChecker.bullet_char in Hd.
    apply orb_false_iff in Hd as [_ Hd]. exact Hd. }
  destruct (strip_keeps_head c t Hc) as [u ->]. by intros [= <-].
Qed.

Lemma listed_sources_glyph_free sources_text :
  Forall glyph_free (listed_sources sources_text).
Proof.
  unfold listed_sources. apply Forall_take.
  induction (split_on LF sources_text) as [|line ls IH]; [constructor|].
  cbn [omap list_omap]. destruct (source_entry line) eqn:E; [|exact IH].
  constructor; [by apply (source_entry_glyph_free line)|exact IH].
Qed.

Lemma fact_check_sources response :
  sources (FactChecker._parse_fact_check_response response)
  = if confidence_raises response then []
    else match search flag_IS FactChecker.sources_re response with
         | Some m => listed_sources (strip (FactChecker.group1 m))
         | None => []
         end.
Proof.
  rewrite fact_check_cases. cbv zeta.
  destruct (confidence_raises response); cbn [sources]; [reflexivity|].
  unfold listed_sources.
  destruct (search flag_IS FactChecker.sources_re response);
    rewrite ?collect_sources_entries; reflexivity.
Qed.

(** No glyph of the class is the letter the word "important" begins
    with. *)
Lemma glyph_not_important c l :
  FactChecker.bullet_char c = true ->
  startswith (txt "important") (str_lower (c :: l)) = false.
Proof.
  intros Hc.
  assert (Ascii.eqb "i" (lower c) = false) as Hi.
  { revert Hc. destruct c as [[] [] [] [] [] [] [] []]; vm_compute;
      intros H; try discriminate H; reflexivity. }
  change (txt "important") with ("i"%char :: txt "mportant").
  cbn [str_lower map startswith]. by rewrite Hi.
Qed.

(** C8, as stated, fails: a line of the SOURCES section that has a glyph
    before the word "important" is not left out, since the word is looked
    for before the glyphs are taken off; and with a CONFIDENCE of 4301
    digits [int] raises before the SOURCES section is read, and the result
    has no sources. *)
Lemma bulleted_important_line_is_kept :
  sources (FactChecker._parse_fact_check_response
             (txt "SOURCES: - Important: be objective" ++ LF ::
              txt "- Source A"))
  = [txt "Important: be objective"; txt "Source A"]
  /\ sources (FactChecker._parse_fact_check_response
                (txt "CONFIDENCE: " ++ repeat "9"%char 4301 ++ LF ::
                 txt "SOURCES: - Source A"))
     = [].
Proof. split; vm_compute; reflexivity. Qed.

(** C8, amended.  The response of the scenario is parsed to accuracy
    "Mostly True", confidence 80, explanation "Broadly correct." and the
    sources "Source A", "Source B".  For every response whose CONFIDENCE
    digits are at most 4300, the sources of the result are the lines of the
    SOURCES section, in order and at most the first 4 that remain: a line
    is left out when it is blank or when, white space at its ends apart, it
    begins with "important", and else it loses its leading glyphs and is
    left out when nothing remains.  A line that begins with a glyph is
    therefore never left out for the word "important".  When the CONFIDENCE
    digits are more than 4300 the result has no sources.  A section of
    eight lines shows numbering and bullets taken off, the line "IMPORTANT:
    verify" and the blank line left out, the line "- Important: be
    objective" kept, and the fifth entry cut. *)
Theorem verify_header_parse response :
  FactChecker._parse_fact_check_response
    (txt "ACCURACY: Mostly True" ++ LF :: txt "CONFIDENCE: 80" ++ LF ::
     txt "EXPLANATION: Broadly correct." ++ LF ::
     txt "SOURCES: - Source A" ++ LF :: txt "- Source B")
  = mk_fact_check (txt "Mostly True") 80 (txt "Broadly correct.")
      [txt "Source A"; txt "Source B"]
  /\ sources (FactChecker._parse_fact_check_response response)
     = (if confidence_raises response then []
        else match search flag_IS FactChecker.sources_re response with
             | Some m =>
                 firstn 4 (omap source_entry
                             (split_on LF (strip (FactChecker.group1 m))))
             | None => []
             end)
  /\ (length (sources (FactChecker._parse_fact_check_response response)) <= 4)%nat
  /\ Forall glyph_free (sources (FactChecker._parse_fact_check_response response))
  /\ (forall line c l,
        strip line = c :: l ->
        FactChecker.bullet_char c = true ->
        source_entry line
        = match strip (drop_while FactChecker.bullet_char (c :: l)) with
          | [] => None
          | entry => Some entry
          end)
  /\ sources (FactChecker._parse_fact_check_response
                (txt "SOURCES:" ++ LF :: txt "1. Source A" ++ LF ::
                 txt "IMPORTANT: verify" ++ LF :: LF ::
                 txt "* Source B" ++ LF ::
                 txt "- Important: be objective" ++ LF ::
                 txt "+ Source C" ++ LF :: txt "Source D"))
     = [txt "Source A"; txt "Source B"; txt "Important: be objective";
        txt "Source C"].
Proof.
  split; [vm_compute; reflexivity|].
  split; [apply fact_check_sources|].
  split; [apply fact_check_sources_length|]. split; [|split].
  3: vm_compute; reflexivity.
  - rewrite fact_check_sources.
    destruct (confidence_raises response); [constructor|].
    destruct (search flag_IS FactChecker.sources_re response) as [m|];
      [apply listed_sources_glyph_free|constructor].
  - intros line c l Hline Hc. unfold source_entry. rewrite Hline.
    by rewrite (glyph_not_important c l Hc).
Qed.

(** ** [check_claim] and the handlers *)

Lemma check_claim_short model claim :
  (length (FactChecker._clean_claim claim) < 10)%nat ->
  FactChecker.check_claim model claim
  = (None, [EvNormalized (FactChecker._clean_claim claim)]).
Proof.
  intros Hshort. unfold FactChecker.check_claim.
  rewrite strip_clean_claim.
  destruct (FactChecker._clean_claim claim) as [|c l] eqn:E; [reflexivity|].
  apply Nat.ltb_lt in Hshort. by rewrite Hshort.
Qed.

Lemma check_claim_long model claim :
  (10 <= length (FactChecker._clean_claim claim))%nat ->
  FactChecker.check_claim model claim
  = let p := FactCheckPrompt (FactChecker._clean_claim claim) in
    match FactChecker._call_gemini_async model p with
    | Some response =>
        (Some (FactChecker._parse_fact_check_response response),
         [EvNormalized (FactChecker._clean_claim claim); EvRequest p])
    | None => (None, [EvNormalized (FactChecker._clean_claim claim); EvRequest p])
    end.
Proof.
  intros Hlong. unfold FactChecker.check_claim.
  rewrite strip_clean_claim.
  destruct (FactChecker._clean_claim claim) as [|c l] eqn:E;
    [cbn in Hlong; lia|].
  apply Nat.ltb_ge in Hlong. by rewrite Hlong.
Qed.

(** C5, as stated, fails: a claim whose normal form is too short, but whose
    raw text is not, gets the reply that a failed call to the model gets,
    and [check_claim] answers [None] in both cases. *)
Lemma short_normal_form_reported_as_failure :
  let claim := txt "<@1234567890>" in
  let working : gemini := fun _ => Some (txt "ACCURACY: True") in
  let failing : gemini := fun _ => None in
  (length (FactChecker._clean_claim claim) <? 10)%nat = true
  /\ fst (truthiness_command working (Some claim)) = AnalysisFailed
  /\ fst (truthiness_command failing (Some (txt "The moon is made of cheese")))
     = AnalysisFailed
  /\ fst (FactChecker.check_claim working claim)
     = fst (FactChecker.check_claim failing (txt "The moon is made of cheese")).
Proof. vm_compute. repeat split. Qed.

(** C5, amended.  For a claim whose normal form has fewer than 10
    characters no request is sent to the model: [truthiness_command]
    answers "claim too short" when the raw text, white space at its ends
    apart, has fewer than 10 characters, and otherwise the same "analysis
    failed" that it answers when the call to the model fails;
    [check_claim] answers [None] in both cases. *)
Theorem short_claim_outcomes model claim
    (Hne : claim <> [])
    (Hlen : (length claim <= 1000)%nat)
    (Hshort : (length (FactChecker._clean_claim claim) < 10)%nat) :
  FactChecker.check_claim model claim
  = (None, [EvNormalized (FactChecker._clean_claim claim)])
  /\ truthiness_command model (Some claim)
     = (if (length (strip claim) <? 10)%nat
        then (ClaimTooShort, [])
        else (AnalysisFailed, [EvNormalized (FactChecker._clean_claim claim)]))
  /\ (forall claim',
        claim' <> [] -> (length claim' <= 1000)%nat ->
        (10 <= length (strip claim'))%nat ->
        (10 <= length (FactChecker._clean_claim claim'))%nat ->
        FactChecker._call_gemini_async model
          (FactCheckPrompt (FactChecker._clean_claim claim')) = None ->
        fst (FactChecker.check_claim model claim') = None
        /\ fst (truthiness_command model (Some claim')) = AnalysisFailed).
Proof.
  assert (forall c : str, c <> [] -> (length c <= 1000)%nat ->
            truthiness_command model (Some c)
            = if (length (strip c) <? 10)%nat then (ClaimTooShort, [])
              else let '(result, evs) := FactChecker.check_claim model c in
                   match result with
                   | Some r => (ResultEmbed r, evs)
                   | None => (AnalysisFailed, evs)
                   end) as Hcmd.
  { intros c Hc Hl. unfold truthiness_command. destruct c as [|a c]; [done|].
    apply Nat.ltb_ge in Hl. by rewrite Hl. }
  split; [by apply check_claim_short|]. split.
  - rewrite (Hcmd claim Hne Hlen), check_claim_short by exact Hshort.
    reflexivity.
  - intros claim' Hne' Hlen' Hraw Hnorm Hfail.
    rewrite (Hcmd claim' Hne' Hlen'), check_claim_long by exact Hnorm.
    cbv zeta. rewrite Hfail. apply Nat.ltb_ge in Hraw. rewrite Hraw.
    split; reflexivity.
Qed.

Lemma short_claim_outcomes_witness :
  txt "<@1234567890>" <> []
  /\ (length (txt "<@1234567890>") <= 1000)%nat
  /\ (length (FactChecker._clean_claim (txt "<@1234567890>")) < 10)%nat
  /\ FactChecker.check_claim (fun _ => Some (txt "ACCURACY: True"))
       (txt "<@1234567890>")
     = (None, [EvNormalized (FactChecker._clean_claim (txt "<@1234567890>"))]).
Proof.
  assert (txt "<@1234567890>" <> []) as H1 by discriminate.
  assert ((length (txt "<@1234567890>") <= 1000)%nat) as H2
    by (vm_compute; lia).
  assert ((length (FactChecker._clean_claim (txt "<@1234567890>")) < 10)%nat)
    as H3 by (vm_compute; lia).
  split; [exact H1|]. split; [exact H2|]. split; [exact H3|].
  exact (proj1 (short_claim_outcomes (fun _ => Some (txt "ACCURACY: True"))
                  (txt "<@1234567890>") H1 H2 H3)).
Defined.

(** C4, as stated, fails: the admission check comes before the trigger
    check, so a message that does not fire the trigger has used up a slot
    of its author's window. *)
Lemma untriggered_message_consumes_slot :
  let msg := mk_message false false "42" (txt "I had a sandwich") None false in
  let bot := FactCheckerBot.init BOT_CONFIG in
  let bot' := fst (FactCheckerBot.on_message BOT_CONFIG (fun _ => None) bot msg 0) in
  FactCheckerBot._should_fact_check BOT_CONFIG (content msg) = false
  /\ RateLimiter.window (FactCheckerBot.rate_limiter bot) "42" = []
  /\ RateLimiter.window (FactCheckerBot.rate_limiter bot') "42" = [0]
  /\ bot' <> bot.
Proof.
  cbv zeta. split; [vm_compute; reflexivity|].
  split; [vm_compute; reflexivity|].
  assert (RateLimiter.window
            (FactCheckerBot.rate_limiter
               (fst (FactCheckerBot.on_message BOT_CONFIG (fun _ => None)
                       (FactCheckerBot.init BOT_CONFIG)
                       (mk_message false false "42" (txt "I had a sandwich")
                          None false) 0))) "42" = [0]) as H
    by (vm_compute; reflexivity).
  split; [exact H|]. intros E. rewrite E in H. vm_compute in H. discriminate.
Qed.

(** C4, amended.  For a message on the automatic path of [on_message] the
    steps are, in this order: command dispatch, admission by the
    per-identifier limiter, the trigger check on the raw text,
    normalisation inside [check_claim], the request to the model.  The
    limiter is updated by the admission check whatever the trigger check
    says afterwards; no other limiter takes part: an admitted message that
    fires the trigger and whose normal form has at least 10 characters is
    always sent to the model. *)
Theorem on_message_pipeline cfg model self msg now
    (Hself : author_is_self msg = false)
    (Hbot : author_bot msg && negb (respond_to_bots cfg) = false)
    (Hreply : reference msg = None \/ mentions_self msg = false)
    (Hauto : auto_fact_check cfg = true) :
  let admission :=
    RateLimiter.check_rate_limit (FactCheckerBot.rate_limiter self)
      (author_id msg) now in
  let fired := FactCheckerBot._should_fact_check cfg (content msg) in
  let cleaned := FactChecker._clean_claim (content msg) in
  let p := FactCheckPrompt cleaned in
  let result := FactCheckerBot.on_message cfg model self msg now in
  FactCheckerBot.rate_limiter (fst result) = snd admission
  /\ snd result
     = EvCommands :: EvAdmission (author_id msg) (fst admission) ::
       (if fst admission then
          EvTrigger fired ::
          (if fired then
             EvNormalized cleaned ::
             (if (length cleaned <? 10)%nat then []
              else EvRequest p ::
                   match FactChecker._call_gemini_async model p with
                   | Some response =>
                       [EvEmbed (FactChecker._parse_fact_check_response response)
                          true]
                   | None => []
                   end)
           else [])
        else [])
  /\ StronglySorted Z.lt (map stage (snd result)).
Proof.
  cbv zeta.
  assert (FactCheckerBot.on_message cfg model self msg now
          = let '(allowed, rl) :=
              RateLimiter.check_rate_limit (FactCheckerBot.rate_limiter self)
                (author_id msg) now in
            if negb allowed
            then (FactCheckerBot.mk rl,
                  [EvCommands; EvAdmission (author_id msg) false])
            else if FactCheckerBot._should_fact_check cfg (content msg)
            then (FactCheckerBot.mk rl,
                  [EvCommands; EvAdmission (author_id msg) true; EvTrigger true]
                    ++ FactCheckerBot._auto_fact_check model msg)
            else (FactCheckerBot.mk rl,
                  [EvCommands; EvAdmission (author_id msg) true;
                   EvTrigger false])) as ->.
  { unfold FactCheckerBot.on_message. rewrite Hself, Hbot, Hauto.
    destruct Hreply as [-> | ->]; [reflexivity|].
    by destruct (reference msg). }
  destruct (RateLimiter.check_rate_limit _ _ _) as [allowed rl].
  cbn [fst snd]. destruct allowed; cbn [negb fst snd].
  2: { repeat split. repeat constructor. }
  destruct (FactCheckerBot._should_fact_check cfg (content msg)); cbn [fst snd].
  2: { repeat split. repeat constructor. }
  unfold FactCheckerBot._auto_fact_check.
  destruct (Nat.ltb_spec (length (FactChecker._clean_claim (content msg))) 10)
    as [Hshort|Hlong].
  - rewrite check_claim_short by exact Hshort.
    repeat split. repeat constructor.
  - rewrite check_claim_long by exact Hlong. cbv zeta.
    destruct (FactChecker._call_gemini_async model _);
      repeat split; repeat constructor.
Qed.

Lemma on_message_pipeline_witness :
  author_is_self (mk_message false false "42" (txt "I had a sandwich") None false)
  = false
  /\ author_bot (mk_message false false "42" (txt "I had a sandwich") None false)
     && negb (respond_to_bots BOT_CONFIG) = false
  /\ (reference (mk_message false false "42" (txt "I had a sandwich") None false)
      = None
      \/ mentions_self
           (mk_message false false "42" (txt "I had a sandwich") None false)
         = false)
  /\ auto_fact_check BOT_CONFIG = true
  /\ snd (FactCheckerBot.on_message BOT_CONFIG (fun _ => None)
            (FactCheckerBot.init BOT_CONFIG)
            (mk_message false false "42" (txt "I had a sandwich") None false) 0)
     = [EvCommands; EvAdmission "42" true; EvTrigger false].
Proof.
  split; [reflexivity|]. split; [reflexivity|].
  split; [left; reflexivity|]. split; [reflexivity|].
  pose proof (on_message_pipeline BOT_CONFIG (fun _ => None)
                (FactCheckerBot.init BOT_CONFIG)
                (mk_message false false "42" (txt "I had a sandwich") None false)
                0 eq_refl eq_refl (or_introl eq_refl) eq_refl) as H.
  cbv zeta in H. destruct H as (_ & H & _).
  rewrite H. vm_compute. reflexivity.
Defined.

(** * Further properties of the code *)

(** ** More on the eviction loop *)

Lemma popleft_while_length thr q :
  (length (popleft_while thr q) <= length q)%nat.
Proof.
  destruct (popleft_while_suffix thr q) as [p Hp].
  rewrite Hp at 2. rewrite length_app. lia.
Qed.

Lemma popleft_while_compose thr thr' q :
  thr <= thr' ->
  popleft_while thr' (popleft_while thr q) = popleft_while thr' q.
Proof.
  intros Hle. induction q as [|a q IH]; [reflexivity|].
  cbn [popleft_while]. destruct (Z.leb_spec a thr) as [Ha|Ha].
  - assert ((a <=? thr') = true) as -> by (apply Z.leb_le; lia). exact IH.
  - reflexivity.
Qed.

Lemma popleft_while_head thr q :
  match popleft_while thr q with
  | a :: _ => thr < a
  | [] => True
  end.
Proof.
  induction q as [|a q IH]; [exact I|]. cbn [popleft_while].
  destruct (Z.leb_spec a thr); [exact IH|assumption].
Qed.

Lemma popleft_while_fixed thr q :
  match q with
  | a :: _ => thr < a
  | [] => True
  end ->
  popleft_while thr q = q.
Proof.
  destruct q as [|a q]; [reflexivity|]. intros Ha. cbn [popleft_while].
  assert ((a <=? thr) = false) as -> by (apply Z.leb_gt; lia). reflexivity.
Qed.

Lemma popleft_while_idem thr q :
  popleft_while thr (popleft_while thr q) = popleft_while thr q.
Proof. apply popleft_while_compose. lia. Qed.

Lemma limiter_step_config op rl now :
  RateLimiter.max_requests (limiter_step op rl now) = RateLimiter.max_requests rl
  /\ RateLimiter.time_window (limiter_step op rl now) = RateLimiter.time_window rl.
Proof.
  destruct op as [i|i|i| |]; cbn [limiter_step]; try (split; reflexivity).
  - unfold RateLimiter.check_rate_limit. by destruct (_ <=? _).
  - unfold RateLimiter.get_reset_time.
    destruct (RateLimiter.window rl i); [split; reflexivity|].
    by destruct (_ <? _).
Qed.

Lemma limiter_step_bounded op rl now :
  0 <= RateLimiter.max_requests rl ->
  (forall j, Z.of_nat (length (RateLimiter.window rl j))
             <= RateLimiter.max_requests rl) ->
  forall j, Z.of_nat (length (RateLimiter.window (limiter_step op rl now) j))
            <= RateLimiter.max_requests rl.
Proof.
  intros Hmax Hrl j.
  assert (forall i q,
            Z.of_nat (length q) <= RateLimiter.max_requests rl ->
            Z.of_nat (length (RateLimiter.window (RateLimiter.store rl i q) j))
            <= RateLimiter.max_requests rl) as Hstore.
  { intros i q Hq. rewrite window_store_decide.
    destruct (decide (i = j)); [exact Hq|apply Hrl]. }
  assert (forall thr i,
            Z.of_nat (length (popleft_while thr (RateLimiter.window rl i)))
            <= RateLimiter.max_requests rl) as Hpop.
  { intros thr i. pose proof (popleft_while_length thr (RateLimiter.window rl i)).
    specialize (Hrl i). lia. }
  destruct op as [i|i|i| |]; cbn [limiter_step].
  - unfold RateLimiter.check_rate_limit.
    destruct (Z.leb_spec (RateLimiter.max_requests rl)
                (Z.of_nat (length (popleft_while
                   (now - RateLimiter.time_window rl) (RateLimiter.window rl i)))));
      cbn [snd]; apply Hstore; [apply Hpop|].
    rewrite length_app. cbn [length]. lia.
  - unfold RateLimiter.get_remaining_requests. cbn [snd]. apply Hstore, Hpop.
  - unfold RateLimiter.get_reset_time.
    destruct (RateLimiter.window rl i) as [|a q] eqn:Hw; cbn [snd].
    + apply Hstore. cbn. exact Hmax.
    + destruct (_ <? _); cbn [snd]; apply Hstore; rewrite <- Hw; apply Hpop.
  - rewrite window_cleanup. apply Hpop.
  - apply Hrl.
Qed.

(** X1.  Whatever operations are made on a limiter that starts empty, at
    whatever times, no window ever holds more than [max_requests]
    timestamps. *)
Theorem window_never_exceeds_max ops max_requests time_window j
    (Hmax : 0 <= max_requests) :
  Z.of_nat (length (RateLimiter.window
                      (limiter_run (RateLimiter.init max_requests time_window) ops)
                      j))
  <= max_requests.
Proof.
  assert (forall rl,
            RateLimiter.max_requests rl = max_requests ->
            (forall i, Z.of_nat (length (RateLimiter.window rl i)) <= max_requests) ->
            Z.of_nat (length (RateLimiter.window (limiter_run rl ops) j))
            <= max_requests) as Hrun.
  { induction ops as [|[op now] ops IH]; intros rl Hcfg Hrl; [apply Hrl|].
    cbn [limiter_run]. apply IH.
    - by rewrite (proj1 (limiter_step_config op rl now)).
    - intros i. rewrite <- Hcfg. apply limiter_step_bounded; rewrite Hcfg;
        [exact Hmax|exact Hrl]. }
  apply Hrun; [reflexivity|]. intros i. cbn. exact Hmax.
Qed.

Lemma window_never_exceeds_max_witness :
  0 <= 2
  /\ Z.of_nat (length (RateLimiter.window
                         (limiter_run (RateLimiter.init 2 60)
                            [(OpAdmit "u1", 0); (OpAdmit "u1", 1);
                             (OpAdmit "u1", 2); (OpSweep, 3)]) "u1"))
     <= 2.
Proof.
  split; [lia|].
  exact (window_never_exceeds_max
           [(OpAdmit "u1", 0); (OpAdmit "u1", 1); (OpAdmit "u1", 2); (OpSweep, 3)]
           2 60 "u1" ltac:(lia)).
Defined.

(** ** Soundness of the sliding window *)

Lemma ascending_cons_intro a q :
  Forall (fun b => a <= b) q -> ascending q = true -> ascending (a :: q) = true.
Proof.
  intros Hall Hq. destruct q as [|b q]; [reflexivity|].
  inversion Hall as [|? ? Hab _]; subst.
  cbn [ascending]. apply andb_true_iff. split; [by apply Z.leb_le|exact Hq].
Qed.

Lemma ascending_filter (P : Z -> bool) q :
  ascending q = true -> ascending (List.filter P q) = true.
Proof.
  induction q as [|a q IH]; intros Hq; [reflexivity|].
  destruct (ascending_cons _ _ Hq) as [Hall Hq'].
  cbn [List.filter]. destruct (P a); [|by apply IH].
  apply ascending_cons_intro; [|by apply IH].
  apply List.Forall_forall. intros b Hb. apply filter_In in Hb as [Hb _].
  rewrite List.Forall_forall in Hall. by apply Hall.
Qed.

Lemma filter_length_le (P Q : Z -> bool) l :
  (forall a, P a = true -> Q a = true) ->
  (length (List.filter P l) <= length (List.filter Q l))%nat.
Proof.
  intros HPQ. induction l as [|a l IH]; [cbn; lia|].
  cbn [List.filter]. destruct (P a) eqn:HP.
  - rewrite (HPQ a HP). cbn [length]. lia.
  - destruct (Q a); cbn [length]; lia.
Qed.

Lemma filter_above_compose thr thr' l :
  thr <= thr' ->
  List.filter (fun a => thr' <? a) (List.filter (fun a => thr <? a) l)
  = List.filter (fun a => thr' <? a) l.
Proof.
  intros Hle. induction l as [|a l IH]; [reflexivity|].
  cbn [List.filter]. destruct (Z.ltb_spec thr a) as [Ha|Ha].
  - cbn [List.filter]. by rewrite IH.
  - assert ((thr' <? a) = false) as -> by (apply Z.ltb_ge; lia). exact IH.
Qed.

Lemma granted_at_sound max_requests time_window i times :
  0 < time_window ->
  forall rl granted now0,
    RateLimiter.max_requests rl = max_requests ->
    RateLimiter.time_window rl = time_window ->
    ascending (now0 :: times) = true ->
    RateLimiter.window rl i
    = List.filter (fun a => now0 - time_window <? a) granted ->
    ascending granted = true ->
    Forall (fun a => a <= now0) granted ->
    (forall T, Z.of_nat (length (List.filter (in_trailing T time_window) granted))
               <= max_requests) ->
    forall T,
      Z.of_nat (length (List.filter (in_trailing T time_window)
                          (granted ++ granted_at rl i times)))
      <= max_requests.
Proof.
  intros Htw. induction times as [|now rest IH];
    intros rl granted now0 Hmax Hwin Hclock Hw Hasc Hle Hsound T.
  - cbn [granted_at]. rewrite app_nil_r. apply Hsound.
  - destruct (ascending_cons _ _ Hclock) as [Hnow Hclock'].
    apply Forall_cons in Hnow as [Hnow0 _].
    assert (Forall (fun a => a <= now) granted) as Hle'.
    { eapply Forall_impl; [exact Hle|]. cbv beta. intros; lia. }
    cbn [granted_at]. unfold RateLimiter.check_rate_limit.
    rewrite Hmax, Hwin, Hw.
    rewrite popleft_while_filter by (by apply ascending_filter).
    rewrite filter_above_compose by lia.
    set (kept := List.filter (fun a => now - time_window <? a) granted).
    destruct (Z.leb_spec max_requests (Z.of_nat (length kept))) as [Hfull|Hroom].
    + cbn [app]. apply (IH _ granted now); try assumption.
      apply window_store.
    + change ([now] ++ ?l) with (now :: l).
      replace (granted ++ now :: granted_at
                 (RateLimiter.store rl i (kept ++ [now])) i rest)
        with ((granted ++ [now]) ++ granted_at
                (RateLimiter.store rl i (kept ++ [now])) i rest)
        by (by rewrite <- app_assoc).
      apply (IH _ (granted ++ [now]) now); try assumption.
      * rewrite window_store, List.filter_app. unfold kept. f_equal.
        cbn [List.filter].
        assert ((now - time_window <? now) = true) as ->
          by (apply Z.ltb_lt; lia).
        reflexivity.
      * by apply ascending_snoc.
      * apply Forall_app. split; [exact Hle'|].
        constructor; [lia|constructor].
      * intros T'. rewrite List.filter_app, length_app. cbn [List.filter].
        unfold in_trailing at 2.
        destruct (Z.leb_spec now T') as [HT|HT].
        -- assert (length (List.filter (in_trailing T' time_window) granted)
                   <= length kept)%nat as Hcount.
           { apply filter_length_le. intros a Ha. unfold in_trailing in Ha.
             apply andb_true_iff in Ha as [Ha _]. apply Z.ltb_lt in Ha.
             apply Z.ltb_lt. lia. }
           destruct (T' - time_window <? now); cbn [andb length]; lia.
        -- rewrite andb_false_r. cbn [length]. specialize (Hsound T'). lia.
Qed.

(** X2.  For successive [check_rate_limit] calls of one identifier at
    non-decreasing times on a limiter that starts empty, the calls answered
    [True] within any window of [time_window] seconds are at most
    [max_requests]. *)
Theorem sliding_window_sound max_requests time_window identifier times T
    (Hwin : 0 < time_window)
    (Hmax : 0 <= max_requests)
    (Hclock : ascending times = true) :
  Z.of_nat (length (List.filter (in_trailing T time_window)
                      (granted_at (RateLimiter.init max_requests time_window)
                         identifier times)))
  <= max_requests.
Proof.
  destruct times as [|t rest]; [cbn; exact Hmax|].
  apply (granted_at_sound max_requests time_window identifier (t :: rest) Hwin
           (RateLimiter.init max_requests time_window) [] t);
    try reflexivity.
  - change (ascending (t :: t :: rest)) with ((t <=? t) && ascending (t :: rest)).
    rewrite Hclock, andb_true_r. apply Z.leb_le. lia.
  - constructor.
  - intros T'. cbn. exact Hmax.
Qed.

Lemma sliding_window_sound_witness :
  0 < 60 /\ 0 <= 2 /\ ascending [0; 10; 20; 61; 62; 63] = true
  /\ Z.of_nat (length (List.filter (in_trailing 70 60)
                         (granted_at (RateLimiter.init 2 60) "u1"
                            [0; 10; 20; 61; 62; 63])))
     <= 2.
Proof.
  split; [lia|]. split; [lia|]. split; [reflexivity|].
  exact (sliding_window_sound 2 60 "u1" [0; 10; 20; 61; 62; 63] 70
           ltac:(lia) ltac:(lia) eq_refl).
Defined.

(** ** The queries of the per-identifier limiter *)

(** X3.  [check_rate_limit] answers [True] exactly when
    [get_remaining_requests], asked at the same moment, answers a positive
    number; and a refused call leaves the limiter as that query leaves it. *)
Theorem check_agrees_with_remaining rl identifier now :
  (fst (RateLimiter.check_rate_limit rl identifier now) = true
   <-> 0 < fst (RateLimiter.get_remaining_requests rl identifier now))
  /\ (fst (RateLimiter.check_rate_limit rl identifier now) = false ->
      snd (RateLimiter.check_rate_limit rl identifier now)
      = snd (RateLimiter.get_remaining_requests rl identifier now)).
Proof.
  unfold RateLimiter.check_rate_limit, RateLimiter.get_remaining_requests.
  cbn [fst snd].
  destruct (Z.leb_spec (RateLimiter.max_requests rl)
              (Z.of_nat (length (popleft_while
                 (now - RateLimiter.time_window rl)
                 (RateLimiter.window rl identifier))))) as [H|H];
    cbn [fst snd]; (split; [split|]); try lia; try discriminate; reflexivity.
Qed.

(** X4.  A call that [check_rate_limit] lets through lowers what
    [get_remaining_requests] answers by exactly one. *)
Theorem remaining_after_grant rl identifier now
    (Hwin : 0 < RateLimiter.time_window rl)
    (Hok : fst (RateLimiter.check_rate_limit rl identifier now) = true) :
  fst (RateLimiter.get_remaining_requests
         (snd (RateLimiter.check_rate_limit rl identifier now)) identifier now)
  = fst (RateLimiter.get_remaining_requests rl identifier now) - 1.
Proof.
  revert Hok.
  unfold RateLimiter.check_rate_limit, RateLimiter.get_remaining_requests.
  set (kept := popleft_while (now - RateLimiter.time_window rl)
                 (RateLimiter.window rl identifier)).
  destruct (Z.leb_spec (RateLimiter.max_requests rl) (Z.of_nat (length kept)))
    as [H|H]; cbn [fst snd]; [discriminate|]. intros _.
  rewrite window_store.
  cbn [RateLimiter.store RateLimiter.with_requests RateLimiter.time_window
       RateLimiter.max_requests].
  assert (popleft_while (now - RateLimiter.time_window rl) (kept ++ [now])
          = kept ++ [now]) as ->.
  { apply popleft_while_fixed.
    pose proof (popleft_while_head (now - RateLimiter.time_window rl)
                  (RateLimiter.window rl identifier)) as Hh.
    fold kept in Hh. destruct kept; cbn [app]; [lia|exact Hh]. }
  rewrite length_app. cbn [length]. lia.
Qed.

Lemma remaining_after_grant_witness :
  0 < RateLimiter.time_window (RateLimiter.init 5 300)
  /\ fst (RateLimiter.check_rate_limit (RateLimiter.init 5 300) "u1" 7) = true
  /\ fst (RateLimiter.get_remaining_requests
            (snd (RateLimiter.check_rate_limit (RateLimiter.init 5 300) "u1" 7))
            "u1" 7)
     = fst (RateLimiter.get_remaining_requests (RateLimiter.init 5 300) "u1" 7) - 1.
Proof.
  split; [reflexivity|]. split; [reflexivity|].
  exact (remaining_after_grant (RateLimiter.init 5 300) "u1" 7 eq_refl eq_refl).
Defined.

(** X5.  On an unchanged limiter, what [get_remaining_requests] answers
    does not go down as time goes on. *)
Theorem remaining_grows_with_time rl identifier now now'
    (Hle : now <= now') :
  fst (RateLimiter.get_remaining_requests rl identifier now)
  <= fst (RateLimiter.get_remaining_requests rl identifier now').
Proof.
  unfold RateLimiter.get_remaining_requests. cbn [fst].
  rewrite <- (popleft_while_compose (now - RateLimiter.time_window rl)
                (now' - RateLimiter.time_window rl)) by lia.
  pose proof (popleft_while_length (now' - RateLimiter.time_window rl)
                (popleft_while (now - RateLimiter.time_window rl)
                   (RateLimiter.window rl identifier))).
  lia.
Qed.

Lemma remaining_grows_with_time_witness :
  10 <= 75
  /\ fst (RateLimiter.get_remaining_requests
            (RateLimiter.mk 2 60 {[ "u1" := [0; 5] ]}) "u1" 10)
     <= fst (RateLimiter.get_remaining_requests
               (RateLimiter.mk 2 60 {[ "u1" := [0; 5] ]}) "u1" 75).
Proof.
  split; [lia|].
  exact (remaining_grows_with_time
           (RateLimiter.mk 2 60 {[ "u1" := [0; 5] ]}) "u1" 10 75 ltac:(lia)).
Defined.

(** X6.  [get_reset_time] fails with IndexError exactly when the window
    of the identifier is not empty, every timestamp in it is stale, and
    [max_requests] is not positive; with a positive [max_requests] it always
    answers. *)
Theorem reset_time_index_error rl identifier now :
  (fst (RateLimiter.get_reset_time rl identifier now) = None
   <-> RateLimiter.window rl identifier <> []
       /\ popleft_while (now - RateLimiter.time_window rl)
            (RateLimiter.window rl identifier) = []
       /\ RateLimiter.max_requests rl <= 0)
  /\ (0 < RateLimiter.max_requests rl ->
      is_Some (fst (RateLimiter.get_reset_time rl identifier now))).
Proof.
  unfold RateLimiter.get_reset_time.
  destruct (RateLimiter.window rl identifier) as [|a q] eqn:Hw; cbn [fst].
  - split; [split; [discriminate|intros [H _]; done]|eauto].
  - set (kept := popleft_while (now - RateLimiter.time_window rl) (a :: q)).
    destruct (Z.ltb_spec (Z.of_nat (length kept)) (RateLimiter.max_requests rl))
      as [H|H]; cbn [fst].
    + split; [split; [discriminate|]|eauto].
      intros (_ & Hk & Hmax). rewrite Hk in H. cbn in H. lia.
    + destruct kept as [|oldest kept']; cbn [length] in H.
      * split; [split; [intros _; repeat split; [discriminate|lia]|reflexivity]|].
        intros Hmax. lia.
      * split; [split; [discriminate|intros (_ & Hk & _); discriminate]|eauto].
Qed.

(** X7.  With a positive [max_requests] and window, on a window within
    its bound that holds no timestamp of the future, [get_reset_time]
    answers a delay between 0 and [time_window] after which
    [check_rate_limit] lets the identifier through. *)
Theorem reset_time_frees_a_slot rl identifier now
    (Hmax : 0 < RateLimiter.max_requests rl)
    (Hwin : 0 < RateLimiter.time_window rl)
    (Hlen : Z.of_nat (length (RateLimiter.window rl identifier))
            <= RateLimiter.max_requests rl)
    (Hpast : Forall (fun t => t <= now) (RateLimiter.window rl identifier)) :
  exists delay,
    fst (RateLimiter.get_reset_time rl identifier now) = Some delay
    /\ 0 <= delay <= RateLimiter.time_window rl
    /\ fst (RateLimiter.check_rate_limit
              (snd (RateLimiter.get_reset_time rl identifier now))
              identifier (now + delay)) = true.
Proof.
  assert (forall q (rl' : RateLimiter.t) t,
            RateLimiter.max_requests rl' = RateLimiter.max_requests rl ->
            RateLimiter.time_window rl' = RateLimiter.time_window rl ->
            RateLimiter.window rl' identifier = q ->
            Z.of_nat (length (popleft_while (t - RateLimiter.time_window rl) q))
            < RateLimiter.max_requests rl ->
            fst (RateLimiter.check_rate_limit rl' identifier t) = true) as Hgo.
  { intros q rl' t Hm Ht Hq Hroom. unfold RateLimiter.check_rate_limit.
    rewrite Hm, Ht, Hq.
    destruct (Z.leb_spec (RateLimiter.max_requests rl)
                (Z.of_nat (length (popleft_while
                   (t - RateLimiter.time_window rl) q)))); [lia|reflexivity]. }
  unfold RateLimiter.get_reset_time.
  destruct (RateLimiter.window rl identifier) as [|a q] eqn:Hw; cbn [fst snd].
  - exists 0. split; [reflexivity|]. split; [lia|].
    apply (Hgo []); try reflexivity; [apply window_store|cbn; lia].
  - set (kept := popleft_while (now - RateLimiter.time_window rl) (a :: q)).
    pose proof (popleft_while_length (now - RateLimiter.time_window rl) (a :: q))
      as Hk. fold kept in Hk.
    destruct (Z.ltb_spec (Z.of_nat (length kept)) (RateLimiter.max_requests rl))
      as [H|H]; cbn [fst snd].
    + exists 0. split; [reflexivity|]. split; [lia|].
      apply (Hgo kept); try reflexivity; [apply window_store|].
      rewrite Z.add_0_r. unfold kept. by rewrite popleft_while_idem.
    + pose proof (popleft_while_head (now - RateLimiter.time_window rl) (a :: q))
        as Hhead. fold kept in Hhead.
      destruct (popleft_while_suffix (now - RateLimiter.time_window rl) (a :: q))
        as [p Hp]. fold kept in Hp.
      destruct kept as [|oldest kept'] eqn:Ek; [cbn in H; lia|].
      assert (oldest <= now) as Hold.
      { rewrite Hp in Hpast. apply Forall_app in Hpast as [_ Hpast].
        by apply Forall_cons in Hpast as [Hpast _]. }
      exists (oldest + RateLimiter.time_window rl - now).
      split; [reflexivity|]. split; [lia|].
      apply (Hgo (oldest :: kept')); try reflexivity; [apply window_store|].
      replace (now + (oldest + RateLimiter.time_window rl - now)
               - RateLimiter.time_window rl) with oldest by lia.
      cbn [popleft_while]. rewrite Z.leb_refl.
      pose proof (popleft_while_length oldest kept').
      cbn [length] in Hk, Hlen. lia.
Qed.

Lemma reset_time_frees_a_slot_witness :
  0 < RateLimiter.max_requests (RateLimiter.mk 2 60 {[ "u1" := [0; 10] ]})
  /\ 0 < RateLimiter.time_window (RateLimiter.mk 2 60 {[ "u1" := [0; 10] ]})
  /\ Z.of_nat (length (RateLimiter.window
                         (RateLimiter.mk 2 60 {[ "u1" := [0; 10] ]}) "u1"))
     <= 2
  /\ Forall (fun t => t <= 20)
       (RateLimiter.window (RateLimiter.mk 2 60 {[ "u1" := [0; 10] ]}) "u1")
  /\ exists delay,
       fst (RateLimiter.get_reset_time
              (RateLimiter.mk 2 60 {[ "u1" := [0; 10] ]}) "u1" 20) = Some delay
       /\ 0 <= delay <= 60
       /\ fst (RateLimiter.check_rate_limit
                 (snd (RateLimiter.get_reset_time
                         (RateLimiter.mk 2 60 {[ "u1" := [0; 10] ]}) "u1" 20))
                 "u1" (20 + delay)) = true.
Proof.
  assert (Forall (fun t => t <= 20)
            (RateLimiter.window (RateLimiter.mk 2 60 {[ "u1" := [0; 10] ]}) "u1"))
    as Hpast by (change (Forall (fun t => t <= 20) [0; 10]);
                 repeat constructor; lia).
  assert (Z.of_nat (length (RateLimiter.window
                              (RateLimiter.mk 2 60 {[ "u1" := [0; 10] ]}) "u1"))
          <= 2) as Hlen by (change (Z.of_nat 2 <= 2); lia).
  split; [reflexivity|]. split; [reflexivity|].
  split; [exact Hlen|]. split; [exact Hpast|].
  exact (reset_time_frees_a_slot (RateLimiter.mk 2 60 {[ "u1" := [0; 10] ]})
           "u1" 20 eq_refl eq_refl Hlen Hpast).
Defined.

(** ** [reset_user] and [cleanup_old_entries] *)

(** X8.  [reset_user] forgets the identifier and nothing else, does
    nothing for an identifier that is not tracked, and afterwards the
    identifier has its full allowance: with a positive [max_requests],
    [check_rate_limit] lets it through and [get_remaining_requests] answers
    [max_requests]. *)
Theorem reset_user_forgets rl identifier now
    (Hmax : 0 < RateLimiter.max_requests rl) :
  RateLimiter.requests (RateLimiter.reset_user rl identifier) !! identifier = None
  /\ (forall j, j <> identifier ->
        RateLimiter.requests (RateLimiter.reset_user rl identifier) !! j
        = RateLimiter.requests rl !! j)
  /\ (RateLimiter.requests rl !! identifier = None ->
      RateLimiter.reset_user rl identifier = rl)
  /\ fst (RateLimiter.check_rate_limit
            (RateLimiter.reset_user rl identifier) identifier now) = true
  /\ fst (RateLimiter.get_remaining_requests
            (RateLimiter.reset_user rl identifier) identifier now)
     = RateLimiter.max_requests rl.
Proof.
  assert (RateLimiter.requests (RateLimiter.reset_user rl identifier)
            !! identifier = None) as Hgone.
  { unfold RateLimiter.reset_user, RateLimiter.with_requests. cbn.
    apply lookup_delete_eq. }
  pose proof (window_absent _ _ Hgone) as Hw.
  split; [exact Hgone|]. split; [|split; [|split]].
  - intros j Hj. unfold RateLimiter.reset_user, RateLimiter.with_requests. cbn.
    by apply lookup_delete_ne.
  - intros Habsent. destruct rl as [m w reqs].
    unfold RateLimiter.reset_user, RateLimiter.with_requests. cbn in *.
    by rewrite delete_id.
  - unfold RateLimiter.check_rate_limit. rewrite Hw.
    cbn [popleft_while length RateLimiter.reset_user RateLimiter.with_requests
         RateLimiter.max_requests].
    destruct (Z.leb_spec (RateLimiter.max_requests rl) (Z.of_nat 0));
      [cbn in *; lia|reflexivity].
  - unfold RateLimiter.get_remaining_requests. rewrite Hw. cbn. lia.
Qed.

Lemma reset_user_forgets_witness :
  0 < RateLimiter.max_requests (RateLimiter.mk 2 60 {[ "u1" := [0; 10] ]})
  /\ fst (RateLimiter.check_rate_limit
            (RateLimiter.reset_user
               (RateLimiter.mk 2 60 {[ "u1" := [0; 10] ]}) "u1") "u1" 20) = true.
Proof.
  split; [reflexivity|].
  exact (proj1 (proj2 (proj2 (proj2
           (reset_user_forgets (RateLimiter.mk 2 60 {[ "u1" := [0; 10] ]})
              "u1" 20 eq_refl))))).
Defined.

Lemma cleanup_config rl now :
  RateLimiter.max_requests (RateLimiter.cleanup_old_entries rl now)
  = RateLimiter.max_requests rl
  /\ RateLimiter.time_window (RateLimiter.cleanup_old_entries rl now)
     = RateLimiter.time_window rl.
Proof. split; reflexivity. Qed.

(** X9.  A sweep changes no later answer of the limiter: with a
    non-negative [time_window], [check_rate_limit] and
    [get_remaining_requests] at a time not before the sweep answer and
    leave the window as they would without the sweep, and so does
    [get_reset_time] when [max_requests] is positive. *)
Theorem cleanup_is_transparent rl identifier now now'
    (Hwin : 0 <= RateLimiter.time_window rl)
    (Hle : now <= now') :
  let swept := RateLimiter.cleanup_old_entries rl now in
  fst (RateLimiter.check_rate_limit swept identifier now')
  = fst (RateLimiter.check_rate_limit rl identifier now')
  /\ RateLimiter.window
       (snd (RateLimiter.check_rate_limit swept identifier now')) identifier
     = RateLimiter.window
         (snd (RateLimiter.check_rate_limit rl identifier now')) identifier
  /\ fst (RateLimiter.get_remaining_requests swept identifier now')
     = fst (RateLimiter.get_remaining_requests rl identifier now')
  /\ RateLimiter.window
       (snd (RateLimiter.get_remaining_requests swept identifier now'))
       identifier
     = RateLimiter.window
         (snd (RateLimiter.get_remaining_requests rl identifier now'))
         identifier
  /\ (0 < RateLimiter.max_requests rl ->
      fst (RateLimiter.get_reset_time swept identifier now')
      = fst (RateLimiter.get_reset_time rl identifier now')).
Proof.
  cbv zeta.
  assert (popleft_while (now' - RateLimiter.time_window rl)
            (RateLimiter.window (RateLimiter.cleanup_old_entries rl now) identifier)
          = popleft_while (now' - RateLimiter.time_window rl)
              (RateLimiter.window rl identifier)) as Hsame.
  { rewrite window_cleanup. apply popleft_while_compose. lia. }
  unfold RateLimiter.check_rate_limit, RateLimiter.get_remaining_requests,
    RateLimiter.get_reset_time.
  rewrite !(proj1 (cleanup_config rl now)), !(proj2 (cleanup_config rl now)).
  rewrite !Hsame.
  split; [by destruct (_ <=? _)|].
  split; [destruct (_ <=? _); cbn [snd]; by rewrite !window_store|].
  split; [reflexivity|].
  split; [cbn [snd]; by rewrite !window_store|].
  intros Hmax.
  destruct (RateLimiter.window (RateLimiter.cleanup_old_entries rl now) identifier)
    as [|b q2] eqn:E2;
    destruct (RateLimiter.window rl identifier) as [|a q] eqn:E; cbn [fst];
    try reflexivity.
  - rewrite <- Hsame. cbn [popleft_while length].
    destruct (Z.ltb_spec (Z.of_nat 0) (RateLimiter.max_requests rl));
      [reflexivity|cbn in *; lia].
  - rewrite window_cleanup, E in E2. cbn in E2. discriminate.
  - rewrite Hsame. by destruct (_ <? _).
Qed.

Lemma cleanup_is_transparent_witness :
  0 <= RateLimiter.time_window (RateLimiter.mk 2 60 {[ "u1" := [0; 100] ]})
  /\ 130 <= 140
  /\ fst (RateLimiter.check_rate_limit
            (RateLimiter.cleanup_old_entries
               (RateLimiter.mk 2 60 {[ "u1" := [0; 100] ]}) 130) "u1" 140)
     = fst (RateLimiter.check_rate_limit
              (RateLimiter.mk 2 60 {[ "u1" := [0; 100] ]}) "u1" 140).
Proof.
  split; [discriminate|]. split; [lia|].
  exact (proj1 (cleanup_is_transparent
                  (RateLimiter.mk 2 60 {[ "u1" := [0; 100] ]}) "u1" 130 140
                  ltac:(discriminate) ltac:(lia))).
Defined.

(** X10.  After [cleanup_old_entries] no tracked window is empty and
    every tracked window begins with a timestamp later than
    [now - 2 * time_window]; no identifier is added; and a second sweep at
    the same time changes nothing. *)
Theorem cleanup_compacts rl now :
  (forall identifier q,
     RateLimiter.requests (RateLimiter.cleanup_old_entries rl now) !! identifier
     = Some q ->
     exists oldest rest,
       q = oldest :: rest /\ now - 2 * RateLimiter.time_window rl < oldest)
  /\ dom (RateLimiter.requests (RateLimiter.cleanup_old_entries rl now))
     ⊆ dom (RateLimiter.requests rl)
  /\ (size (RateLimiter.requests (RateLimiter.cleanup_old_entries rl now))
      <= size (RateLimiter.requests rl))%nat
  /\ RateLimiter.cleanup_old_entries (RateLimiter.cleanup_old_entries rl now) now
     = RateLimiter.cleanup_old_entries rl now.
Proof.
  split; [|split; [|split]].
  - intros i q Hq.
    unfold RateLimiter.cleanup_old_entries, RateLimiter.with_requests in Hq.
    cbn in Hq. rewrite lookup_omap in Hq.
    destruct (RateLimiter.requests rl !! i) as [w|]; [|discriminate].
    cbn in Hq.
    pose proof (popleft_while_head (now - RateLimiter.time_window rl * 2) w)
      as Hh.
    destruct (popleft_while (now - RateLimiter.time_window rl * 2) w)
      as [|oldest rest]; [discriminate|].
    injection Hq as <-. exists oldest, rest. split; [reflexivity|lia].
  - unfold RateLimiter.cleanup_old_entries, RateLimiter.with_requests. cbn.
    apply dom_omap_subseteq.
  - unfold RateLimiter.cleanup_old_entries, RateLimiter.with_requests. cbn.
    rewrite <- !size_dom. apply subseteq_size, dom_omap_subseteq.
  - unfold RateLimiter.cleanup_old_entries, RateLimiter.with_requests. cbn.
    f_equal. apply map_eq. intros i. rewrite !lookup_omap.
    destruct (RateLimiter.requests rl !! i) as [w|]; [|reflexivity].
    pose proof (popleft_while_idem (now - RateLimiter.time_window rl * 2) w)
      as Hidem.
    cbn [mbind option_bind].
    destruct (popleft_while (now - RateLimiter.time_window rl * 2) w)
      as [|a q]; [reflexivity|].
    cbn [mbind option_bind]. by rewrite Hidem.
Qed.

(** ** [get_stats] *)

Lemma get_stats_fold rl now :
  RateLimiter.get_stats rl now
  = let r := map_fold (stats_round (now - RateLimiter.time_window rl))
               (0%nat, 0%nat) (RateLimiter.requests rl) in
    RateLimiter.mk_stats (size (RateLimiter.requests rl)) (fst r) (snd r)
      (RateLimiter.max_requests rl) (RateLimiter.time_window rl).
Proof.
  unfold RateLimiter.get_stats. cbv zeta.
  assert ((fun (_ : string) (user_requests : list Z) '(active, total) =>
            if (0 <? RateLimiter.recent_requests
                       (now - RateLimiter.time_window rl) user_requests)%nat
            then (S active,
                  (total + RateLimiter.recent_requests
                             (now - RateLimiter.time_window rl) user_requests)%nat)
            else (active, total))
          = stats_round (now - RateLimiter.time_window rl)) as -> by reflexivity.
  by destruct (map_fold _ _ _).
Qed.

Lemma stats_round_comm thr j1 z1 j2 z2 acc :
  stats_round thr j1 z1 (stats_round thr j2 z2 acc)
  = stats_round thr j2 z2 (stats_round thr j1 z1 acc).
Proof.
  destruct acc as [a t]. unfold stats_round.
  destruct (0 <? RateLimiter.recent_requests thr z1)%nat,
           (0 <? RateLimiter.recent_requests thr z2)%nat;
    try reflexivity; f_equal; lia.
Qed.

(** X11.  In what [get_stats] reports, the active users are among the
    tracked ones, each active user accounts for at least one recent request,
    and the recent requests are not more than the timestamps kept. *)
Theorem stats_are_consistent rl now :
  let st := RateLimiter.get_stats rl now in
  (RateLimiter.active_users st <= RateLimiter.total_users_tracked st)%nat
  /\ (RateLimiter.active_users st <= RateLimiter.total_recent_requests st)%nat
  /\ (RateLimiter.total_recent_requests st
      <= map_fold (fun _ q n => (length q + n)%nat) 0%nat (RateLimiter.requests rl))%nat
  /\ (RateLimiter.requests rl = ∅ ->
      RateLimiter.active_users st = 0%nat
      /\ RateLimiter.total_recent_requests st = 0%nat).
Proof.
  cbv zeta. rewrite get_stats_fold. cbv zeta.
  cbn [RateLimiter.active_users RateLimiter.total_users_tracked
       RateLimiter.total_recent_requests].
  split; [|split; [|split]].
  - apply (map_fold_weak_ind (fun r m => (fst r <= size m)%nat)).
    + cbn. lia.
    + intros i x m [a t] Hi IH. rewrite map_size_insert_None by exact Hi.
      unfold stats_round. cbn in IH. destruct (0 <? _)%nat; cbn; lia.
  - apply (map_fold_weak_ind (fun r (_ : gmap string (list Z)) =>
                                (fst r <= snd r)%nat)).
    + cbn. lia.
    + intros i x m [a t] Hi IH. unfold stats_round. cbn in IH.
      destruct (Nat.ltb_spec 0 (RateLimiter.recent_requests
                                  (now - RateLimiter.time_window rl) x));
        cbn; lia.
  - generalize (RateLimiter.requests rl). intros m.
    induction m as [|i x m Hi IH] using map_ind.
    + rewrite !map_fold_empty. cbn. lia.
    + rewrite (map_fold_insert_L (stats_round _)); [|intros; apply stats_round_comm|exact Hi].
      rewrite (map_fold_insert_L (fun _ q n => (length q + n)%nat));
        [|intros; lia|exact Hi].
      destruct (map_fold (stats_round _) _ m) as [a t]. cbn [snd] in IH.
      unfold stats_round.
      assert (RateLimiter.recent_requests (now - RateLimiter.time_window rl) x
              <= length x)%nat as Hx.
      { unfold RateLimiter.recent_requests. apply List.filter_length_le. }
      destruct (0 <? _)%nat; cbn [snd]; lia.
  - intros ->. rewrite map_fold_empty. split; reflexivity.
Qed.

Lemma recent_after_trim thr thr' q :
  thr <= thr' ->
  RateLimiter.recent_requests thr' (popleft_while thr q)
  = RateLimiter.recent_requests thr' q.
Proof.
  intros Hle. unfold RateLimiter.recent_requests.
  induction q as [|a q IH]; [reflexivity|].
  cbn [popleft_while]. destruct (Z.leb_spec a thr) as [Ha|Ha]; [|reflexivity].
  cbn [List.filter].
  assert ((thr' <? a) = false) as -> by (apply Z.ltb_ge; lia). exact IH.
Qed.

Lemma stats_fold_after_sweep thr thr' (m : gmap string (list Z)) :
  thr <= thr' ->
  map_fold (stats_round thr') (0%nat, 0%nat)
    (omap (fun user_requests =>
             match popleft_while thr user_requests with
             | [] => None
             | q => Some q
             end) m)
  = map_fold (stats_round thr') (0%nat, 0%nat) m.
Proof.
  intros Hle. induction m as [|i x m Hi IH] using map_ind.
  - by rewrite omap_empty.
  - rewrite (map_fold_insert_L (stats_round thr') _ i x m);
      [|intros; apply stats_round_comm|exact Hi].
    pose proof (recent_after_trim thr thr' x Hle) as Hx.
    destruct (popleft_while thr x) as [|a q] eqn:E.
    + rewrite omap_insert_None by (by rewrite E).
      rewrite delete_id by (by rewrite lookup_omap, Hi).
      rewrite IH. destruct (map_fold _ _ m) as [act tot].
      unfold stats_round. rewrite <- Hx. reflexivity.
    + rewrite (omap_insert_Some _ _ _ _ (a :: q)) by (by rewrite E).
      rewrite (map_fold_insert_L (stats_round thr'));
        [|intros; apply stats_round_comm|by rewrite lookup_omap, Hi].
      rewrite IH. destruct (map_fold _ _ m) as [act tot].
      unfold stats_round. by rewrite <- Hx.
Qed.

(** X12.  A sweep does not change the active users and the recent
    requests that [get_stats] reports at a time not before it (with a
    non-negative [time_window]); it can only lower the tracked users. *)
Theorem stats_after_sweep rl now now'
    (Hwin : 0 <= RateLimiter.time_window rl)
    (Hle : now <= now') :
  let before := RateLimiter.get_stats rl now' in
  let after :=
    RateLimiter.get_stats (RateLimiter.cleanup_old_entries rl now) now' in
  RateLimiter.active_users after = RateLimiter.active_users before
  /\ RateLimiter.total_recent_requests after
     = RateLimiter.total_recent_requests before
  /\ (RateLimiter.total_users_tracked after
      <= RateLimiter.total_users_tracked before)%nat.
Proof.
  cbv zeta. rewrite !get_stats_fold. cbv zeta.
  cbn [RateLimiter.active_users RateLimiter.total_users_tracked
       RateLimiter.total_recent_requests RateLimiter.cleanup_old_entries
       RateLimiter.with_requests RateLimiter.requests RateLimiter.time_window].
  rewrite stats_fold_after_sweep by lia.
  split; [reflexivity|]. split; [reflexivity|].
  rewrite <- !size_dom. apply subseteq_size, dom_omap_subseteq.
Qed.

Lemma stats_after_sweep_witness :
  0 <= RateLimiter.time_window (RateLimiter.mk 2 60 {[ "u1" := [0; 100] ]})
  /\ 130 <= 140
  /\ RateLimiter.active_users
       (RateLimiter.get_stats
          (RateLimiter.cleanup_old_entries
             (RateLimiter.mk 2 60 {[ "u1" := [0; 100] ]}) 130) 140)
     = RateLimiter.active_users
         (RateLimiter.get_stats (RateLimiter.mk 2 60 {[ "u1" := [0; 100] ]}) 140).
Proof.
  split; [discriminate|]. split; [lia|].
  exact (proj1 (stats_after_sweep (RateLimiter.mk 2 60 {[ "u1" := [0; 100] ]})
                  130 140 ltac:(discriminate) ltac:(lia))).
Defined.

(** ** The global limiter *)

Lemma keyed_window g k : RateLimiter.window (keyed g k) k = GlobalRateLimiter.requests g.
Proof. unfold RateLimiter.window, keyed. cbn. by rewrite lookup_singleton_eq. Qed.

Lemma keyed_store g k q :
  RateLimiter.store (keyed g k) k q
  = keyed (GlobalRateLimiter.mk (GlobalRateLimiter.max_requests_per_minute g) q) k.
Proof.
  unfold RateLimiter.store, RateLimiter.with_requests, keyed. cbn.
  by rewrite insert_singleton_eq.
Qed.

Lemma check_global_keyed g k now :
  RateLimiter.check_rate_limit (keyed g k) k now
  = (fst (GlobalRateLimiter.check_global_rate_limit g now),
     keyed (snd (GlobalRateLimiter.check_global_rate_limit g now)) k).
Proof.
  unfold RateLimiter.check_rate_limit,
    GlobalRateLimiter.check_global_rate_limit.
  rewrite keyed_window.
  change (RateLimiter.max_requests (keyed g k))
    with (GlobalRateLimiter.max_requests_per_minute g).
  change (RateLimiter.time_window (keyed g k)) with 60.
  destruct (_ <=? _); cbn [fst snd]; by rewrite keyed_store.
Qed.

(** X13.  The global limiter is the per-identifier limiter with a window
    of 60 seconds and a single identifier: [check_global_rate_limit] and
    [get_global_remaining_requests] answer, and change the deque, as
    [check_rate_limit] and [get_remaining_requests] do for that
    identifier. *)
Theorem global_is_keyed_limiter g k now :
  RateLimiter.check_rate_limit (keyed g k) k now
  = (fst (GlobalRateLimiter.check_global_rate_limit g now),
     keyed (snd (GlobalRateLimiter.check_global_rate_limit g now)) k)
  /\ RateLimiter.get_remaining_requests (keyed g k) k now
     = (fst (GlobalRateLimiter.get_global_remaining_requests g now),
        keyed (snd (GlobalRateLimiter.get_global_remaining_requests g now)) k).
Proof.
  split; [apply check_global_keyed|].
  unfold RateLimiter.get_remaining_requests,
    GlobalRateLimiter.get_global_remaining_requests.
  rewrite keyed_window.
  change (RateLimiter.max_requests (keyed g k))
    with (GlobalRateLimiter.max_requests_per_minute g).
  change (RateLimiter.time_window (keyed g k)) with 60.
  cbn [fst snd]. by rewrite keyed_store.
Qed.

Lemma global_granted_keyed g k times :
  global_granted_at g times = granted_at (keyed g k) k times.
Proof.
  revert g. induction times as [|now rest IH]; intros g; [reflexivity|].
  cbn [global_granted_at granted_at]. rewrite check_global_keyed.
  destruct (GlobalRateLimiter.check_global_rate_limit g now) as [ok g'].
  cbn [fst snd]. by rewrite IH.
Qed.

(** X14.  For successive [check_global_rate_limit] calls at
    non-decreasing times on a global limiter that starts empty, the calls
    answered [True] within any window of 60 seconds are at most
    [max_requests_per_minute]. *)
Theorem global_window_sound max_requests_per_minute times T
    (Hmax : 0 <= max_requests_per_minute)
    (Hclock : ascending times = true) :
  Z.of_nat (length (List.filter (in_trailing T 60)
                      (global_granted_at
                         (GlobalRateLimiter.init max_requests_per_minute) times)))
  <= max_requests_per_minute.
Proof.
  rewrite (global_granted_keyed _ "global").
  destruct times as [|t rest]; [cbn; exact Hmax|].
  apply (granted_at_sound max_requests_per_minute 60 "global" (t :: rest)
           ltac:(lia)
           (keyed (GlobalRateLimiter.init max_requests_per_minute) "global") [] t);
    try reflexivity.
  - change (ascending (t :: t :: rest)) with ((t <=? t) && ascending (t :: rest)).
    rewrite Hclock, andb_true_r. apply Z.leb_le. lia.
  - constructor.
  - intros T'. cbn. exact Hmax.
Qed.

Lemma global_window_sound_witness :
  0 <= 2 /\ ascending [0; 1; 2; 61] = true
  /\ Z.of_nat (length (List.filter (in_trailing 61 60)
                         (global_granted_at (GlobalRateLimiter.init 2)
                            [0; 1; 2; 61])))
     <= 2.
Proof.
  split; [lia|]. split; [reflexivity|].
  exact (global_window_sound 2 [0; 1; 2; 61] 61 ltac:(lia) eq_refl).
Defined.

(** ** More on white space *)

Lemma lstrip_headed s : not_headed is_space (lstrip s).
Proof.
  induction s as [|c s IH]; [exact I|]. cbn [lstrip].
  destruct (is_space c) eqn:E; [exact IH|exact E].
Qed.

Lemma lstrip_fixed s : not_headed is_space s -> lstrip s = s.
Proof. destruct s as [|c s]; [reflexivity|]. intros H. by apply lstrip_id. Qed.

Lemma lstrip_Forall (P : ascii -> Prop) s : Forall P s -> Forall P (lstrip s).
Proof.
  induction s as [|c s IH]; intros H; [constructor|].
  cbn [lstrip]. destruct (is_space c); [|exact H].
  apply IH. by apply Forall_cons in H as [_ H].
Qed.

Lemma strip_Forall (P : ascii -> Prop) s : Forall P s -> Forall P (strip s).
Proof.
  intros H. unfold strip, rstrip.
  apply Forall_rev, lstrip_Forall, Forall_rev, lstrip_Forall, H.
Qed.

Lemma strip_idem s : strip (strip s) = strip s.
Proof.
  unfold strip at 2 3. pose proof (lstrip_headed s) as Hh.
  destruct (lstrip s) as [|c l]; [reflexivity|]. cbn in Hh.
  unfold rstrip. cbn [rev].
  destruct (lstrip_snoc (rev l) c Hh) as [v Hv]. rewrite Hv, rev_app_distr.
  cbn [rev app]. unfold strip, rstrip. rewrite (lstrip_id c (rev v) Hh).
  cbn [rev]. rewrite rev_involutive, <- Hv.
  rewrite (lstrip_fixed (lstrip (rev l ++ [c]))) by apply lstrip_headed.
  by rewrite Hv, rev_app_distr.
Qed.

Lemma single_spaced_facts s :
  single_spaced s ->
  strip s = s /\ join (txt " ") (split s) = s
  /\ Forall (fun c => is_space c = true -> c = " "%char) s.
Proof.
  intros (tokens & Htok & ->). split; [by apply strip_join|].
  split; [by rewrite split_join|].
  apply join_Forall; [by repeat constructor|].
  eapply Forall_impl; [exact Htok|]. cbv beta. intros w [_ Hw].
  eapply Forall_impl; [exact Hw|]. cbv beta. intros c Hc Hs. congruence.
Qed.

Lemma clean_claim_tokens s : single_spaced (FactChecker._clean_claim s).
Proof.
  exists (split (FactChecker.strip_markup s)).
  split; [apply split_tokens|apply clean_claim_unfold].
Qed.

(** X15.  The normal form that [_clean_claim] returns is a sequence of
    words joined by single spaces: it has no white space at its ends, the
    only white-space character in it is the space, and splitting it into
    words and joining them again gives it back. *)
Theorem clean_claim_single_spaced s :
  single_spaced (FactChecker._clean_claim s)
  /\ strip (FactChecker._clean_claim s) = FactChecker._clean_claim s
  /\ join (txt " ") (split (FactChecker._clean_claim s))
     = FactChecker._clean_claim s
  /\ Forall (fun c => is_space c = true -> c = " "%char)
       (FactChecker._clean_claim s).
Proof.
  split; [apply clean_claim_tokens|].
  apply single_spaced_facts, clean_claim_tokens.
Qed.

(** ** The fields of the header parsers *)

Lemma line_group_no_newline r0 (fl : flags) response m :
  search fl (Seq [r0; Star (Cls is_space);
                  Group 1 (Plus (Cls (fun c => negb (Ascii.eqb c LF))))])
    response = Some m ->
  Forall (fun c => c <> LF) (FactChecker.group1 m).
Proof.
  intros H. apply search_from_inv in H as (pv & s & H).
  unfold match_here in H. cbn [Seq] in H. rewrite !exec_Cat in H.
  apply (exec_inv _ r0) in H as [x1 H].
  apply (exec_inv _ (Star _)) in H as [x2 H].
  apply (exec_group_rep _ _ _ _ _ _ Some) in H as (p & x3 & Hp & _ & _ & H).
  injection H as <-. unfold FactChecker.group1. cbn.
  eapply Forall_impl; [exact Hp|]. cbv beta. intros c Hc ->.
  cbn in Hc. rewrite ?Ascii.eqb_refl in Hc. discriminate.
Qed.

Lemma fact_check_accuracy response :
  accuracy (FactChecker._parse_fact_check_response response)
  = match search flag_I FactChecker.accuracy_re response with
    | Some m => strip (FactChecker.group1 m)
    | None => txt "Unknown"
    end.
Proof.
  rewrite fact_check_cases. cbv zeta.
  by destruct (confidence_raises response).
Qed.

Lemma fact_check_explanation response :
  if confidence_raises response
  then explanation (FactChecker._parse_fact_check_response response)
       = ellipsis 500 response
  else single_spaced
         (explanation (FactChecker._parse_fact_check_response response)).
Proof.
  rewrite fact_check_cases. cbv zeta.
  destruct (confidence_raises response); cbn [explanation]; [reflexivity|].
  destruct (search flag_IS FactChecker.explanation_re response).
  - eexists; split; [apply split_tokens|reflexivity].
  - exists []; split; [constructor|reflexivity].
Qed.

Lemma old_expose_cases response :
  _parse_expose_response_old response
  = let found :=
      match search flag_I expose_type_re response with
      | Some m => strip (FactChecker.group1 m)
      | None => txt "Unknown"
      end in
    if confidence_raises response
    then mk_expose found 0 (ellipsis 500 response) []
    else mk_expose found
           (match search flag_I FactChecker.confidence_re response with
            | Some m => int_of_digits (FactChecker.group1 m)
            | None => 0
            end)
           (match search flag_IS analysis_re response with
            | Some m =>
                join (txt " ")
                  (split (sub no_flags FactChecker.newlines_re (Text (txt " "))
                            (strip (FactChecker.group1 m))))
            | None => []
            end)
           (match search flag_IS evidence_re response with
            | Some m =>
                firstn 4 (FactChecker.collect_sources
                            (strip (FactChecker.group1 m)))
            | None => []
            end).
Proof.
  unfold _parse_expose_response_old, confidence_raises, int.
  destruct (search flag_I expose_type_re response),
           (search flag_I FactChecker.confidence_re response) as [m|];
    try destruct (int_max_str_digits <? length (FactChecker.group1 m))%nat;
    destruct (search flag_IS analysis_re response),
             (search flag_IS evidence_re response); reflexivity.
Qed.

(** X16.  The accuracy of a parsed response is one line without white
    space at its ends: the rest of the line behind the first ACCURACY
    header, or "Unknown" when the response has no such header. *)
Theorem fact_check_accuracy_is_a_line response :
  Forall (fun c => c <> LF)
    (accuracy (FactChecker._parse_fact_check_response response))
  /\ strip (accuracy (FactChecker._parse_fact_check_response response))
     = accuracy (FactChecker._parse_fact_check_response response)
  /\ (search flag_I FactChecker.accuracy_re response = None ->
      accuracy (FactChecker._parse_fact_check_response response)
      = txt "Unknown").
Proof.
  rewrite fact_check_accuracy.
  destruct (search flag_I FactChecker.accuracy_re response) as [m|] eqn:E.
  - split; [|split; [apply strip_idem|discriminate]].
    apply strip_Forall.
    exact (line_group_no_newline (Word "ACCURACY:") flag_I response m E).
  - split; [|split; [reflexivity|reflexivity]].
    repeat constructor; discriminate.
Qed.

(** X17.  When the CONFIDENCE digits of a response are at most 4300, the
    explanation of the result is a sequence of words joined by single
    spaces, so it is one line: line breaks and runs of white space of the
    response are collapsed.  When they are more, [int] raises and the
    explanation is the response itself, cut after 500 characters. *)
Theorem fact_check_explanation_single_spaced response :
  if confidence_raises response
  then explanation (FactChecker._parse_fact_check_response response)
       = ellipsis 500 response
  else single_spaced
         (explanation (FactChecker._parse_fact_check_response response))
       /\ Forall (fun c => c <> LF)
            (explanation (FactChecker._parse_fact_check_response response))
       /\ strip (explanation (FactChecker._parse_fact_check_response response))
          = explanation (FactChecker._parse_fact_check_response response).
Proof.
  pose proof (fact_check_explanation response) as H.
  destruct (confidence_raises response); [exact H|].
  destruct (single_spaced_facts _ H) as (Hstrip & _ & Hsp).
  split; [exact H|]. split; [|exact Hstrip].
  eapply Forall_impl; [exact Hsp|]. cbv beta. intros c Hc ->.
  specialize (Hc eq_refl). discriminate.
Qed.

(** X18.  [_parse_expose_response_old] reads the CONFIDENCE header as
    [_parse_fact_check_response] does.  When the digits behind it are at
    most 4300, its evidence is the EVIDENCE section treated as the SOURCES
    section is, and its analysis is a sequence of words joined by single
    spaces; when they are more, [int] raises, there is no evidence and the
    analysis is the response, cut after 500 characters.  In both cases the
    evidence has at most 4 entries, none empty and none beginning with a
    glyph. *)
Theorem old_expose_parser_fields response :
  expose_confidence (_parse_expose_response_old response)
  = confidence (FactChecker._parse_fact_check_response response)
  /\ evidence (_parse_expose_response_old response)
     = (if confidence_raises response then []
        else match search flag_IS evidence_re response with
             | Some m => listed_sources (strip (FactChecker.group1 m))
             | None => []
             end)
  /\ (length (evidence (_parse_expose_response_old response)) <= 4)%nat
  /\ Forall glyph_free (evidence (_parse_expose_response_old response))
  /\ (if confidence_raises response
      then analysis (_parse_expose_response_old response)
           = ellipsis 500 response
      else single_spaced (analysis (_parse_expose_response_old response))).
Proof.
  assert (evidence (_parse_expose_response_old response)
          = if confidence_raises response then []
            else match search flag_IS evidence_re response with
                 | Some m => listed_sources (strip (FactChecker.group1 m))
                 | None => []
                 end) as Hev.
  { rewrite old_expose_cases. cbv zeta.
    destruct (confidence_raises response); cbn [evidence]; [reflexivity|].
    unfold listed_sources.
    destruct (search flag_IS evidence_re response);
      rewrite ?collect_sources_entries; reflexivity. }
  split; [|split; [exact Hev|]].
  - rewrite old_expose_cases, fact_check_cases. cbv zeta.
    by destruct (confidence_raises response).
  - rewrite Hev. split; [|split].
    + destruct (confidence_raises response); [cbn; lia|].
      destruct (search flag_IS evidence_re response);
        [apply firstn_le_length|cbn; lia].
    + destruct (confidence_raises response); [constructor|].
      destruct (search flag_IS evidence_re response);
        [apply listed_sources_glyph_free|constructor].
    + rewrite old_expose_cases. cbv zeta.
      destruct (confidence_raises response); cbn [analysis]; [reflexivity|].
      destruct (search flag_IS analysis_re response).
      * eexists; split; [apply split_tokens|reflexivity].
      * exists []; split; [constructor|reflexivity].
Qed.

(** ** [check_claim], once more *)

Lemma check_claim_events model claim :
  snd (FactChecker.check_claim model claim)
  = EvNormalized (FactChecker._clean_claim claim) ::
    (if (length (FactChecker._clean_claim claim) <? 10)%nat then []
     else [EvRequest (FactCheckPrompt (FactChecker._clean_claim claim))]).
Proof.
  destruct (Nat.ltb_spec (length (FactChecker._clean_claim claim)) 10)
    as [Hshort|Hlong].
  - by rewrite check_claim_short.
  - rewrite check_claim_long by exact Hlong. cbv zeta.
    by destruct (FactChecker._call_gemini_async model _).
Qed.

Lemma check_claim_value model claim :
  fst (FactChecker.check_claim model claim)
  = if (length (FactChecker._clean_claim claim) <? 10)%nat then None
    else option_map FactChecker._parse_fact_check_response
           (FactChecker._call_gemini_async model
              (FactCheckPrompt (FactChecker._clean_claim claim))).
Proof.
  destruct (Nat.ltb_spec (length (FactChecker._clean_claim claim)) 10)
    as [Hshort|Hlong].
  - by rewrite check_claim_short.
  - rewrite check_claim_long by exact Hlong. cbv zeta.
    by destruct (FactChecker._call_gemini_async model _).
Qed.

Lemma call_gemini_some model p response :
  FactChecker._call_gemini_async model p = Some response <->
  model p = Some response /\ response <> [].
Proof.
  unfold FactChecker._call_gemini_async.
  destruct (model p) as [[|c s]|]; split; intros H;
    try discriminate H; try (destruct H; congruence).
  injection H as <-. split; [reflexivity|discriminate].
Qed.

(** X19.  [check_claim] sends a request exactly when the normal form of
    the claim has at least 10 characters, and the request carries the
    normal form, not the raw text; it returns a result exactly when in
    addition the model answers with a text that is not empty, and the
    result is that text parsed. *)
Theorem check_claim_characterised model claim :
  let cleaned := FactChecker._clean_claim claim in
  snd (FactChecker.check_claim model claim)
  = EvNormalized cleaned ::
    (if (length cleaned <? 10)%nat then []
     else [EvRequest (FactCheckPrompt cleaned)])
  /\ (forall r,
        fst (FactChecker.check_claim model claim) = Some r <->
        (10 <= length cleaned)%nat
        /\ exists response,
             model (FactCheckPrompt cleaned) = Some response
             /\ response <> []
             /\ r = FactChecker._parse_fact_check_response response).
Proof.
  cbv zeta. split; [apply check_claim_events|].
  intros r. rewrite check_claim_value.
  destruct (Nat.ltb_spec (length (FactChecker._clean_claim claim)) 10)
    as [Hshort|Hlong].
  - split; [discriminate|]. intros [H _]. lia.
  - destruct (FactChecker._call_gemini_async model _) as [response|] eqn:E.
    + apply call_gemini_some in E as [Hm Hne]. cbn [option_map]. split.
      * intros [= <-]. eauto 6.
      * intros (_ & response' & Hm' & _ & ->). congruence.
    + cbn [option_map]. split; [discriminate|].
      intros (_ & response & Hm & Hne & _).
      assert (FactChecker._call_gemini_async model
                (FactCheckPrompt (FactChecker._clean_claim claim))
              = Some response) as E' by (by apply call_gemini_some).
      congruence.
Qed.

(** ** The commands *)

(** X20.  [truthiness_command] sends a request to the model only for a
    claim of at most 1000 characters that, white space at its ends apart,
    has at least 10, and whose normal form has at least 10; the request
    carries the normal form. *)
Theorem truthiness_request_bounds model claim p
    (Hreq : In (EvRequest p) (snd (truthiness_command model claim))) :
  exists c,
    claim = Some c
    /\ (length c <= 1000)%nat
    /\ (10 <= length (strip c))%nat
    /\ (10 <= length (FactChecker._clean_claim c))%nat
    /\ p = FactCheckPrompt (FactChecker._clean_claim c).
Proof.
  unfold truthiness_command in Hreq.
  destruct claim as [[|a c]|]; try (cbn in Hreq; contradiction).
  destruct (Nat.ltb_spec 1000 (length (a :: c))) as [|Hlen];
    [cbn in Hreq; contradiction|].
  destruct (Nat.ltb_spec (length (strip (a :: c))) 10) as [|Hraw];
    [cbn in Hreq; contradiction|].
  assert (In (EvRequest p) (snd (FactChecker.check_claim model (a :: c))))
    as Hin.
  { destruct (FactChecker.check_claim model (a :: c)) as [[r|] evs]; exact Hreq. }
  rewrite check_claim_events in Hin.
  destruct (Nat.ltb_spec (length (FactChecker._clean_claim (a :: c))) 10)
    as [|Hnorm]; cbn in Hin.
  - destruct Hin as [Hin|[]]; discriminate.
  - destruct Hin as [Hin|[Hin|[]]]; [discriminate|].
    injection Hin as <-. exists (a :: c). repeat split; assumption.
Qed.

Lemma truthiness_request_bounds_witness :
  In (EvRequest (FactCheckPrompt (txt "The moon is made of cheese")))
     (snd (truthiness_command (fun _ => None)
             (Some (txt "The  moon is made of cheese "))))
  /\ exists c,
       Some (txt "The  moon is made of cheese ") = Some c
       /\ (length c <= 1000)%nat
       /\ (10 <= length (strip c))%nat
       /\ (10 <= length (FactChecker._clean_claim c))%nat
       /\ FactCheckPrompt (txt "The moon is made of cheese")
          = FactCheckPrompt (FactChecker._clean_claim c).
Proof.
  assert (In (EvRequest (FactCheckPrompt (txt "The moon is made of cheese")))
            (snd (truthiness_command (fun _ => None)
                    (Some (txt "The  moon is made of cheese ")))))
    as H by (vm_compute; right; left; reflexivity).
  split; [exact H|].
  exact (truthiness_request_bounds (fun _ => None)
           (Some (txt "The  moon is made of cheese "))
           (FactCheckPrompt (txt "The moon is made of cheese")) H).
Defined.

(** X21.  [quick_check_command] sends a request only for a claim of at
    most 500 characters whose normal form has at least 10; it has no reply
    of its own for a short claim, which gets the reply of a failed check
    without a request; and the brief explanation of a result is not empty
    and has at most 203 characters. *)
Theorem quick_check_outcomes model claim :
  (forall p,
     In (EvRequest p) (snd (quick_check_command model (Some claim))) ->
     (length claim <= 500)%nat
     /\ (10 <= length (FactChecker._clean_claim claim))%nat
     /\ p = FactCheckPrompt (FactChecker._clean_claim claim))
  /\ (claim <> [] -> (length claim <= 500)%nat ->
      (length (FactChecker._clean_claim claim) < 10)%nat ->
      quick_check_command model (Some claim)
      = (QuickFailed, [EvNormalized (FactChecker._clean_claim claim)]))
  /\ (forall c a n brief,
        fst (quick_check_command model (Some claim))
        = QuickResult c a n (Some brief) ->
        brief <> [] /\ (length brief <= 203)%nat).
Proof.
  assert (forall c0 : str, c0 <> [] -> (length c0 <= 500)%nat ->
            quick_check_command model (Some c0)
            = let '(result, evs) := FactChecker.check_claim model c0 in
              match result with
              | Some r =>
                  (QuickResult (accuracy_color (accuracy r)) (accuracy r)
                     (confidence r)
                     (match explanation r with
                      | [] => None
                      | _ :: _ => Some (ellipsis 200 (explanation r))
                      end), evs)
              | None => (QuickFailed, evs)
              end) as Hcmd.
  { intros c0 Hc Hl. unfold quick_check_command. destruct c0 as [|a c0]; [done|].
    apply Nat.ltb_ge in Hl. by rewrite Hl. }
  split; [|split].
  - intros p Hreq.
    destruct claim as [|a c]; [cbn in Hreq; contradiction|].
    destruct (Nat.ltb_spec 500 (length (a :: c))) as [Hlong|Hlen].
    { unfold quick_check_command in Hreq. apply Nat.ltb_lt in Hlong.
      rewrite Hlong in Hreq. cbn in Hreq. contradiction. }
    rewrite (Hcmd (a :: c)) in Hreq by (done || lia).
    assert (In (EvRequest p) (snd (FactChecker.check_claim model (a :: c))))
      as Hin.
    { destruct (FactChecker.check_claim model (a :: c)) as [[r|] evs]; exact Hreq. }
    rewrite check_claim_events in Hin.
    destruct (Nat.ltb_spec (length (FactChecker._clean_claim (a :: c))) 10)
      as [|Hnorm]; cbn in Hin.
    + destruct Hin as [Hin|[]]; discriminate.
    + destruct Hin as [Hin|[Hin|[]]]; [discriminate|].
      injection Hin as <-. repeat split; assumption.
  - intros Hne Hlen Hshort.
    rewrite (Hcmd claim Hne Hlen), check_claim_short by exact Hshort.
    reflexivity.
  - intros c a n brief Hres.
    destruct claim as [|a0 c0]; [discriminate|].
    destruct (Nat.ltb_spec 500 (length (a0 :: c0))) as [Hlong|Hlen].
    { unfold quick_check_command in Hres. apply Nat.ltb_lt in Hlong.
      rewrite Hlong in Hres. discriminate. }
    rewrite (Hcmd (a0 :: c0)) in Hres by (done || lia).
    destruct (FactChecker.check_claim model (a0 :: c0)) as [[r|] evs];
      [|discriminate].
    cbn [fst] in Hres.
    destruct (explanation r) as [|e0 e] eqn:E; [discriminate|].
    injection Hres as _ _ _ <-. unfold ellipsis.
    destruct (Nat.ltb_spec 200 (length (e0 :: e))) as [Hcut|Hfit].
    + split.
      * intros Hnil. apply (f_equal (@length _)) in Hnil.
        rewrite length_app in Hnil. cbn in Hnil. lia.
      * rewrite length_app, length_firstn. cbn [txt list_ascii_of_string length].
        lia.
    + split; [discriminate|lia].
Qed.

(** ** The embed *)

(** X22.  In the embed of a result the explanation has at most 1024
    characters: it is the explanation itself when that has at most 1024, and
    else its first 1021 characters and an ellipsis.  At most 3 sources are
    shown, and the count announced behind them is the number of those left
    out; for a result of the parser that count is 1 when it is given. *)
Theorem embed_respects_limits claim result auto_check response :
  let e := _create_truthiness_embed claim result auto_check in
  (length (embed_explanation e) <= 1024)%nat
  /\ ((length (explanation result) <= 1024)%nat ->
      embed_explanation e = explanation result)
  /\ firstn 1021 (embed_explanation e) = firstn 1021 (explanation result)
  /\ match embed_sources e with
     | None => sources result = []
     | Some (shown, more) =>
         shown = firstn 3 (sources result) /\ shown <> []
         /\ (length shown <= 3)%nat
         /\ (length shown + default 0%nat more = length (sources result))%nat
         /\ more <> Some 0%nat
     end
  /\ match embed_sources
             (_create_truthiness_embed claim
                (FactChecker._parse_fact_check_response response) auto_check)
     with
     | Some (_, Some more) => more = 1%nat
     | _ => True
     end.
Proof.
  cbv zeta. unfold _create_truthiness_embed.
  cbn [embed_explanation embed_sources].
  split; [|split; [|split; [|split]]].
  - destruct (Nat.ltb_spec 1024 (length (explanation result))); [|lia].
    rewrite length_app, length_firstn. cbn [txt list_ascii_of_string length]. lia.
  - intros Hfit. apply Nat.ltb_ge in Hfit. by rewrite Hfit.
  - destruct (Nat.ltb_spec 1024 (length (explanation result))); [|reflexivity].
    rewrite firstn_app, length_firstn.
    replace (1021 - Nat.min 1021 (length (explanation result)))%nat
      with 0%nat by lia.
    by rewrite firstn_O, app_nil_r, firstn_firstn.
  - destruct (sources result) as [|s0 ss] eqn:E; [reflexivity|].
    split; [reflexivity|]. split; [discriminate|].
    split; [apply firstn_le_length|].
    rewrite length_firstn.
    destruct (Nat.ltb_spec 3 (length (s0 :: ss))); cbn [default]; unfold id;
      (split; [lia|intros Hm; try discriminate Hm; injection Hm;
                   cbn [length] in *; lia]).
  - assert (length (sources (FactChecker._parse_fact_check_response response))
            <= 4)%nat as Hlen by apply fact_check_sources_length.
    destruct (sources (FactChecker._parse_fact_check_response response))
      as [|s0 ss]; [exact I|].
    destruct (Nat.ltb_spec 3 (length (s0 :: ss))); [lia|exact I].
Qed.

(** ** [on_message] outside the automatic path *)

Lemma check_claim_stages model claim e :
  In e (snd (FactChecker.check_claim model claim)) -> stage e = 3 \/ stage e = 4.
Proof.
  rewrite check_claim_events. intros [<-|Hin]; [left; reflexivity|].
  destruct (_ <? _)%nat; [contradiction|].
  destruct Hin as [<-|[]]. right. reflexivity.
Qed.

(** X23.  [on_message] consults and changes the limiter on the automatic
    path only: for a message of the bot itself, of an ignored bot, for a
    reply that mentions the bot, and when automatic checking is off, the
    limiter is as before, no admission check is in the trace, and the
    trace is the same whatever the limiter holds.  So the checks made for
    replies that mention the bot are not rate limited. *)
Theorem on_message_outside_automatic_path cfg model self msg now
    (Hpath : author_is_self msg = true
             \/ (author_bot msg = true /\ respond_to_bots cfg = false)
             \/ (is_Some (reference msg) /\ mentions_self msg = true)
             \/ auto_fact_check cfg = false) :
  fst (FactCheckerBot.on_message cfg model self msg now) = self
  /\ (forall e, In e (snd (FactCheckerBot.on_message cfg model self msg now)) ->
                stage e <> 1)
  /\ (forall self',
        snd (FactCheckerBot.on_message cfg model self' msg now)
        = snd (FactCheckerBot.on_message cfg model self msg now)).
Proof.
  assert (forall replied e,
            In e (FactCheckerBot._handle_reply_with_mention model replied msg) ->
            stage e <> 1) as Hreply.
  { intros replied e. unfold FactCheckerBot._handle_reply_with_mention.
    destruct replied as [r|]; [|intros [<-|[]]; discriminate].
    pose proof (check_claim_stages model (r ++ LF :: content msg)) as Hst.
    destruct (FactChecker.check_claim model (r ++ LF :: content msg))
      as [[res|] evs]; cbn [snd] in Hst.
    - intros Hin. apply in_app_or in Hin as [Hin|[<-|[]]]; [|discriminate].
      destruct (Hst e Hin) as [-> | ->]; discriminate.
    - intros Hin. destruct (Hst e Hin) as [-> | ->]; discriminate. }
  unfold FactCheckerBot.on_message.
  destruct (author_is_self msg) eqn:Hself.
  { split; [reflexivity|]. split; [intros e []|reflexivity]. }
  destruct (author_bot msg && negb (respond_to_bots cfg)) eqn:Hbot.
  { split; [reflexivity|]. split; [intros e []|reflexivity]. }
  destruct (reference msg) as [replied|] eqn:Href;
    destruct (mentions_self msg) eqn:Hment.
  1: { cbn [fst snd]. split; [reflexivity|].
       split; [apply Hreply|reflexivity]. }
  all: destruct Hpath as [H|[[H1 H2]|[[H1 H2]|H]]];
    try discriminate;
    try (rewrite H1, H2 in Hbot; discriminate);
    try (destruct H1; discriminate).
  all: rewrite H; cbn [negb fst snd]; (split; [reflexivity|]);
    (split; [intros e [<-|[]]; discriminate|reflexivity]).
Qed.

Lemma on_message_outside_automatic_path_witness :
  (author_is_self
     (mk_message false false "42" (txt "is that so?")
        (Some (Some (txt "The moon is made of cheese"))) true) = true
   \/ (author_bot
         (mk_message false false "42" (txt "is that so?")
            (Some (Some (txt "The moon is made of cheese"))) true) = true
       /\ respond_to_bots BOT_CONFIG = false)
   \/ (is_Some (reference
                  (mk_message false false "42" (txt "is that so?")
                     (Some (Some (txt "The moon is made of cheese"))) true))
       /\ mentions_self
            (mk_message false false "42" (txt "is that so?")
               (Some (Some (txt "The moon is made of cheese"))) true) = true)
   \/ auto_fact_check BOT_CONFIG = false)
  /\ fst (FactCheckerBot.on_message BOT_CONFIG (fun _ => None)
            (FactCheckerBot.mk (RateLimiter.mk 5 300 {[ "42" := [1; 2; 3; 4; 5] ]}))
            (mk_message false false "42" (txt "is that so?")
               (Some (Some (txt "The moon is made of cheese"))) true) 6)
     = FactCheckerBot.mk (RateLimiter.mk 5 300 {[ "42" := [1; 2; 3; 4; 5] ]}).
Proof.
  assert (is_Some (reference
                     (mk_message false false "42" (txt "is that so?")
                        (Some (Some (txt "The moon is made of cheese"))) true))
          /\ mentions_self
               (mk_message false false "42" (txt "is that so?")
                  (Some (Some (txt "The moon is made of cheese"))) true) = true)
    as H by (split; [eexists; reflexivity|reflexivity]).
  split; [right; right; left; exact H|].
  exact (proj1 (on_message_outside_automatic_path BOT_CONFIG (fun _ => None)
                  (FactCheckerBot.mk
                     (RateLimiter.mk 5 300 {[ "42" := [1; 2; 3; 4; 5] ]}))
                  (mk_message false false "42" (txt "is that so?")
                     (Some (Some (txt "The moon is made of cheese"))) true) 6
                  (or_intror (or_intror (or_introl H))))).
Defined.

(** ** The trigger *)

Lemma contains_nil hay : contains [] hay = true.
Proof. by destruct hay. Qed.

(** X24.  An empty keyword in the configuration makes
    [_should_fact_check] answer [True] for every message; with no empty
    keyword, the empty message does not trigger. *)
Theorem trigger_edge_cases cfg :
  (In [] (trigger_keywords cfg) ->
   forall content, FactCheckerBot._should_fact_check cfg content = true)
  /\ (Forall (fun keyword => keyword <> []) (trigger_keywords cfg) ->
      FactCheckerBot._should_fact_check cfg [] = false).
Proof.
  unfold FactCheckerBot._should_fact_check. split.
  - intros Hin content. apply orb_true_iff. left.
    apply existsb_exists. exists []. split; [exact Hin|apply contains_nil].
  - intros Hkw. apply orb_false_iff. split; [|vm_compute; reflexivity].
    induction (trigger_keywords cfg) as [|kw kws IH]; [reflexivity|].
    apply Forall_cons in Hkw as [Hne Hkw]. cbn [existsb].
    rewrite (IH Hkw), orb_false_r.
    destruct kw as [|c kw]; [done|]. reflexivity.
Qed.

(** ** Identifiers do not interfere *)

(** X25.  An operation made for one identifier leaves the window of every
    other identifier as it is, and with it every answer the limiter gives
    for the other identifier. *)
Theorem identifiers_are_independent op i j rl t now
    (Hop : op = OpAdmit i \/ op = OpRemaining i \/ op = OpResetIn i)
    (Hij : i <> j) :
  RateLimiter.requests (limiter_step op rl t) !! j = RateLimiter.requests rl !! j
  /\ fst (RateLimiter.check_rate_limit (limiter_step op rl t) j now)
     = fst (RateLimiter.check_rate_limit rl j now)
  /\ fst (RateLimiter.get_remaining_requests (limiter_step op rl t) j now)
     = fst (RateLimiter.get_remaining_requests rl j now)
  /\ fst (RateLimiter.get_reset_time (limiter_step op rl t) j now)
     = fst (RateLimiter.get_reset_time rl j now).
Proof.
  assert (RateLimiter.requests (limiter_step op rl t) !! j
          = RateLimiter.requests rl !! j) as Hreq.
  { destruct Hop as [-> | [-> | ->]]; cbn [limiter_step].
    - unfold RateLimiter.check_rate_limit.
      destruct (_ <=? _); cbn [snd]; by apply lookup_store_ne.
    - unfold RateLimiter.get_remaining_requests. cbn [snd].
      by apply lookup_store_ne.
    - unfold RateLimiter.get_reset_time.
      destruct (RateLimiter.window rl i); cbn [snd]; [by apply lookup_store_ne|].
      destruct (_ <? _); cbn [snd]; by apply lookup_store_ne. }
  assert (RateLimiter.window (limiter_step op rl t) j = RateLimiter.window rl j)
    as Hw by (unfold RateLimiter.window; by rewrite Hreq).
  destruct (limiter_step_config op rl t) as [Hm Ht].
  split; [exact Hreq|].
  unfold RateLimiter.check_rate_limit, RateLimiter.get_remaining_requests,
    RateLimiter.get_reset_time.
  rewrite Hw, Hm, Ht.
  split; [by destruct (_ <=? _)|]. split; [reflexivity|].
  destruct (RateLimiter.window rl j); [reflexivity|]. by destruct (_ <? _).
Qed.

Lemma identifiers_are_independent_witness :
  (OpAdmit "u1" = OpAdmit "u1" \/ OpAdmit "u1" = OpRemaining "u1"
   \/ OpAdmit "u1" = OpResetIn "u1")
  /\ "u1" <> "u2"
  /\ fst (RateLimiter.check_rate_limit
            (limiter_step (OpAdmit "u1") (RateLimiter.init 1 60) 0) "u2" 1)
     = fst (RateLimiter.check_rate_limit (RateLimiter.init 1 60) "u2" 1).
Proof.
  split; [left; reflexivity|]. split; [discriminate|].
  exact (proj1 (proj2 (identifiers_are_independent (OpAdmit "u1") "u1" "u2"
                         (RateLimiter.init 1 60) 0 1 (or_introl eq_refl)
                         ltac:(discriminate)))).
Defined.

(** ** Requests of the automatic path *)

Lemma on_message_user cfg model self author text now :
  auto_fact_check cfg = true ->
  let admission :=
    RateLimiter.check_rate_limit (FactCheckerBot.rate_limiter self) author now in
  FactCheckerBot.rate_limiter
    (fst (FactCheckerBot.on_message cfg model self (user_message author text) now))
  = snd admission
  /\ (existsb is_request
        (snd (FactCheckerBot.on_message cfg model self
                (user_message author text) now)) = true ->
      fst admission = true).
Proof.
  intros Hauto. cbv zeta. unfold FactCheckerBot.on_message, user_message.
  cbn [author_is_self author_bot reference mentions_self author_id content andb].
  rewrite Hauto. cbn [negb].
  destruct (RateLimiter.check_rate_limit _ _ _) as [ok rl].
  destruct ok; cbn [negb fst snd]; [|split; [reflexivity|discriminate]].
  by destruct (FactCheckerBot._should_fact_check cfg text).
Qed.

Lemma requests_among_granted cfg model author (P : Z -> bool) msgs :
  auto_fact_check cfg = true ->
  forall self,
    (length (List.filter P (automatic_requests_at cfg model self author msgs))
     <= length (List.filter P
                  (granted_at (FactCheckerBot.rate_limiter self) author
                     (map snd msgs))))%nat.
Proof.
  intros Hauto. induction msgs as [|[text now] rest IH]; intros self;
    [cbn; lia|].
  cbn [automatic_requests_at granted_at map snd].
  destruct (on_message_user cfg model self author text now Hauto) as [Hrl Hreq].
  destruct (FactCheckerBot.on_message cfg model self (user_message author text) now)
    as [self' trace].
  cbn [fst snd] in Hrl, Hreq. specialize (IH self'). rewrite Hrl in IH.
  destruct (RateLimiter.check_rate_limit _ author now) as [ok rl].
  cbn [fst snd] in *. rewrite !List.filter_app, !length_app.
  destruct (existsb is_request trace).
  - rewrite (Hreq eq_refl). lia.
  - cbn [List.filter length]. lia.
Qed.

(** X26.  For the messages of one author that are no commands, that is
    whose text does not begin with the command prefix, arriving at
    non-decreasing times at a bot that starts with an empty limiter, the
    requests that [on_message] sends to the model are at most
    [max_requests] within any window of [time_window] seconds.  For such
    messages [process_commands] runs no command, so the requests of the
    automatic path are all the requests there are. *)
Theorem automatic_requests_are_limited (s : settings) model author msgs T
    (Hauto : auto_fact_check (bot s) = true)
    (Hwin : 0 < rate_limit_time_window (bot s))
    (Hmax : 0 <= rate_limit_max_requests (bot s))
    (Hclock : ascending (map snd msgs) = true)
    (Hplain : Forall (fun m => startswith (command_prefix s) (fst m) = false)
                msgs) :
  Z.of_nat (length (List.filter
                      (in_trailing T (rate_limit_time_window (bot s)))
                      (automatic_requests_at (bot s) model
                         (FactCheckerBot.init (bot s)) author msgs)))
  <= rate_limit_max_requests (bot s).
Proof.
  set (cfg := bot s) in *.
  pose proof (requests_among_granted cfg model author
                (in_trailing T (rate_limit_time_window cfg)) msgs Hauto
                (FactCheckerBot.init cfg)) as Hle.
  cbn [FactCheckerBot.init FactCheckerBot.rate_limiter] in Hle.
  assert (Z.of_nat (length (List.filter
                              (in_trailing T (rate_limit_time_window cfg))
                              (granted_at
                                 (RateLimiter.init (rate_limit_max_requests cfg)
                                    (rate_limit_time_window cfg))
                                 author (map snd msgs))))
          <= rate_limit_max_requests cfg) as Hsound.
  { destruct (map snd msgs) as [|t rest] eqn:E; [cbn; exact Hmax|].
    apply (granted_at_sound (rate_limit_max_requests cfg)
             (rate_limit_time_window cfg) author (t :: rest) Hwin
             (RateLimiter.init (rate_limit_max_requests cfg)
                (rate_limit_time_window cfg)) [] t);
      try reflexivity.
    - change (ascending (t :: t :: rest))
        with ((t <=? t) && ascending (t :: rest)).
      rewrite Hclock, andb_true_r. apply Z.leb_le. lia.
    - constructor.
    - intros T'. cbn. exact Hmax. }
  lia.
Qed.

Lemma automatic_requests_are_limited_witness :
  let s := mk_settings (fun _ => None) BOT_CONFIG (txt "!") NaN 1000 in
  let msgs := [(txt "studies show that the moon is cheese", 0);
               (txt "scientists say the earth is flat", 1)] in
  auto_fact_check (bot s) = true
  /\ 0 < rate_limit_time_window (bot s)
  /\ 0 <= rate_limit_max_requests (bot s)
  /\ ascending (map snd msgs) = true
  /\ Forall (fun m => startswith (command_prefix s) (fst m) = false) msgs
  /\ Z.of_nat (length (List.filter
                         (in_trailing 1 (rate_limit_time_window (bot s)))
                         (automatic_requests_at (bot s) (fun _ => None)
                            (FactCheckerBot.init (bot s)) "42" msgs)))
     <= rate_limit_max_requests (bot s).
Proof.
  cbv zeta.
  assert (Forall (fun m => startswith (txt "!") (fst m) = false)
            [(txt "studies show that the moon is cheese", 0);
             (txt "scientists say the earth is flat", 1)]) as Hplain
    by (repeat constructor).
  split; [reflexivity|]. split; [reflexivity|]. split; [discriminate|].
  split; [reflexivity|]. split; [exact Hplain|].
  exact (automatic_requests_are_limited
           (mk_settings (fun _ => None) BOT_CONFIG (txt "!") NaN 1000)
           (fun _ => None) "42"
           [(txt "studies show that the moon is cheese", 0);
            (txt "scientists say the earth is flat", 1)] 1
           eq_refl eq_refl ltac:(discriminate) eq_refl Hplain).
Defined.

(** ** [get_reset_time] on reachable limiters *)

Lemma limiter_step_capped bound op rl now :
  0 <= bound ->
  RateLimiter.max_requests rl <= bound ->
  (forall j, Z.of_nat (length (RateLimiter.window rl j)) <= bound) ->
  forall j, Z.of_nat (length (RateLimiter.window (limiter_step op rl now) j))
            <= bound.
Proof.
  intros Hbound Hmax Hrl j.
  assert (forall i q,
            Z.of_nat (length q) <= bound ->
            Z.of_nat (length (RateLimiter.window (RateLimiter.store rl i q) j))
            <= bound) as Hstore.
  { intros i q Hq. rewrite window_store_decide.
    destruct (decide (i = j)); [exact Hq|apply Hrl]. }
  assert (forall thr i,
            Z.of_nat (length (popleft_while thr (RateLimiter.window rl i)))
            <= bound) as Hpop.
  { intros thr i. pose proof (popleft_while_length thr (RateLimiter.window rl i)).
    specialize (Hrl i). lia. }
  destruct op as [i|i|i| |]; cbn [limiter_step].
  - unfold RateLimiter.check_rate_limit.
    destruct (Z.leb_spec (RateLimiter.max_requests rl)
                (Z.of_nat (length (popleft_while
                   (now - RateLimiter.time_window rl) (RateLimiter.window rl i)))));
      cbn [snd]; apply Hstore; [apply Hpop|].
    rewrite length_app. cbn [length]. lia.
  - unfold RateLimiter.get_remaining_requests. cbn [snd]. apply Hstore, Hpop.
  - unfold RateLimiter.get_reset_time.
    destruct (RateLimiter.window rl i) as [|a q] eqn:Hw; cbn [snd].
    + apply Hstore. cbn. exact Hbound.
    + destruct (_ <? _); cbn [snd]; apply Hstore; rewrite <- Hw; apply Hpop.
  - rewrite window_cleanup. apply Hpop.
  - apply Hrl.
Qed.

Lemma limiter_run_capped ops :
  forall rl,
    (forall j, Z.of_nat (length (RateLimiter.window rl j))
               <= Z.max 0 (RateLimiter.max_requests rl)) ->
    (forall j, Z.of_nat (length (RateLimiter.window (limiter_run rl ops) j))
               <= Z.max 0 (RateLimiter.max_requests rl))
    /\ RateLimiter.max_requests (limiter_run rl ops) = RateLimiter.max_requests rl.
Proof.
  induction ops as [|[op now] ops IH]; intros rl Hrl; [by split|].
  cbn [limiter_run].
  destruct (limiter_step_config op rl now) as [Hm _].
  destruct (IH (limiter_step op rl now)) as [Hw Hm'].
  - intros j. rewrite Hm. apply limiter_step_capped; [lia|lia|exact Hrl].
  - rewrite Hm in Hw, Hm'. by split.
Qed.

(** X27.  On a limiter reached from the empty one by the operations of
    the class, whatever [max_requests] and [time_window] are and whatever
    the times, [get_reset_time] does not fail: the state in which it reads
    the head of an empty deque is never reached.  With a [max_requests]
    that is not positive every call is refused and the answer is always 0. *)
Theorem reset_time_never_raises ops max_requests time_window identifier now :
  let rl := limiter_run (RateLimiter.init max_requests time_window) ops in
  is_Some (fst (RateLimiter.get_reset_time rl identifier now))
  /\ (max_requests <= 0 ->
      fst (RateLimiter.get_reset_time rl identifier now) = Some 0
      /\ fst (RateLimiter.check_rate_limit rl identifier now) = false).
Proof.
  cbv zeta.
  destruct (limiter_run_capped ops (RateLimiter.init max_requests time_window))
    as [Hw Hm]; [intros j; change (0 <= Z.max 0 max_requests); lia|].
  cbn [RateLimiter.init RateLimiter.max_requests] in Hw, Hm.
  set (rl := limiter_run (RateLimiter.init max_requests time_window) ops) in *.
  specialize (Hw identifier).
  unfold RateLimiter.get_reset_time, RateLimiter.check_rate_limit. rewrite Hm.
  destruct (RateLimiter.window rl identifier) as [|a q] eqn:Hq.
  - cbn [fst popleft_while length]. split; [eauto|]. intros Hle.
    split; [reflexivity|].
    destruct (Z.leb_spec max_requests (Z.of_nat 0)); [reflexivity|lia].
  - cbn [length] in Hw.
    split; [|intros Hle; lia].
    set (kept := popleft_while (now - RateLimiter.time_window rl) (a :: q)).
    destruct (Z.ltb_spec (Z.of_nat (length kept)) max_requests) as [H|H];
      cbn [fst]; [eauto|].
    destruct kept as [|oldest kept']; [cbn [length] in H; lia|eauto].
Qed.

(** ** Validation of the configuration *)

Lemma snoc_not_nil {A} (l : list A) (x : A) : l ++ [x] = [] <-> False.
Proof. split; [destruct l; discriminate|tauto]. Qed.

Lemma cond_snoc_nil {A} (b : bool) (l : list A) (x : A) :
  (if b then l ++ [x] else l) = [] <-> l = [] /\ b = false.
Proof.
  destruct b; [rewrite snoc_not_nil|]; split; try tauto; try discriminate.
  intros [_ H]. discriminate H.
Qed.

Lemma in_cond_snoc {A} (b : bool) (l : list A) (x y : A) :
  In x (if b then l ++ [y] else l) <-> In x l \/ (b = true /\ x = y).
Proof.
  destruct b; [rewrite in_app_iff; cbn [In]|]; split.
  - intros [H|[H|[]]]; [by left|right; by split].
  - intros [H|[_ H]]; [by left|right; by left].
  - by left.
  - intros [H|[H _]]; [exact H|discriminate H].
Qed.

Lemma unset_false v : unset v = false <-> exists s, v = Some s /\ s <> [].
Proof.
  destruct v as [[|c s]|]; cbn [unset]; split.
  - discriminate.
  - intros (s & [= <-] & H). by destruct H.
  - intros _. exists (c :: s). split; [reflexivity|discriminate].
  - reflexivity.
  - discriminate.
  - intros (s & H & _). discriminate H.
Qed.

Lemma validate_config_nil s :
  validate_config s = [] <->
  unset (getenv s (txt "DISCORD_TOKEN")) = false
  /\ unset (getenv s (txt "GEMINI_API_KEY")) = false
  /\ 0 < rate_limit_max_requests (bot s)
  /\ 0 < rate_limit_time_window (bot s)
  /\ float_lt_int (temperature s) 0 = false
  /\ float_gt_int (temperature s) 1 = false
  /\ 0 < max_tokens s
  /\ (1 <= length (command_prefix s) <= 5)%nat.
Proof.
  unfold validate_config. rewrite !cond_snoc_nil.
  cbn [required_vars flat_map]. rewrite app_nil_r.
  rewrite orb_false_iff, orb_false_iff, !Z.leb_gt, Nat.ltb_ge.
  assert ((if unset (getenv s (txt "DISCORD_TOKEN"))
           then [missing_variable (txt "DISCORD_TOKEN")] else [])
          ++ (if unset (getenv s (txt "GEMINI_API_KEY"))
              then [missing_variable (txt "GEMINI_API_KEY")] else []) = []
          <-> unset (getenv s (txt "DISCORD_TOKEN")) = false
              /\ unset (getenv s (txt "GEMINI_API_KEY")) = false) as ->.
  { destruct (unset _), (unset _); cbn [app]; split; try discriminate;
      try tauto; intros [? ?]; discriminate. }
  assert (match command_prefix s with [] => true | _ :: _ => false end = false
          <-> (1 <= length (command_prefix s))%nat) as ->.
  { destruct (command_prefix s); cbn [length]; split; try discriminate;
      try lia; reflexivity. }
  tauto.
Qed.

(** X28.  [validate_config] reports no error exactly when both required
    variables are set to a text that is not empty, [max_requests],
    [time_window] and [max_tokens] are positive, the temperature is neither
    below 0 nor above 1, and the command prefix has 1 to 5 characters.  A
    temperature that is not a number passes, as no comparison with it holds;
    and a configuration that passes has the positive limits on which the
    answers of the limiter rest. *)
Theorem validate_config_accepts s :
  (validate_config s = [] <->
   Forall (fun var => exists v, getenv s var = Some v /\ v <> []) required_vars
   /\ 0 < rate_limit_max_requests (bot s)
   /\ 0 < rate_limit_time_window (bot s)
   /\ float_lt_int (temperature s) 0 = false
   /\ float_gt_int (temperature s) 1 = false
   /\ 0 < max_tokens s
   /\ (1 <= length (command_prefix s) <= 5)%nat)
  /\ (temperature s = NaN -> ~ In bad_temperature (validate_config s))
  /\ (forall m e, temperature s = Finite m e ->
      ~ In bad_temperature (validate_config s) ->
      0 <= m /\ (0 <= e -> m * 2 ^ e <= 1) /\ (e < 0 -> m <= 2 ^ (- e))).
Proof.
  split; [|split].
  - rewrite validate_config_nil. unfold required_vars.
    rewrite !Forall_cons, <- !unset_false. split.
    + intros (H1 & H2 & H3). split; [|exact H3].
      split; [exact H1|]. split; [exact H2|constructor].
    + intros ((H1 & H2 & _) & H3). split; [exact H1|]. split; [exact H2|exact H3].
  - intros Htemp. unfold validate_config. rewrite Htemp.
    cbn [required_vars flat_map float_lt_int float_gt_int orb].
    destruct (unset _), (unset _), (_ <=? 0), (_ <=? 0), (_ <=? 0), (_ || _);
      cbn [app]; rewrite ?in_app_iff; cbn [In];
      unfold bad_temperature; intuition discriminate.
  - intros m e Htemp Hin.
    assert (float_lt_int (temperature s) 0 || float_gt_int (temperature s) 1
            = false) as Hok.
    { destruct (float_lt_int _ 0 || float_gt_int _ 1) eqn:E; [|reflexivity].
      exfalso. apply Hin. unfold validate_config. cbv zeta.
      rewrite !in_cond_snoc. left. left. right. split; [exact E|reflexivity]. }
    apply orb_false_iff in Hok as [Hlt Hgt]. rewrite Htemp in Hlt, Hgt.
    cbn [float_lt_int float_gt_int] in Hlt, Hgt.
    destruct (Z.leb_spec 0 e) as [He|He].
    + apply Z.ltb_ge in Hlt, Hgt.
      assert (0 < 2 ^ e) by (apply Z.pow_pos_nonneg; lia).
      repeat split; [nia|intros _; lia|lia].
    + apply Z.ltb_ge in Hlt, Hgt. repeat split; [lia|lia|intros _; lia].
Qed.
